(** * sdc11073: participant-model descriptors and the SCO execution engine

    A shallow embedding of the descriptor containers
    (mdib/descriptorcontainers.py), the service-controlled operations
    (sdcdevice/sco.py), the handlers and the WSDL of the port types
    (sdcdevice/sdcservicesimpl.py), the device (sdcdevice/sdcdeviceimpl.py),
    the codes of pmtypes.py and the role providers (roles/providerbase.py,
    roles/contextprovider.py), followed by the properties established about
    them.

    Python objects become records, raised exceptions become the [Err] branch
    of [result], dictionaries become association lists where the iteration
    order is observable and [gmap]s where it is not, and the mutable device
    state is threaded explicitly. *)

From Stdlib Require Import ZArith Sorting.Sorted DecimalString.
From Stdlib Require QArith.
From stdpp Require Import gmap strings list sorting.

Set Warnings "-register-all".

Local Open Scope string_scope.
Local Open Scope list_scope.
Local Open Scope nat_scope.

(** ** Exceptions and fallible computations *)

Inductive exn : Type :=
| ValueError (msg : string)
| RuntimeError (msg : string)
| AttributeError (msg : string)
| KeyError (msg : string)
| TypeError (msg : string)
| Full.

Inductive result (A : Type) : Type :=
| Ok (a : A)
| Err (e : exn).
Arguments Ok {A} a.
Arguments Err {A} e.

Global Instance result_bind : MBind result := fun A B k m =>
  match m with
  | Ok a => k a
  | Err e => Err e
  end.

Global Instance result_ret : MRet result := fun A a => Ok a.

Definition is_Ok {A} (m : result A) : bool :=
  match m with Ok _ => true | Err _ => false end.

(** [str(n)] of a Python integer *)
Definition str (n : Z) : string := NilZero.string_of_int (Z.to_int n).

(** [repr(s)] of a string: double quotes when it contains a single quote,
    single quotes otherwise; and [repr] of a list of strings. *)
Definition double_quote : string :=
  String (Ascii.Ascii false true false false false true false false) EmptyString.

Fixpoint has_single_quote (s : string) : bool :=
  match s with
  | EmptyString => false
  | String c rest =>
      if Ascii.eqb c (Ascii.Ascii true true true false false true false false)
      then true else has_single_quote rest
  end.

Definition quoted (msg : string) : string :=
  if has_single_quote msg then double_quote +:+ msg +:+ double_quote
  else "'" +:+ msg +:+ "'".

Definition repr_list (l : list string) : string :=
  "[" +:+ String.concat ", " (map quoted l) +:+ "]".

(** ** Qualified names (namespaces.py) *)

Record QName : Type := mkQName { namespace : string; localname : string }.

Global Instance QName_eq_dec : EqDecision QName.
Proof. solve_decision. Defined.

(** [str] of a qualified name, and of [None] *)
Definition str_qname (q : option QName) : string :=
  match q with
  | Some q => "{" +:+ namespace q +:+ "}" +:+ localname q
  | None => "None"
  end.

Definition domTag (name : string) : QName := mkQName "pm" name.
Definition extTag (name : string) : QName := mkQName "ext" name.
Definition msgTag (name : string) : QName := mkQName "msg" name.

(** ** Enumerations and codes of pmtypes.py *)

Module pmtypes.

Inductive InvocationState :=
| WAIT | START | CANCELLED | CANCELLED_MANUALLY | FINISHED | FINISHED_MOD | FAILED.

Definition InvocationState_value (s : InvocationState) : string :=
  match s with
  | WAIT => "Wait" | START => "Start" | CANCELLED => "Cnclld"
  | CANCELLED_MANUALLY => "CnclldMan" | FINISHED => "Fin"
  | FINISHED_MOD => "FinMod" | FAILED => "Fail"
  end.

Inductive InvocationError :=
| UNSPECIFIED_ERROR | UNKNOWN_OPERATION | INVALID_VALUE | OTHER.

Definition InvocationError_value (e : InvocationError) : string :=
  match e with
  | UNSPECIFIED_ERROR => "Unspec" | UNKNOWN_OPERATION => "Unkn"
  | INVALID_VALUE => "Inv" | OTHER => "Oth"
  end.

Inductive MetricCategory :=
| UNSPECIFIED | MEASUREMENT | CALCULATION | SETTING | PRESETTING | RECOMMENDATION.

Inductive ContextAssociation :=
| NO_ASSOCIATION | PRE_ASSOCIATION | ASSOCIATED | DISASSOCIATED.

Inductive MeasurementValidity :=
| VALID | VALIDATED_DATA | MEASUREMENT_ONGOING | QUESTIONABLE
| CALIBRATION_ONGOING | INVALID | OVERFLOW | UNDERFLOW | NA.

Inductive SafetyClassification := INF | MED_A | MED_B | MED_C.

Global Instance InvocationState_eq_dec : EqDecision InvocationState.
Proof. solve_decision. Defined.
Global Instance InvocationError_eq_dec : EqDecision InvocationError.
Proof. solve_decision. Defined.
Global Instance MetricCategory_eq_dec : EqDecision MetricCategory.
Proof. solve_decision. Defined.
Global Instance ContextAssociation_eq_dec : EqDecision ContextAssociation.
Proof. solve_decision. Defined.
Global Instance MeasurementValidity_eq_dec : EqDecision MeasurementValidity.
Proof. solve_decision. Defined.

(** *** Codes

    [Coding], [T_Translation], [CodedValue] and [have_matching_codes]. *)

(** What a caller may pass where a code is expected, and what reading the
    property [Code] may give: a [str], an [int] or [None]. *)
Inductive PyCode : Type :=
| code_str (s : string)
| code_int (n : Z)
| code_None.

Definition DEFAULT_CODING_SYSTEM : string := "urn:oid:1.2.840.10004.1.1.1.0.0.1".

(** The frozen dataclass [Coding]: [==] and [hash] go by the three fields. *)
Record Coding : Type := mkCoding {
  code : string;
  coding_system : option string;
  coding_system_version : option string
}.

Global Instance Coding_eq_dec : EqDecision Coding.
Proof. solve_decision. Defined.

(** [Coding(code, coding_system, coding_system_version)], with
    [__post_init__]. *)
Definition new_Coding (code : PyCode) (coding_system coding_system_version : option string)
  : result Coding :=
  match code with
  | code_str s => Ok (mkCoding s coding_system coding_system_version)
  | _ => Err (TypeError "code must be a string!")
  end.

(** A [T_Translation] and a [CodedValue], by what reading their properties
    [Code], [CodingSystem], [CodingSystemVersion] and [Translation] gives. *)
Record T_Translation : Type := mkTranslation {
  t_Code : PyCode;
  t_CodingSystem : option string;
  t_CodingSystemVersion : option string
}.

Record CodedValue : Type := mkCodedValue {
  Code : PyCode;
  CodingSystem : option string;
  CodingSystemVersion : option string;
  Translation : option (list T_Translation)
}.

(** [T_Translation.__init__] and [CodedValue.__init__]: the check of [code]
    and then the assignments to the properties.  What a property gives back
    after an assignment is decided by its class (mdib/containerproperties.py);
    [assigned] stands for the object after the assignments. *)
Definition new_T_Translation
    (assigned : PyCode -> option string -> option string -> T_Translation)
    (code : PyCode) (coding_system coding_system_version : option string)
  : result T_Translation :=
  match code with
  | code_str _ => Ok (assigned code coding_system coding_system_version)
  | _ => Err (TypeError "code must be a string!")
  end.

Definition new_CodedValue
    (assigned : PyCode -> option string -> option string -> CodedValue)
    (code : PyCode) (coding_system coding_system_version : option string)
  : result CodedValue :=
  match code with
  | code_int _ => Err (TypeError "code must be a string!")
  | _ => Ok (assigned code coding_system coding_system_version)
  end.

(** The property [coding] of the two classes. *)
Definition T_Translation_coding (self : T_Translation) : result Coding :=
  new_Coding (t_Code self) (t_CodingSystem self) (t_CodingSystemVersion self).

Definition coding (self : CodedValue) : result Coding :=
  new_Coding (Code self) (CodingSystem self) (CodingSystemVersion self).

(** [[t.coding for t in self.Translation]] *)
Fixpoint codings_of (translations : list T_Translation) : result (list Coding) :=
  match translations with
  | [] => Ok []
  | t :: rest => c ← T_Translation_coding t; l ← codings_of rest; Ok (c :: l)
  end.

(** The property [all_codings] *)
Definition all_codings (self : CodedValue) : result (list Coding) :=
  c ← coding self;
  match Translation self with
  | Some translations => l ← codings_of translations; Ok (c :: l)
  | None => Ok [c]
  end.

(** [from_node] of the two classes: [obj = cls(None)], then
    [obj.update_from_node(node)], which hands the node to every property of
    the object; what the properties read from it is a parameter here. *)
Definition T_Translation_from_node {Node}
    (assigned : PyCode -> option string -> option string -> T_Translation)
    (update_from_node : T_Translation -> Node -> result T_Translation) (node : Node)
  : result T_Translation :=
  obj ← new_T_Translation assigned code_None None None; update_from_node obj node.

Definition CodedValue_from_node {Node}
    (assigned : PyCode -> option string -> option string -> CodedValue)
    (update_from_node : CodedValue -> Node -> result CodedValue) (node : Node)
  : result CodedValue :=
  obj ← new_CodedValue assigned code_None None None; update_from_node obj node.

(** What [have_matching_codes] is given: a [Coding], a [CodedValue], or, as
    the docstring of [CodedValue.equals] allows, a string or an integer.
    Only a [CodedValue] has the attribute [all_codings]. *)
Inductive CodeLike : Type :=
| a_Coding (c : Coding)
| a_CodedValue (v : CodedValue)
| a_str (s : string)
| an_int (n : Z).

(** The elements of the sets that [have_matching_codes] builds. *)
Inductive CodeElement : Type :=
| elem_Coding (c : Coding)
| elem_str (s : string)
| elem_int (n : Z).

Global Instance CodeElement_eq_dec : EqDecision CodeElement.
Proof. solve_decision. Defined.

(** [set(code.all_codings)], or [set([code])] when reading [all_codings]
    raises [AttributeError]; another exception is not caught.  A set is kept
    as a list without duplicates. *)
Definition codes_of (code : CodeLike) : result (list CodeElement) :=
  match code with
  | a_CodedValue v => l ← all_codings v; Ok (remove_dups (map elem_Coding l))
  | a_Coding c => Ok [elem_Coding c]
  | a_str s => Ok [elem_str s]
  | an_int n => Ok [elem_int n]
  end.

Definition have_matching_codes (code_a code_b : CodeLike) : result bool :=
  codes_a ← codes_of code_a;
  codes_b ← codes_of code_b;
  let common_codes := filter (fun x => x ∈ codes_b) codes_a in
  Ok (bool_decide (0 < length common_codes)%nat).

(** [Coding.equals] and [CodedValue.equals] *)
Definition Coding_equals (self : Coding) (other : CodeLike) : result bool :=
  have_matching_codes (a_Coding self) other.

Definition equals (self : CodedValue) (other : CodeLike) : result bool :=
  have_matching_codes (a_CodedValue self) other.

End pmtypes.

(** ** Descriptor containers (mdib/descriptorcontainers.py) *)

Module descriptorcontainers.

(** [ChildElem] declares a sub-element that is a property of the container
    itself, [ChildConts] a sub-element that holds child containers of the
    listed node types. *)
Inductive ChildDecl : Type :=
| ChildElem (child_qname : QName)
| ChildConts (child_qname : QName) (node_types : list QName).

Definition child_qname (d : ChildDecl) : QName :=
  match d with
  | ChildElem q => q
  | ChildConts q _ => q
  end.

(** Every class of the module, abstract and concrete. *)
Inductive DescriptorClass : Type :=
| AbstractDescriptorContainer
| AbstractDeviceComponentDescriptorContainer
| AbstractComplexDeviceComponentDescriptorContainer
| MdsDescriptorContainer
| VmdDescriptorContainer
| ChannelDescriptorContainer
| ClockDescriptorContainer
| BatteryDescriptorContainer
| ScoDescriptorContainer
| AbstractMetricDescriptorContainer
| NumericMetricDescriptorContainer
| StringMetricDescriptorContainer
| EnumStringMetricDescriptorContainer
| RealTimeSampleArrayMetricDescriptorContainer
| DistributionSampleArrayMetricDescriptorContainer
| AbstractOperationDescriptorContainer
| SetValueOperationDescriptorContainer
| SetStringOperationDescriptorContainer
| AbstractSetStateOperationDescriptor
| SetContextStateOperationDescriptorContainer
| SetMetricStateOperationDescriptorContainer
| SetComponentStateOperationDescriptorContainer
| SetAlertStateOperationDescriptorContainer
| ActivateOperationDescriptorContainer
| AbstractAlertDescriptorContainer
| AlertSystemDescriptorContainer
| AlertConditionDescriptorContainer
| LimitAlertConditionDescriptorContainer
| AlertSignalDescriptorContainer
| SystemContextDescriptorContainer
| AbstractContextDescriptorContainer
| PatientContextDescriptorContainer
| LocationContextDescriptorContainer
| WorkflowContextDescriptorContainer
| OperatorContextDescriptorContainer
| MeansContextDescriptorContainer
| EnsembleContextDescriptorContainer.

Global Instance DescriptorClass_eq_dec : EqDecision DescriptorClass.
Proof. solve_decision. Defined.

Definition all_classes : list DescriptorClass :=
  [ AbstractDescriptorContainer; AbstractDeviceComponentDescriptorContainer;
    AbstractComplexDeviceComponentDescriptorContainer; MdsDescriptorContainer;
    VmdDescriptorContainer; ChannelDescriptorContainer; ClockDescriptorContainer;
    BatteryDescriptorContainer; ScoDescriptorContainer;
    AbstractMetricDescriptorContainer; NumericMetricDescriptorContainer;
    StringMetricDescriptorContainer; EnumStringMetricDescriptorContainer;
    RealTimeSampleArrayMetricDescriptorContainer;
    DistributionSampleArrayMetricDescriptorContainer;
    AbstractOperationDescriptorContainer; SetValueOperationDescriptorContainer;
    SetStringOperationDescriptorContainer; AbstractSetStateOperationDescriptor;
    SetContextStateOperationDescriptorContainer;
    SetMetricStateOperationDescriptorContainer;
    SetComponentStateOperationDescriptorContainer;
    SetAlertStateOperationDescriptorContainer; ActivateOperationDescriptorContainer;
    AbstractAlertDescriptorContainer; AlertSystemDescriptorContainer;
    AlertConditionDescriptorContainer; LimitAlertConditionDescriptorContainer;
    AlertSignalDescriptorContainer; SystemContextDescriptorContainer;
    AbstractContextDescriptorContainer; PatientContextDescriptorContainer;
    LocationContextDescriptorContainer; WorkflowContextDescriptorContainer;
    OperatorContextDescriptorContainer; MeansContextDescriptorContainer;
    EnsembleContextDescriptorContainer ].

(** The direct base class inside this module; [None] for
    [AbstractDescriptorContainer], whose base is [ContainerBase]. *)
Definition base (c : DescriptorClass) : option DescriptorClass :=
  match c with
  | AbstractDescriptorContainer => None
  | AbstractDeviceComponentDescriptorContainer => Some AbstractDescriptorContainer
  | AbstractComplexDeviceComponentDescriptorContainer =>
      Some AbstractDeviceComponentDescriptorContainer
  | MdsDescriptorContainer => Some AbstractComplexDeviceComponentDescriptorContainer
  | VmdDescriptorContainer => Some AbstractComplexDeviceComponentDescriptorContainer
  | ChannelDescriptorContainer => Some AbstractDeviceComponentDescriptorContainer
  | ClockDescriptorContainer => Some AbstractDeviceComponentDescriptorContainer
  | BatteryDescriptorContainer => Some AbstractDeviceComponentDescriptorContainer
  | ScoDescriptorContainer => Some AbstractDeviceComponentDescriptorContainer
  | AbstractMetricDescriptorContainer => Some AbstractDescriptorContainer
  | NumericMetricDescriptorContainer => Some AbstractMetricDescriptorContainer
  | StringMetricDescriptorContainer => Some AbstractMetricDescriptorContainer
  | EnumStringMetricDescriptorContainer => Some StringMetricDescriptorContainer
  | RealTimeSampleArrayMetricDescriptorContainer => Some AbstractMetricDescriptorContainer
  | DistributionSampleArrayMetricDescriptorContainer =>
      Some AbstractMetricDescriptorContainer
  | AbstractOperationDescriptorContainer => Some AbstractDescriptorContainer
  | SetValueOperationDescriptorContainer => Some AbstractOperationDescriptorContainer
  | SetStringOperationDescriptorContainer => Some AbstractOperationDescriptorContainer
  | AbstractSetStateOperationDescriptor => Some AbstractOperationDescriptorContainer
  | SetContextStateOperationDescriptorContainer => Some AbstractSetStateOperationDescriptor
  | SetMetricStateOperationDescriptorContainer => Some AbstractSetStateOperationDescriptor
  | SetComponentStateOperationDescriptorContainer =>
      Some AbstractSetStateOperationDescriptor
  | SetAlertStateOperationDescriptorContainer => Some AbstractSetStateOperationDescriptor
  | ActivateOperationDescriptorContainer => Some AbstractSetStateOperationDescriptor
  | AbstractAlertDescriptorContainer => Some AbstractDescriptorContainer
  | AlertSystemDescriptorContainer => Some AbstractAlertDescriptorContainer
  | AlertConditionDescriptorContainer => Some AbstractAlertDescriptorContainer
  | LimitAlertConditionDescriptorContainer => Some AlertConditionDescriptorContainer
  | AlertSignalDescriptorContainer => Some AbstractAlertDescriptorContainer
  | SystemContextDescriptorContainer => Some AbstractDeviceComponentDescriptorContainer
  | AbstractContextDescriptorContainer => Some AbstractDescriptorContainer
  | PatientContextDescriptorContainer => Some AbstractContextDescriptorContainer
  | LocationContextDescriptorContainer => Some AbstractContextDescriptorContainer
  | WorkflowContextDescriptorContainer => Some AbstractContextDescriptorContainer
  | OperatorContextDescriptorContainer => Some AbstractContextDescriptorContainer
  | MeansContextDescriptorContainer => Some AbstractContextDescriptorContainer
  | EnsembleContextDescriptorContainer => Some AbstractContextDescriptorContainer
  end.

(** The class attribute [NODETYPE]; only the concrete variants set it. *)
Definition NODETYPE (c : DescriptorClass) : option QName :=
  match c with
  | MdsDescriptorContainer => Some (domTag "MdsDescriptor")
  | VmdDescriptorContainer => Some (domTag "VmdDescriptor")
  | ChannelDescriptorContainer => Some (domTag "ChannelDescriptor")
  | ClockDescriptorContainer => Some (domTag "ClockDescriptor")
  | BatteryDescriptorContainer => Some (domTag "BatteryDescriptor")
  | ScoDescriptorContainer => Some (domTag "ScoDescriptor")
  | NumericMetricDescriptorContainer => Some (domTag "NumericMetricDescriptor")
  | StringMetricDescriptorContainer => Some (domTag "StringMetricDescriptor")
  | EnumStringMetricDescriptorContainer => Some (domTag "EnumStringMetricDescriptor")
  | RealTimeSampleArrayMetricDescriptorContainer =>
      Some (domTag "RealTimeSampleArrayMetricDescriptor")
  | DistributionSampleArrayMetricDescriptorContainer =>
      Some (domTag "DistributionSampleArrayMetricDescriptor")
  | SetValueOperationDescriptorContainer => Some (domTag "SetValueOperationDescriptor")
  | SetStringOperationDescriptorContainer => Some (domTag "SetStringOperationDescriptor")
  | SetContextStateOperationDescriptorContainer =>
      Some (domTag "SetContextStateOperationDescriptor")
  | SetMetricStateOperationDescriptorContainer =>
      Some (domTag "SetMetricStateOperationDescriptor")
  | SetComponentStateOperationDescriptorContainer =>
      Some (domTag "SetComponentStateOperationDescriptor")
  | SetAlertStateOperationDescriptorContainer =>
      Some (domTag "SetAlertStateOperationDescriptor")
  | ActivateOperationDescriptorContainer => Some (domTag "ActivateOperationDescriptor")
  | AlertSystemDescriptorContainer => Some (domTag "AlertSystemDescriptor")
  | AlertConditionDescriptorContainer => Some (domTag "AlertConditionDescriptor")
  | LimitAlertConditionDescriptorContainer => Some (domTag "LimitAlertConditionDescriptor")
  | AlertSignalDescriptorContainer => Some (domTag "AlertSignalDescriptor")
  | SystemContextDescriptorContainer => Some (domTag "SystemContextDescriptor")
  | PatientContextDescriptorContainer => Some (domTag "PatientContextDescriptor")
  | LocationContextDescriptorContainer => Some (domTag "LocationContextDescriptor")
  | WorkflowContextDescriptorContainer => Some (domTag "WorkflowContextDescriptor")
  | OperatorContextDescriptorContainer => Some (domTag "OperatorContextDescriptor")
  | MeansContextDescriptorContainer => Some (domTag "MeansContextDescriptor")
  | EnsembleContextDescriptorContainer => Some (domTag "EnsembleContextDescriptor")
  | _ => None
  end.

(** The class attribute [STATE_QNAME]: the tag of the state that belongs to
    the descriptor. *)
Definition STATE_QNAME (c : DescriptorClass) : option QName :=
  match c with
  | MdsDescriptorContainer => Some (domTag "MdsState")
  | VmdDescriptorContainer => Some (domTag "VmdState")
  | ChannelDescriptorContainer => Some (domTag "ChannelState")
  | ClockDescriptorContainer => Some (domTag "ClockState")
  | BatteryDescriptorContainer => Some (domTag "BatteryState")
  | ScoDescriptorContainer => Some (domTag "ScoState")
  | NumericMetricDescriptorContainer => Some (domTag "NumericMetricState")
  | StringMetricDescriptorContainer => Some (domTag "StringMetricState")
  | EnumStringMetricDescriptorContainer => Some (domTag "EnumStringMetricState")
  | RealTimeSampleArrayMetricDescriptorContainer => Some (domTag "RealTimeSampleArrayMetricState")
  | DistributionSampleArrayMetricDescriptorContainer => Some (domTag "DistributionSampleArrayMetricState")
  | SetValueOperationDescriptorContainer => Some (domTag "SetValueOperationState")
  | SetStringOperationDescriptorContainer => Some (domTag "SetStringOperationState")
  | SetContextStateOperationDescriptorContainer => Some (domTag "SetContextStateOperationState")
  | SetMetricStateOperationDescriptorContainer => Some (domTag "SetMetricStateOperationState")
  | SetComponentStateOperationDescriptorContainer => Some (domTag "SetComponentStateOperationState")
  | SetAlertStateOperationDescriptorContainer => Some (domTag "SetAlertStateOperationState")
  | ActivateOperationDescriptorContainer => Some (domTag "ActivateOperationState")
  | AlertSystemDescriptorContainer => Some (domTag "AlertSystemState")
  | AlertConditionDescriptorContainer => Some (domTag "AlertConditionState")
  | LimitAlertConditionDescriptorContainer => Some (domTag "LimitAlertConditionState")
  | AlertSignalDescriptorContainer => Some (domTag "AlertSignalState")
  | SystemContextDescriptorContainer => Some (domTag "SystemContextState")
  | PatientContextDescriptorContainer => Some (domTag "PatientContextState")
  | LocationContextDescriptorContainer => Some (domTag "LocationContextState")
  | WorkflowContextDescriptorContainer => Some (domTag "WorkflowContextState")
  | OperatorContextDescriptorContainer => Some (domTag "OperatorContextState")
  | MeansContextDescriptorContainer => Some (domTag "MeansContextState")
  | EnsembleContextDescriptorContainer => Some (domTag "EnsembleContextState")
  | _ => None
  end.

(** The [_children] tuple found in the class's own [__dict__]; [None] when
    the class body does not assign one. *)
Definition _children (c : DescriptorClass) : option (list ChildDecl) :=
  match c with
  | AbstractDescriptorContainer =>
      Some [ChildElem (extTag "Extension"); ChildElem (domTag "Type")]
  | AbstractDeviceComponentDescriptorContainer =>
      Some [ChildElem (domTag "ProductionSpecification")]
  | AbstractComplexDeviceComponentDescriptorContainer =>
      Some [ChildConts (domTag "AlertSystem") [domTag "AlertSystemDescriptor"];
            ChildConts (domTag "Sco") [domTag "ScoDescriptor"]]
  | MdsDescriptorContainer =>
      Some [ChildElem (domTag "MetaData");
            ChildConts (domTag "SystemContext") [domTag "SystemContextDescriptor"];
            ChildConts (domTag "Clock") [domTag "ClockDescriptor"];
            ChildConts (domTag "Battery") [domTag "BatteryDescriptor"];
            ChildElem (domTag "ApprovedJurisdictions");
            ChildConts (domTag "Vmd") [domTag "VmdDescriptor"]]
  | VmdDescriptorContainer =>
      Some [ChildConts (domTag "Channel") [domTag "ChannelDescriptor"]]
  | ChannelDescriptorContainer =>
      Some [ChildConts (domTag "Metric")
              [domTag "NumericMetricDescriptor";
               domTag "StringMetricDescriptor";
               domTag "EnumStringMetricDescriptor";
               domTag "RealTimeSampleArrayMetricDescriptor";
               domTag "DistributionSampleArrayMetricDescriptor"]]
  | ClockDescriptorContainer => Some [ChildElem (domTag "TimeProtocol")]
  | BatteryDescriptorContainer =>
      Some [ChildElem (domTag "CapacityFullCharge");
            ChildElem (domTag "CapacitySpecified");
            ChildElem (domTag "VoltageSpecified")]
  | ScoDescriptorContainer =>
      Some [ChildConts (domTag "Operation")
              [domTag "SetValueOperationDescriptor";
               domTag "SetStringOperationDescriptor";
               domTag "SetContextStateOperationDescriptor";
               domTag "SetMetricStateOperationDescriptor";
               domTag "SetComponentStateOperationDescriptor";
               domTag "SetAlertStateOperationDescriptor";
               domTag "ActivateOperationDescriptor"]]
  | AbstractMetricDescriptorContainer =>
      Some [ChildElem (domTag "Unit"); ChildElem (domTag "BodySite");
            ChildElem (domTag "Relation")]
  | NumericMetricDescriptorContainer => Some [ChildElem (domTag "TechnicalRange")]
  | EnumStringMetricDescriptorContainer => Some [ChildElem (domTag "AllowedValue")]
  | RealTimeSampleArrayMetricDescriptorContainer =>
      Some [ChildElem (domTag "TechnicalRange")]
  | DistributionSampleArrayMetricDescriptorContainer =>
      Some [ChildElem (domTag "TechnicalRange"); ChildElem (domTag "DomainUnit");
            ChildElem (domTag "DistributionRange")]
  | AbstractSetStateOperationDescriptor => Some [ChildElem (domTag "ModifiableData")]
  | ActivateOperationDescriptorContainer => Some [ChildElem (domTag "Argument")]
  | AlertSystemDescriptorContainer =>
      Some [ChildConts (domTag "AlertCondition")
              [domTag "AlertConditionDescriptor";
               domTag "LimitAlertConditionDescriptor"];
            ChildConts (domTag "AlertSignal") [domTag "AlertSignalDescriptor"]]
  | AlertConditionDescriptorContainer =>
      Some [ChildElem (domTag "Source"); ChildElem (domTag "CauseInfo")]
  | LimitAlertConditionDescriptorContainer => Some [ChildElem (domTag "MaxLimits")]
  | SystemContextDescriptorContainer =>
      Some [ChildConts (domTag "PatientContext") [domTag "PatientContextDescriptor"];
            ChildConts (domTag "LocationContext") [domTag "LocationContextDescriptor"];
            ChildConts (domTag "EnsembleContext") [domTag "EnsembleContextDescriptor"];
            ChildConts (domTag "OperatorContext") [domTag "OperatorContextDescriptor"];
            ChildConts (domTag "WorkflowContext") [domTag "WorkflowContextDescriptor"];
            ChildConts (domTag "MeansContext") [domTag "MeansContextDescriptor"]]
  | _ => None
  end.

(** [inspect.getmro], restricted to the classes of this module: the class
    followed by its chain of bases.  [ContainerBase] and [object], which end
    every chain, assign no [_children] and are left out.  The chain is at
    most five classes long, so the fuel of [getmro] never runs out. *)
Fixpoint getmro_fuel (fuel : nat) (c : DescriptorClass) : list DescriptorClass :=
  match fuel with
  | O => []
  | S fuel' =>
      c :: match base c with
           | Some b => getmro_fuel fuel' b
           | None => []
           end
  end.

Definition getmro (c : DescriptorClass) : list DescriptorClass :=
  getmro_fuel (length all_classes) c.

Definition sorted_child_declarations (c : DescriptorClass) : list ChildDecl :=
  flat_map (fun k => match _children k with
                     | Some names => names
                     | None => []
                     end)
           (rev (getmro c)).

Definition isMetricDescriptor (c : DescriptorClass) : bool :=
  bool_decide (AbstractMetricDescriptorContainer ∈ getmro c).

(** [cls.__name__] *)
Definition class_name (c : DescriptorClass) : string :=
  match c with
  | AbstractDescriptorContainer => "AbstractDescriptorContainer"
  | AbstractDeviceComponentDescriptorContainer => "AbstractDeviceComponentDescriptorContainer"
  | AbstractComplexDeviceComponentDescriptorContainer => "AbstractComplexDeviceComponentDescriptorContainer"
  | MdsDescriptorContainer => "MdsDescriptorContainer"
  | VmdDescriptorContainer => "VmdDescriptorContainer"
  | ChannelDescriptorContainer => "ChannelDescriptorContainer"
  | ClockDescriptorContainer => "ClockDescriptorContainer"
  | BatteryDescriptorContainer => "BatteryDescriptorContainer"
  | ScoDescriptorContainer => "ScoDescriptorContainer"
  | AbstractMetricDescriptorContainer => "AbstractMetricDescriptorContainer"
  | NumericMetricDescriptorContainer => "NumericMetricDescriptorContainer"
  | StringMetricDescriptorContainer => "StringMetricDescriptorContainer"
  | EnumStringMetricDescriptorContainer => "EnumStringMetricDescriptorContainer"
  | RealTimeSampleArrayMetricDescriptorContainer => "RealTimeSampleArrayMetricDescriptorContainer"
  | DistributionSampleArrayMetricDescriptorContainer => "DistributionSampleArrayMetricDescriptorContainer"
  | AbstractOperationDescriptorContainer => "AbstractOperationDescriptorContainer"
  | SetValueOperationDescriptorContainer => "SetValueOperationDescriptorContainer"
  | SetStringOperationDescriptorContainer => "SetStringOperationDescriptorContainer"
  | AbstractSetStateOperationDescriptor => "AbstractSetStateOperationDescriptor"
  | SetContextStateOperationDescriptorContainer => "SetContextStateOperationDescriptorContainer"
  | SetMetricStateOperationDescriptorContainer => "SetMetricStateOperationDescriptorContainer"
  | SetComponentStateOperationDescriptorContainer => "SetComponentStateOperationDescriptorContainer"
  | SetAlertStateOperationDescriptorContainer => "SetAlertStateOperationDescriptorContainer"
  | ActivateOperationDescriptorContainer => "ActivateOperationDescriptorContainer"
  | AbstractAlertDescriptorContainer => "AbstractAlertDescriptorContainer"
  | AlertSystemDescriptorContainer => "AlertSystemDescriptorContainer"
  | AlertConditionDescriptorContainer => "AlertConditionDescriptorContainer"
  | LimitAlertConditionDescriptorContainer => "LimitAlertConditionDescriptorContainer"
  | AlertSignalDescriptorContainer => "AlertSignalDescriptorContainer"
  | SystemContextDescriptorContainer => "SystemContextDescriptorContainer"
  | AbstractContextDescriptorContainer => "AbstractContextDescriptorContainer"
  | PatientContextDescriptorContainer => "PatientContextDescriptorContainer"
  | LocationContextDescriptorContainer => "LocationContextDescriptorContainer"
  | WorkflowContextDescriptorContainer => "WorkflowContextDescriptorContainer"
  | OperatorContextDescriptorContainer => "OperatorContextDescriptorContainer"
  | MeansContextDescriptorContainer => "MeansContextDescriptorContainer"
  | EnsembleContextDescriptorContainer => "EnsembleContextDescriptorContainer"
  end.

(** An lxml element: tag, attributes and the ordered child elements. *)
Inductive Element : Type :=
  mkElement (tag : QName) (attrib : list (string * string)) (subelements : list Element).

Definition tag (n : Element) : QName :=
  match n with mkElement t _ _ => t end.
Definition attrib (n : Element) : list (string * string) :=
  match n with mkElement _ a _ => a end.
Definition subelements (n : Element) : list Element :=
  match n with mkElement _ _ l => l end.

(** A descriptor container.  [_child_containers_by_type] is the
    [defaultdict(list)] of the constructor, kept as an association list in
    insertion order of its keys because [mk_descriptor_node] iterates over
    it.  [property_nodes] are the sub-elements that [_updateNode] writes for
    the container's own properties. *)
Record CodedValue : Type := mkCodedValue {
  code : string;
  codingSystem : option string;
  codingSystemVersion : option string
}.

(** The properties of a container that the operations and role providers
    read or write by name.  [property_nodes] stands for the sub-elements
    that [_updateNode] (containerbase.py) writes for the values of the
    sub-element properties, [property_attrib] for the attributes it writes. *)
Record Properties : Type := mkProperties {
  DescriptorVersion : option Z;
  Type_ : option CodedValue;
  OperationTarget : option string;
  MetricCategory_ : option pmtypes.MetricCategory;
  property_attrib : list (string * string);
  property_nodes : list Element
}.

Definition no_properties : Properties :=
  mkProperties None None None None [] [].

Inductive DescriptorContainer : Type :=
  mkDescriptorContainer
    (cls : DescriptorClass)
    (Handle : string)
    (parentHandle : option string)
    (properties : Properties)
    (_child_containers_by_type : list (option QName * list DescriptorContainer)).

Definition cls (d : DescriptorContainer) : DescriptorClass :=
  match d with mkDescriptorContainer c _ _ _ _ => c end.
Definition Handle (d : DescriptorContainer) : string :=
  match d with mkDescriptorContainer _ h _ _ _ => h end.
Definition parentHandle (d : DescriptorContainer) : option string :=
  match d with mkDescriptorContainer _ _ p _ _ => p end.
Definition properties (d : DescriptorContainer) : Properties :=
  match d with mkDescriptorContainer _ _ _ a _ => a end.
Definition _child_containers_by_type (d : DescriptorContainer)
  : list (option QName * list DescriptorContainer) :=
  match d with mkDescriptorContainer _ _ _ _ k => k end.

Definition set_child_containers (d : DescriptorContainer)
    (k : list (option QName * list DescriptorContainer)) : DescriptorContainer :=
  match d with
  | mkDescriptorContainer c h p a _ => mkDescriptorContainer c h p a k
  end.

Definition set_properties (d : DescriptorContainer) (a : Properties)
  : DescriptorContainer :=
  match d with
  | mkDescriptorContainer c h p _ k => mkDescriptorContainer c h p a k
  end.

(** The constructor: no property set, no children yet. *)
Definition new_container (c : DescriptorClass) (handle : string)
    (parent : option string) : DescriptorContainer :=
  mkDescriptorContainer c handle parent no_properties [].

Definition incrementDescriptorVersion (d : DescriptorContainer) : DescriptorContainer :=
  let a := properties d in
  set_properties d
    (mkProperties
       (match DescriptorVersion a with
        | None => Some 1%Z
        | Some v => Some (v + 1)%Z
        end)
       (Type_ a) (OperationTarget a) (MetricCategory_ a)
       (property_attrib a) (property_nodes a)).

(** Dictionary access [d[key]] of a [defaultdict(list)]: a missing key is
    inserted with an empty list, at the end of the iteration order. *)
Fixpoint dict_update {V} (key : option QName) (f : list V -> list V)
    (d : list (option QName * list V)) : list (option QName * list V) :=
  match d with
  | [] => [(key, f [])]
  | (k, v) :: rest =>
      if decide (k = key) then (k, f v) :: rest
      else (k, v) :: dict_update key f rest
  end.

Fixpoint dict_get {V} (key : option QName) (d : list (option QName * list V))
  : option (list V) :=
  match d with
  | [] => None
  | (k, v) :: rest => if decide (k = key) then Some v else dict_get key rest
  end.

(** The loop of [rmChild] removes from the list it is iterating over; the
    list iterator then skips the element that moved into the freed slot.
    [skip] says that the head is such an element.  The containers of one
    list are distinct objects, so [list.remove] takes out the element the
    iterator is at. *)
Fixpoint rmChild_loop (handle : string) (skip : bool)
    (l : list DescriptorContainer) : list DescriptorContainer :=
  match l with
  | [] => []
  | c :: rest =>
      if skip then c :: rmChild_loop handle false rest
      else if decide (Handle c = handle) then rmChild_loop handle true rest
      else c :: rmChild_loop handle false rest
  end.

(** [addChild]: [AbstractMetricDescriptorContainer] overrides the method of
    [AbstractDescriptorContainer]. *)
Definition addChild (self childDescriptorContainer : DescriptorContainer)
  : result DescriptorContainer :=
  if isMetricDescriptor (cls self) then
    Err (ValueError "Metric can not have children")
  else
    Ok (set_child_containers self
          (dict_update (NODETYPE (cls childDescriptorContainer))
             (fun l => l ++ [childDescriptorContainer])
             (_child_containers_by_type self))).

Definition rmChild (self childDescriptorContainer : DescriptorContainer)
  : result DescriptorContainer :=
  if isMetricDescriptor (cls self) then
    Err (ValueError "Metric can not have children")
  else
    Ok (set_child_containers self
          (dict_update (NODETYPE (cls childDescriptorContainer))
             (rmChild_loop (Handle childDescriptorContainer) false)
             (_child_containers_by_type self))).

Definition node_types_of (ch : ChildDecl) : option (list QName) :=
  match ch with
  | ChildElem _ => None
  | ChildConts _ ts => Some ts
  end.

(** The loop of [_tag_name_for_child_descriptor]; a [ChildElem] has no
    [node_types], the [AttributeError] is swallowed. *)
Fixpoint find_child_qname (node_type : option QName) (decls : list ChildDecl)
  : option QName :=
  match decls with
  | [] => None
  | ch :: rest =>
      match node_types_of ch, node_type with
      | Some ts, Some nt =>
          if bool_decide (nt ∈ ts) then Some (child_qname ch)
          else find_child_qname node_type rest
      | _, _ => find_child_qname node_type rest
      end
  end.

Definition _tag_name_for_child_descriptor (self : DescriptorClass)
    (node_type : option QName) : result QName :=
  match find_child_qname node_type (sorted_child_declarations self) with
  | Some q => Ok q
  | None =>
      Err (ValueError (str_qname node_type
                       +:+ " not known in child declarations of "
                       +:+ class_name self))
  end.

Definition qnames (self : DescriptorClass) : list QName :=
  map child_qname (sorted_child_declarations self).

(** [_sort_child_nodes].  After all children of [node] are removed, every
    declared tag re-appends the children carrying it.  lxml's [append] moves
    an element that is already a child; the declared tags of a class are
    pairwise distinct ([qnames_NoDup] below), so no element is appended
    twice. *)
Definition _sort_child_nodes (self : DescriptorClass) (node : Element) : result Element :=
  let not_in_order := filter (fun n => tag n ∉ qnames self) (subelements node) in
  if bool_decide (0 < length not_in_order)%nat then
    Err (ValueError (class_name self +:+ ": not in Order:"
                     +:+ repr_list (map (fun n => str_qname (Some (tag n))) not_in_order)
                     +:+ " node=" +:+ str_qname (Some (tag node))
                     +:+ ", order=" +:+ repr_list (map localname (qnames self))))
  else
    Ok (mkElement (tag node) (attrib node)
          (flat_map (fun qname => filter (fun n => tag n = qname) (subelements node))
                    (qnames self))).

(** Modelled from the spec: [_updateNode] (mdib/containerbase.py is not among
    the sources), the "declarative binding to an ordered tree
    representation": it writes the attributes and the sub-elements of the
    container's properties into the node.  What these are is given with the
    container ([property_attrib], [property_nodes]); [setXsiType] is passed
    on and decides about nothing else. *)
Definition _updateNode (a : Properties) (node : Element) (setXsiType : bool) : Element :=
  mkElement (tag node) (attrib node ++ property_attrib a)
            (subelements node ++ property_nodes a).

(** The two loops of [mk_descriptor_node] over
    [_child_containers_by_type.items()]: [mk_child] makes the node of one
    child for the tag found for its node type; the nodes are appended to
    the children [acc] that the node has so far. *)
Definition append_child_nodes {A} (mk_child : A -> result Element)
  : list A -> list Element -> result (list Element) :=
  fix go (child_list : list A) (acc : list Element) {struct child_list} :=
    match child_list with
    | [] => Ok acc
    | child :: rest =>
        child_node ← mk_child child;
        go rest (acc ++ [child_node])
    end.

Definition append_children_by_type {A} (tag_for : option QName -> result QName)
    (mk_child : QName -> A -> result Element)
  : list (option QName * list A) -> list Element -> result (list Element) :=
  fix go (items : list (option QName * list A)) (acc : list Element) {struct items} :=
    match items with
    | [] => Ok acc
    | (node_type, child_list) :: rest =>
        child_tag ← tag_for node_type;
        acc' ← append_child_nodes (mk_child child_tag) child_list acc;
        go rest acc'
    end.

(** [mk_descriptor_node].  The node starts with the attribute [Handle];
    [_updateNode] adds what the properties of the container give; with
    [connect_child_descriptors] the nodes of all child containers are
    appended, and at the end the children are brought into the declared
    order. *)
Fixpoint mk_descriptor_node (descriptor_container : DescriptorContainer) (tag : QName)
    (setXsiType connect_child_descriptors : bool) {struct descriptor_container}
  : result Element :=
  match descriptor_container with
  | mkDescriptorContainer c handle _ a by_type =>
      let node := _updateNode a (mkElement tag [("Handle", handle)] []) setXsiType in
      children ←
        (if connect_child_descriptors then
           append_children_by_type (_tag_name_for_child_descriptor c)
             (fun child_tag child => mk_descriptor_node child child_tag true true)
             by_type (subelements node)
         else Ok (subelements node));
      _sort_child_nodes c (mkElement tag (attrib node) children)
  end.

(** The place of a tag in a list of declared tags. *)
Fixpoint position (q : QName) (declared : list QName) : nat :=
  match declared with
  | [] => 0
  | x :: rest => if decide (x = q) then 0 else S (position q rest)
  end.

(** [a] does not come after [b] in the declared order of the class. *)
Definition in_declared_order (c : DescriptorClass) (a b : Element) : Prop :=
  (position (tag a) (qnames c) ≤ position (tag b) (qnames c))%nat.

(** A sequence of [addChild] calls. *)
Fixpoint add_children (parent : DescriptorContainer) (children : list DescriptorContainer)
  : result DescriptorContainer :=
  match children with
  | [] => Ok parent
  | child :: rest => parent' ← addChild parent child; add_children parent' rest
  end.

(** The children of [node] regrouped by the declared tags, as
    [_sort_child_nodes] leaves them. *)
Definition regroup (declared : list QName) (node : list Element) : list Element :=
  flat_map (fun qname => filter (fun n => tag n = qname) node) declared.

(** The child containers of a dictionary, each with the key it is filed
    under, in iteration order; and the node made for one of them. *)
Definition flatten {A} (items : list (option QName * list A)) : list (option QName * A) :=
  flat_map (fun kv => map (pair (fst kv)) (snd kv)) items.

Definition node_of {A} (tag_for : option QName -> result QName)
    (mk_child : QName -> A -> result Element) (ka : option QName * A) : result Element :=
  child_tag ← tag_for (fst ka); mk_child child_tag (snd ka).

Definition from_Ok (r : result Element) : Element :=
  match r with
  | Ok n => n
  | Err _ => mkElement (mkQName EmptyString EmptyString) [] []
  end.

Definition metric_variants : list DescriptorClass :=
  [ NumericMetricDescriptorContainer; StringMetricDescriptorContainer;
    EnumStringMetricDescriptorContainer; RealTimeSampleArrayMetricDescriptorContainer;
    DistributionSampleArrayMetricDescriptorContainer ].

Definition mkDescriptorNode (self : DescriptorContainer) (tag : QName)
    (setXsiType connect_child_descriptors : bool) : result Element :=
  mk_descriptor_node self tag setXsiType connect_child_descriptors.

(** [_name_class_lookup] and [getContainerClass]: the closed table from tag
    to class; a tag outside the table yields [None]. *)
Definition _name_class_lookup : list (QName * DescriptorClass) :=
  [ (domTag "Battery", BatteryDescriptorContainer);
    (domTag "BatteryDescriptor", BatteryDescriptorContainer);
    (domTag "Mds", MdsDescriptorContainer);
    (domTag "MdsDescriptor", MdsDescriptorContainer);
    (domTag "Vmd", VmdDescriptorContainer);
    (domTag "VmdDescriptor", VmdDescriptorContainer);
    (domTag "Sco", ScoDescriptorContainer);
    (domTag "ScoDescriptor", ScoDescriptorContainer);
    (domTag "Channel", ChannelDescriptorContainer);
    (domTag "ChannelDescriptor", ChannelDescriptorContainer);
    (domTag "Clock", ClockDescriptorContainer);
    (domTag "ClockDescriptor", ClockDescriptorContainer);
    (domTag "SystemContext", SystemContextDescriptorContainer);
    (domTag "SystemContextDescriptor", SystemContextDescriptorContainer);
    (domTag "PatientContext", PatientContextDescriptorContainer);
    (domTag "LocationContext", LocationContextDescriptorContainer);
    (domTag "PatientContextDescriptor", PatientContextDescriptorContainer);
    (domTag "LocationContextDescriptor", LocationContextDescriptorContainer);
    (domTag "WorkflowContext", WorkflowContextDescriptorContainer);
    (domTag "WorkflowContextDescriptor", WorkflowContextDescriptorContainer);
    (domTag "OperatorContext", OperatorContextDescriptorContainer);
    (domTag "OperatorContextDescriptor", OperatorContextDescriptorContainer);
    (domTag "MeansContext", MeansContextDescriptorContainer);
    (domTag "MeansContextDescriptor", MeansContextDescriptorContainer);
    (domTag "EnsembleContext", EnsembleContextDescriptorContainer);
    (domTag "EnsembleContextDescriptor", EnsembleContextDescriptorContainer);
    (domTag "AlertSystem", AlertSystemDescriptorContainer);
    (domTag "AlertSystemDescriptor", AlertSystemDescriptorContainer);
    (domTag "AlertCondition", AlertConditionDescriptorContainer);
    (domTag "AlertConditionDescriptor", AlertConditionDescriptorContainer);
    (domTag "AlertSignal", AlertSignalDescriptorContainer);
    (domTag "AlertSignalDescriptor", AlertSignalDescriptorContainer);
    (domTag "StringMetricDescriptor", StringMetricDescriptorContainer);
    (domTag "EnumStringMetricDescriptor", EnumStringMetricDescriptorContainer);
    (domTag "NumericMetricDescriptor", NumericMetricDescriptorContainer);
    (domTag "RealTimeSampleArrayMetricDescriptor", RealTimeSampleArrayMetricDescriptorContainer);
    (domTag "DistributionSampleArrayMetricDescriptor", DistributionSampleArrayMetricDescriptorContainer);
    (domTag "LimitAlertConditionDescriptor", LimitAlertConditionDescriptorContainer);
    (domTag "SetValueOperationDescriptor", SetValueOperationDescriptorContainer);
    (domTag "SetStringOperationDescriptor", SetStringOperationDescriptorContainer);
    (domTag "ActivateOperationDescriptor", ActivateOperationDescriptorContainer);
    (domTag "SetContextStateOperationDescriptor", SetContextStateOperationDescriptorContainer);
    (domTag "SetMetricStateOperationDescriptor", SetMetricStateOperationDescriptorContainer);
    (domTag "SetComponentStateOperationDescriptor", SetComponentStateOperationDescriptorContainer);
    (domTag "SetAlertStateOperationDescriptor", SetAlertStateOperationDescriptorContainer) ].

Definition getContainerClass (qNameType : QName) : option DescriptorClass :=
  (fun found => snd (snd found))
    <$> list_find (fun kv => fst kv = qNameType) _name_class_lookup.

(** Whether [mk_descriptor_node] can make the node of a container and its
    descendants: every property node has a declared tag, every key of
    [_child_containers_by_type] is a type that a declaration of the class
    accepts, and the children can be made in turn. *)
Fixpoint materializable (d : DescriptorContainer) : bool :=
  match d with
  | mkDescriptorContainer c _ _ a by_type =>
      forallb (fun n => bool_decide (tag n ∈ qnames c)) (property_nodes a)
      && forallb (fun kv => is_Ok (_tag_name_for_child_descriptor c (fst kv))
                            && forallb materializable (snd kv)) by_type
  end.

End descriptorcontainers.

(** ** The entity store and its transactions

    The device mdib, its handle-indexed lookups and the transaction manager
    live in modules of the package that are outside the sources at hand
    (mdib/devicemdib, mdib/multikey, mdib/transactions,
    mdib/statecontainers). *)

Module mdib.
Import descriptorcontainers.

Definition Time := Z.

(** A Python float, by the rational number it denotes. *)
Abbreviation Q := QArith_base.Q.

(** Scalars that travel as metric values. *)
Inductive PyValue : Type :=
| PyNone
| PyFloat (x : Q)
| PyStr (s : string).

(** pmtypes.T_MetricQuality *)
Record T_MetricQuality : Type := mkMetricQuality {
  mq_Validity : option pmtypes.MeasurementValidity;
  mq_Mode : option string;
  mq_Qi : option Q
}.

(** pmtypes.NumericMetricValue and pmtypes.StringMetricValue.  The class
    declares [Value], [MetricQuality] and the time stamps; [Validity] is the
    instance attribute of that name, which exists once something has
    assigned to it. *)
Record MetricValue : Type := mkMetricValue {
  Value : PyValue;
  MetricQuality : T_MetricQuality;
  DeterminationTime : option Time;
  Validity : option pmtypes.MeasurementValidity
}.

(** [AbstractMetricValue.__init__] without a node: the mandatory validity
    of the quality is preset. *)
Definition new_MetricValue : MetricValue :=
  mkMetricValue PyNone (mkMetricQuality (Some pmtypes.VALID) None None) None None.

(** Modelled from the spec: the state containers (mdib/statecontainers.py is
    not among the sources).  A state correlates to one descriptor through
    [descriptorHandle]; a multi state (context state) has a [Handle] of its
    own; [StateVersion] is the version of the state; the payload is the
    metric value of a metric state, the operating mode of an operation
    state, and association and binding for a context state.  [payload]
    holds the remaining declared fields of the variant, by name. *)
Record StateContainer : Type := mkStateContainer {
  NODETYPE : QName;
  isMultiState : bool;
  descriptorHandle : string;
  Handle : option string;
  StateVersion : Z;
  metricValue : option MetricValue;
  OperatingMode : option string;
  ContextAssociation : option pmtypes.ContextAssociation;
  BindingMdibVersion : option Z;
  UnbindingMdibVersion : option Z;
  BindingStartTime : option Time;
  BindingEndTime : option Time;
  payload : list (string * string)
}.

(** Modelled from the spec: the constructor of a state container
    (mdib/statecontainers.py is not among the sources): the state of a
    descriptor, version 0, nothing else set. *)
Definition new_state (nodetype : QName) (multi : bool) (descriptor_handle : string)
  : StateContainer :=
  mkStateContainer nodetype multi descriptor_handle None 0 None None None
                   None None None None [].

(** Modelled from the spec: the device mdib (mdib/devicemdib is not among the
    sources).  Entities are handle-addressed; each store keeps its objects in
    insertion order. *)
Record Mdib : Type := mkMdib {
  descriptions : list DescriptorContainer;
  states : list StateContainer;
  context_states : list StateContainer;
  mdib_version : Z;
  sequence_id : string
}.

(** Modelled from the spec: the indexed lookup of a store (mdib/multikey.py
    is not among the sources).  [get] returns the objects filed under the
    key, in insertion order; [get_one] returns the single object, [None]
    when there is none and [allow_none] is set, and fails otherwise. *)
Definition get {A K} `{EqDecision K} (key_of : A -> K) (store : list A) (key : K)
  : list A :=
  filter (fun o => key_of o = key) store.

(** Modelled from the spec: [get_one] of an index of a store
    (mdib/multikey.py is not among the sources): the one object filed under
    the key. *)
Definition get_one {A K} `{EqDecision K} (key_of : A -> K) (store : list A)
    (key : K) (allow_none : bool) : result (option A) :=
  match get key_of store key with
  | [] => if allow_none then Ok None else Err (KeyError "key not found")
  | [o] => Ok (Some o)
  | _ => Err (RuntimeError "more than one object for key")
  end.

(** Modelled from the spec: [get_one] (mdib/multikey.py) without
    [allow_none]. *)
Definition get_the_one {A K} `{EqDecision K} (key_of : A -> K) (store : list A)
    (key : K) : result A :=
  o ← get_one key_of store key false;
  match o with
  | Some a => Ok a
  | None => Err (KeyError "key not found")
  end.

(** Modelled from the spec: [add_object] of the three stores of the mdib
    (mdib/multikey.py is not among the sources). *)
Definition add_description (m : Mdib) (d : DescriptorContainer) : Mdib :=
  mkMdib (descriptions m ++ [d]) (states m) (context_states m)
         (mdib_version m) (sequence_id m).

(** Modelled from the spec: [mdib.states.add_object] (mdib/multikey.py). *)
Definition add_state_object (m : Mdib) (st : StateContainer) : Mdib :=
  mkMdib (descriptions m) (states m ++ [st]) (context_states m)
         (mdib_version m) (sequence_id m).

(** Modelled from the spec: [mdib.context_states.add_object]
    (mdib/multikey.py). *)
Definition add_context_state_object (m : Mdib) (st : StateContainer) : Mdib :=
  mkMdib (descriptions m) (states m) (context_states m ++ [st])
         (mdib_version m) (sequence_id m).

(** Modelled from the spec: [mdib.sdc_definitions.
    get_descriptor_container_class] (outside the sources).  "resolves the
    concrete variant from the discriminant via a closed registration table;
    unknown tag yields a not-found result": the table is
    [_name_class_lookup] of descriptorcontainers.py. *)
Definition get_descriptor_container_class (q : option QName) : option DescriptorClass :=
  q ≫= getContainerClass.

(** Modelled from the spec: the call [cls(handle, parent_handle)] by which
    sco.py creates the descriptor of an operation (the factory and the class
    it returns are outside the sources). *)
Definition new_descriptor_container (c : DescriptorClass) (handle parent_handle : string)
  : DescriptorContainer :=
  new_container c handle (Some parent_handle).

(** The class attribute [isContextDescriptor] *)
Definition isContextDescriptor (c : DescriptorClass) : bool :=
  bool_decide (AbstractContextDescriptorContainer ∈ getmro c).

(** Modelled from the spec: [mdib.mk_state_container_from_descriptor]
    (outside the sources), the "state-from-descriptor" factory: a default
    state for the [STATE_QNAME] of the descriptor's class; "multi-state
    targets go to a separate context-state store". *)
Definition mk_state_container_from_descriptor (d : DescriptorContainer)
  : option StateContainer :=
  match STATE_QNAME (cls d) with
  | Some q => Some (new_state q (isContextDescriptor (cls d)) (descriptorcontainers.Handle d))
  | None => None
  end.

(** Modelled from the spec: the transaction manager (mdib/transactions.py
    is not among the sources).  "beginTransaction() -> handle; within it:
    getDescriptor(handle), getState(descriptorHandle[, stateHandle]),
    addState(state); commit applies version increments atomically."
    A transaction holds working copies of the states it handed out and the
    states added in it; the mdib itself changes at commit only. *)
Record Transaction : Type := mkTransaction {
  state_updates : list StateContainer;
  context_state_updates : list StateContainer;
  added_states : list StateContainer
}.

(** Modelled from the spec: entering [mdib.transaction_manager()]
    (mdib/transactions.py): a transaction that holds nothing yet. *)
Definition begin_transaction : Transaction := mkTransaction [] [] [].

(** Modelled from the spec: [mgr.get_state(descriptor_handle)]
    (mdib/transactions.py), the working copy of a single state. *)
Definition get_state (m : Mdib) (tr : Transaction) (descriptor_handle : string)
  : result StateContainer :=
  match get descriptorHandle (state_updates tr) descriptor_handle with
  | st :: _ => Ok st
  | [] => get_the_one descriptorHandle (states m) descriptor_handle
  end.

(** Modelled from the spec: [mgr.get_state(descriptor_handle, handle)]
    (mdib/transactions.py), the working copy of a multi state. *)
Definition get_context_state (m : Mdib) (tr : Transaction)
    (descriptor_handle : string) (handle : option string) : result StateContainer :=
  match get Handle (context_state_updates tr ++ added_states tr) handle with
  | st :: _ => Ok st
  | [] => get_the_one Handle (context_states m) handle
  end.

(** Replace the object filed under [key], or append it. *)
Fixpoint store {A K} `{EqDecision K} (key_of : A -> K) (o : A) (l : list A) : list A :=
  match l with
  | [] => [o]
  | x :: rest =>
      if decide (key_of x = key_of o) then o :: rest else x :: store key_of o rest
  end.

(** Modelled from the spec: the working copy that [get_state] returned is an
    object of the transaction (mdib/transactions.py); the code mutates it,
    and [put_state] records the mutated copy. *)
Definition put_state (tr : Transaction) (st : StateContainer) : Transaction :=
  mkTransaction (store descriptorHandle st (state_updates tr))
                (context_state_updates tr) (added_states tr).

(** Modelled from the spec: as [put_state], for the working copy of a multi
    state (mdib/transactions.py). *)
Definition put_context_state (tr : Transaction) (st : StateContainer) : Transaction :=
  if bool_decide (Handle st ∈ map Handle (added_states tr)) then
    mkTransaction (state_updates tr) (context_state_updates tr)
                  (store Handle st (added_states tr))
  else
    mkTransaction (state_updates tr) (store Handle st (context_state_updates tr))
                  (added_states tr).

(** Modelled from the spec: [mgr.add_state(state)] (mdib/transactions.py);
    "handle collision on insert" fails. *)
Definition add_state (m : Mdib) (tr : Transaction) (st : StateContainer)
  : result Transaction :=
  if bool_decide (Handle st ∈ map Handle (context_states m ++ added_states tr)) then
    Err (ValueError "state handle already present")
  else
    Ok (mkTransaction (state_updates tr) (context_state_updates tr)
                      (added_states tr ++ [st])).

(** Modelled from the spec: the version increment that commit applies to a
    changed state (mdib/transactions.py, mdib/statecontainers.py). *)
Definition increment_state_version (st : StateContainer) : StateContainer :=
  mkStateContainer (NODETYPE st) (isMultiState st) (descriptorHandle st) (Handle st)
    (StateVersion st + 1)
    (metricValue st) (OperatingMode st) (ContextAssociation st)
    (BindingMdibVersion st) (UnbindingMdibVersion st) (BindingStartTime st)
    (BindingEndTime st) (payload st).

(** Modelled from the spec: what commit (mdib/transactions.py) leaves in the
    place of [st]: the working copy filed under its key, with the version
    incremented, or [st] itself. *)
Definition committed {K} `{EqDecision K} (key_of : StateContainer -> K)
    (updates : list StateContainer) (st : StateContainer) : StateContainer :=
  match get key_of updates (key_of st) with
  | st' :: _ => increment_state_version st'
  | [] => st
  end.

(** Modelled from the spec: commit (mdib/transactions.py) on one store. *)
Definition apply_updates {K} `{EqDecision K} (key_of : StateContainer -> K)
    (updates current : list StateContainer) : list StateContainer :=
  map (committed key_of updates) current.

(** Modelled from the spec: the commit of the transaction manager
    (mdib/transactions.py), "commit applies version increments atomically";
    leaving the [with] block without an exception commits. *)
Definition commit (m : Mdib) (tr : Transaction) : Mdib :=
  mkMdib (descriptions m)
         (apply_updates descriptorHandle (state_updates tr) (states m))
         (apply_updates Handle (context_state_updates tr) (context_states m)
            ++ added_states tr)
         (mdib_version m + 1)
         (sequence_id m).

(** What an operation's effect may read and change: the mdib and the wall
    clock.  [time.time()] returns the next reading of the clock. *)
Record Env : Type := mkEnv {
  the_mdib : Mdib;
  clock : nat -> Time;
  ticks : nat
}.

Definition time_time (e : Env) : Time * Env :=
  (clock e (ticks e), mkEnv (the_mdib e) (clock e) (S (ticks e))).

Definition set_mdib_of (e : Env) (m : Mdib) : Env :=
  mkEnv m (clock e) (ticks e).

End mdib.

(** ** Service controller operations (sdcdevice/sco.py) *)

Module sco.
Import descriptorcontainers mdib.

(** The soap envelope of a request, as far as the handlers look into it:
    the [OperationHandleRef] texts of its body, the tag of the first body
    element and the rest. *)
Record Request : Type := mkRequest {
  operation_handle_refs : list string;
  request_tag : QName;
  envelope : string
}.

(** What callers hand over as the argument of an invocation.
    [OperationRequest] is an object with the attribute [argument]; the
    other values have no such attribute. *)
Inductive PyObject : Type :=
| PyScalar (v : PyValue)
| PyStrings (l : list string)
| PyState (st : StateContainer)
| PyStates (l : list StateContainer)
| OperationRequest (argument : PyObject).

Definition getattr_argument (o : PyObject) : result PyObject :=
  match o with
  | OperationRequest a => Ok a
  | _ => Err (AttributeError "object has no attribute 'argument'")
  end.

Inductive OperationClass : Type :=
| OperationDefinition_
| _SetStringOperation
| _SetValueOperation
| _SetContextStateOperation
| _ActivateOperation
| _SetAlertStateOperation
| _SetComponentStateOperation
| _SetMetricStateOperation.

Global Instance OperationClass_eq_dec : EqDecision OperationClass.
Proof. solve_decision. Defined.

Definition OP_DESCR_QNAME (c : OperationClass) : option QName :=
  match c with
  | OperationDefinition_ => None
  | _SetStringOperation => Some (domTag "SetStringOperationDescriptor")
  | _SetValueOperation => Some (domTag "SetValueOperationDescriptor")
  | _SetContextStateOperation => Some (domTag "SetContextStateOperationDescriptor")
  | _ActivateOperation => Some (domTag "ActivateOperationDescriptor")
  | _SetAlertStateOperation => Some (domTag "SetAlertStateOperationDescriptor")
  | _SetComponentStateOperation => Some (domTag "SetComponentStateOperationDescriptor")
  | _SetMetricStateOperation => Some (domTag "SetMetricStateOperationDescriptor")
  end.

Definition OP_STATE_QNAME (c : OperationClass) : option QName :=
  match c with
  | OperationDefinition_ => None
  | _SetStringOperation => Some (domTag "SetStringOperationState")
  | _SetValueOperation => Some (domTag "SetValueOperationState")
  | _SetContextStateOperation => Some (domTag "SetContextStateOperationState")
  | _ActivateOperation => Some (domTag "ActivateOperationState")
  | _SetAlertStateOperation => Some (domTag "SetAlertStateOperationState")
  | _SetComponentStateOperation => Some (domTag "SetComponentStateOperationState")
  | _SetMetricStateOperation => Some (domTag "SetMetricStateOperationState")
  end.

Definition OP_QNAME (c : OperationClass) : option QName :=
  match c with
  | OperationDefinition_ => None
  | _SetStringOperation => Some (msgTag "SetString")
  | _SetValueOperation => Some (msgTag "SetValue")
  | _SetContextStateOperation => Some (msgTag "SetContextState")
  | _ActivateOperation => Some (msgTag "Activate")
  | _SetAlertStateOperation => Some (msgTag "SetAlertState")
  | _SetComponentStateOperation => Some (msgTag "SetComponentState")
  | _SetMetricStateOperation => Some (msgTag "SetMetricState")
  end.

Definition class_name (c : OperationClass) : string :=
  match c with
  | OperationDefinition_ => "OperationDefinition"
  | _SetStringOperation => "_SetStringOperation"
  | _SetValueOperation => "_SetValueOperation"
  | _SetContextStateOperation => "_SetContextStateOperation"
  | _ActivateOperation => "_ActivateOperation"
  | _SetAlertStateOperation => "_SetAlertStateOperation"
  | _SetComponentStateOperation => "_SetComponentStateOperation"
  | _SetMetricStateOperation => "_SetMetricStateOperation"
  end.

(** [_operation_lookup_by_type]: the classes of the module that have an
    [OP_DESCR_QNAME], keyed by it. *)
Definition _classes_with_QNAME : list OperationClass :=
  [ _ActivateOperation; _SetAlertStateOperation; _SetComponentStateOperation;
    _SetContextStateOperation; _SetMetricStateOperation; _SetStringOperation;
    _SetValueOperation ].

Definition get_operation_class (q_name : QName) : option OperationClass :=
  snd <$> list_find (fun c => OP_DESCR_QNAME c = Some q_name) _classes_with_QNAME.

(** The mdib an operation is bound to; a device has one. *)
Inductive MdibRef : Type := device_mdib.

(** The instance attributes of an [OperationDefinition].  The three
    container attributes refer to objects of the mdib's stores and are kept
    as the handles of those objects. *)
Record OperationDefinition : Type := mkOperationDefinition {
  op_class : OperationClass;
  _mdib : option MdibRef;
  _descriptor_container : option string;
  _operation_state_container : option string;
  _operation_target_container : option string;
  _handle : string;
  _operation_target_handle : string;
  _safety_classification : pmtypes.SafetyClassification;
  _coded_value : option CodedValue;
  calls : list (Time * Request);
  current_value : option PyObject;
  current_request : option Request;
  current_argument : option PyObject
}.

(** [__init__] *)
Definition new_operation (c : OperationClass) (handle operation_target_handle : string)
    (coded_value : option CodedValue) : OperationDefinition :=
  mkOperationDefinition c None None None None handle operation_target_handle
    pmtypes.INF coded_value [] None None None.

Definition handle (op : OperationDefinition) : string := _handle op.
Definition operation_target_handle (op : OperationDefinition) : string :=
  _operation_target_handle op.

(** [operation_target_storage]: [_SetContextStateOperation] overrides the
    property. *)
Definition operation_target_storage (op : OperationDefinition) (m : Mdib)
  : list StateContainer :=
  match op_class op with
  | _SetContextStateOperation => context_states m
  | _ => states m
  end.

Definition set_current_value (op : OperationDefinition) (v : option PyObject)
  : OperationDefinition :=
  mkOperationDefinition (op_class op) (_mdib op) (_descriptor_container op)
    (_operation_state_container op) (_operation_target_container op) (_handle op)
    (_operation_target_handle op) (_safety_classification op) (_coded_value op)
    (calls op) v (current_request op) (current_argument op).

Definition set_current_request (op : OperationDefinition) (r : option Request)
  : OperationDefinition :=
  mkOperationDefinition (op_class op) (_mdib op) (_descriptor_container op)
    (_operation_state_container op) (_operation_target_container op) (_handle op)
    (_operation_target_handle op) (_safety_classification op) (_coded_value op)
    (calls op) (current_value op) r (current_argument op).

Definition set_current_argument (op : OperationDefinition) (a : option PyObject)
  : OperationDefinition :=
  mkOperationDefinition (op_class op) (_mdib op) (_descriptor_container op)
    (_operation_state_container op) (_operation_target_container op) (_handle op)
    (_operation_target_handle op) (_safety_classification op) (_coded_value op)
    (calls op) (current_value op) (current_request op) a.

Definition append_call (op : OperationDefinition) (c : Time * Request)
  : OperationDefinition :=
  mkOperationDefinition (op_class op) (_mdib op) (_descriptor_container op)
    (_operation_state_container op) (_operation_target_container op) (_handle op)
    (_operation_target_handle op) (_safety_classification op) (_coded_value op)
    (calls op ++ [c]) (current_value op) (current_request op) (current_argument op).

Definition set_containers (op : OperationDefinition) (m : option MdibRef)
    (d s t : option string) : OperationDefinition :=
  mkOperationDefinition (op_class op) m d s t (_handle op)
    (_operation_target_handle op) (_safety_classification op) (_coded_value op)
    (calls op) (current_value op) (current_request op) (current_argument op).

(** A handler bound to an observable of an operation (a role provider's
    effect, bound with [partial(handler, operation)]): it receives the
    operation and the assigned value, may change the operation's attributes
    and the environment, and returns or raises.  Whatever it changed before
    raising stays changed. *)
Definition Handler (A : Type) : Type :=
  OperationDefinition -> A -> Env -> OperationDefinition * Env * result unit.

(** An operation object: its attributes and the handlers bound to
    [current_request] and [current_argument]. *)
Record Operation : Type := mkOperation {
  definition : OperationDefinition;
  current_request_handlers : list (Handler Request);
  current_argument_handlers : list (Handler PyObject)
}.

(** Modelled from the spec: assigning an observable property
    (observableproperties.py is not among the sources) stores the value and
    calls the bound handlers in order; "the operation's effect" is what
    these handlers do, and a failure they raise leaves the assignment. *)
Fixpoint fire {A} (handlers : list (Handler A)) (value : A)
    (op : OperationDefinition) (e : Env) : OperationDefinition * Env * result unit :=
  match handlers with
  | [] => (op, e, Ok ())
  | h :: rest =>
      match h op value e with
      | (op', e', Ok _) => fire rest value op' e'
      | (op', e', Err ex) => (op', e', Err ex)
      end
  end.

(** [OperationDefinition.execute_operation] *)
Definition execute_operation (self : Operation) (request : Request)
    (operation_request : PyObject) (e : Env) : Operation * Env * result unit :=
  let with_definition d :=
    mkOperation d (current_request_handlers self) (current_argument_handlers self) in
  let '(now, e1) := time_time e in
  let d1 := append_call (definition self) (now, request) in
  let d2 := set_current_request d1 (Some request) in
  match fire (current_request_handlers self) request d2 e1 with
  | (d3, e3, Err ex) => (with_definition d3, e3, Err ex)
  | (d3, e3, Ok _) =>
      match getattr_argument operation_request with
      | Err ex => (with_definition d3, e3, Err ex)
      | Ok argument =>
          let d4 := set_current_argument d3 (Some argument) in
          match fire (current_argument_handlers self) argument d4 e3 with
          | (d5, e5, r) => (with_definition d5, e5, r)
          end
      end
  end.

(** [_init_operation_descriptor_container] *)
Definition _init_operation_descriptor_container (self : OperationDefinition)
    (container : DescriptorContainer) : DescriptorContainer :=
  let a := properties container in
  set_properties container
    (mkProperties (DescriptorVersion a)
       (match _coded_value self with
        | Some cv => Some cv
        | None => Type_ a
        end)
       (Some (_operation_target_handle self))
       (MetricCategory_ a) (property_attrib a) (property_nodes a)).

(** [_init_operation_target_container]; [_SetContextStateOperation]
    overrides it with a method that does nothing. *)
Definition _init_operation_target_container (self : OperationDefinition) (m : Mdib)
  : OperationDefinition * Mdib * result unit :=
  match op_class self with
  | _SetContextStateOperation => (self, m, Ok ())
  | _ =>
      match get_the_one descriptorcontainers.Handle (descriptions m)
              (_operation_target_handle self) with
      | Err ex => (self, m, Err ex)
      | Ok operation_target_descriptor =>
          match get_one descriptorHandle (states m) (_operation_target_handle self) true with
          | Err ex => (self, m, Err ex)
          | Ok (Some _) =>
              (set_containers self (_mdib self) (_descriptor_container self)
                 (_operation_state_container self) (Some (_operation_target_handle self)),
               m, Ok ())
          | Ok None =>
              match mk_state_container_from_descriptor operation_target_descriptor with
              | Some st =>
                  (set_containers self (_mdib self) (_descriptor_container self)
                     (_operation_state_container self)
                     (Some (_operation_target_handle self)),
                   (if isMultiState st then add_context_state_object m st
                    else add_state_object m st),
                   Ok ())
              | None =>
                  (set_containers self (_mdib self) (_descriptor_container self)
                     (_operation_state_container self) None,
                   m, Ok ())
              end
          end
      end
  end.

(** [set_mdib].  [parent_handle] is [parent_descriptor_container.Handle]. *)
Definition set_mdib (self : OperationDefinition) (m : Mdib) (parent_handle : string)
  : OperationDefinition * Mdib * result unit :=
  match _mdib self with
  | Some _ => (self, m, Err (RuntimeError "Mdib is already set"))
  | None =>
      let self1 := set_containers self (Some device_mdib) (_descriptor_container self)
                     (_operation_state_container self)
                     (_operation_target_container self) in
      match get_one descriptorcontainers.Handle (descriptions m) (_handle self) true with
      | Err ex => (self1, m, Err ex)
      | Ok found =>
          let descr_step :=
            match found with
            | Some _ => Ok m
            | None =>
                match get_descriptor_container_class (OP_DESCR_QNAME (op_class self)) with
                | None => Err (TypeError "'NoneType' object is not callable")
                | Some c =>
                    Ok (add_description m
                          (_init_operation_descriptor_container self
                             (new_descriptor_container c (_handle self) parent_handle)))
                end
            end in
          match descr_step with
          | Err ex => (self1, m, Err ex)
          | Ok m1 =>
              let self2 := set_containers self1 (_mdib self1) (Some (_handle self))
                             (_operation_state_container self1)
                             (_operation_target_container self1) in
              match get_one descriptorHandle (states m1) (_handle self) true with
              | Err ex => (self2, m1, Err ex)
              | Ok found_state =>
                  let state_step :=
                    match found_state with
                    | Some _ => Ok m1
                    | None =>
                        match OP_STATE_QNAME (op_class self) with
                        | None => Err (TypeError "'NoneType' object is not callable")
                        | Some q => Ok (add_state_object m1 (new_state q false (_handle self)))
                        end
                    end in
                  match state_step with
                  | Err ex => (self2, m1, Err ex)
                  | Ok m2 =>
                      let self3 := set_containers self2 (_mdib self2)
                                     (_descriptor_container self2) (Some (_handle self))
                                     (_operation_target_container self2) in
                      _init_operation_target_container self3 m2
                  end
              end
          end
      end
  end.

(** *** The subscriptions manager, as the worker sees it *)

(** Operation objects are shared: the registry, the queue and the
    notifications refer to the same object.  The device keeps the objects
    in [objects]; a reference is the key of the object there. *)
Definition OperationRef := nat.

(** Modelled from the spec: the report sink.  "notify(operation,
    transactionId, invocationState, mdibVersion, sequenceId,
    namespaceContext, errorKind?, errorMessage?)"; the sink records what
    it is asked to report and returns. *)
Record Notification : Type := mkNotification {
  n_operation : OperationRef;
  n_transaction_id : Z;
  n_invocation_state : pmtypes.InvocationState;
  n_mdib_version : Z;
  n_sequence_id : string;
  n_error : option string;
  n_error_message : option string
}.

(** *** The worker thread *)

(** What the queue holds: the string ['stop_sco'] or the tuple that
    [enqueue_operation] puts. *)
Inductive QueueItem : Type :=
| stop_sco
| invocation (tr_id : Z) (operation : OperationRef) (request : Request)
             (operation_request : PyObject).

Record _OperationsWorker : Type := mkWorker {
  _operations_queue : list QueueItem;
  _transaction_id : Z;
  terminated : bool
}.

(** [queue.Queue(10)] *)
Definition maxsize : nat := 10.

(** [__init__] *)
Definition new_worker : _OperationsWorker := mkWorker [] 1 false.

(** [repr(ex)] for an exception with one string argument *)
Definition repr (ex : exn) : string :=
  match ex with
  | ValueError msg => "ValueError(" +:+ quoted msg +:+ ")"
  | RuntimeError msg => "RuntimeError(" +:+ quoted msg +:+ ")"
  | AttributeError msg => "AttributeError(" +:+ quoted msg +:+ ")"
  | KeyError msg => "KeyError(" +:+ quoted msg +:+ ")"
  | TypeError msg => "TypeError(" +:+ quoted msg +:+ ")"
  | Full => "Full()"
  end.

(** [_OperationsWorker.enqueue_operation].  The transaction id is taken and
    the counter advanced under [_transaction_id_lock]; [put] with a timeout
    raises [queue.Full] when no slot becomes free, and the id taken for the
    call is then used up. *)
Definition worker_enqueue_operation (self : _OperationsWorker)
    (operation : OperationRef) (request : Request) (operation_request : PyObject)
  : _OperationsWorker * result Z :=
  let transaction_id := _transaction_id self in
  let self1 := mkWorker (_operations_queue self) (_transaction_id self + 1)
                        (terminated self) in
  if bool_decide (maxsize ≤ length (_operations_queue self1))%nat then
    (self1, Err Full)
  else
    (mkWorker (_operations_queue self1
                 ++ [invocation transaction_id operation request operation_request])
              (_transaction_id self1) (terminated self1),
     Ok transaction_id).

(** [stop]: a dummy request to stop the thread; [put] without a timeout
    waits for a free slot ([None]). *)
Definition worker_stop (self : _OperationsWorker) : option _OperationsWorker :=
  if bool_decide (maxsize ≤ length (_operations_queue self))%nat then None
  else Some (mkWorker (_operations_queue self ++ [stop_sco]) (_transaction_id self)
                      (terminated self)).

(** *** The device: mdib, operation objects, registry, worker, sink *)

Record Device : Type := mkDevice {
  env : Env;
  objects : gmap OperationRef Operation;
  _registered_operations : gmap string OperationRef;
  _mds_sco_descriptor_container : string;
  _worker : option _OperationsWorker;
  notifications : list Notification
}.

Definition set_env (d : Device) (e : Env) : Device :=
  mkDevice e (objects d) (_registered_operations d)
           (_mds_sco_descriptor_container d) (_worker d) (notifications d).
Definition set_object (d : Device) (r : OperationRef) (o : Operation) : Device :=
  mkDevice (env d) (<[r := o]> (objects d)) (_registered_operations d)
           (_mds_sco_descriptor_container d) (_worker d) (notifications d).
Definition set_registered (d : Device) (reg : gmap string OperationRef) : Device :=
  mkDevice (env d) (objects d) reg
           (_mds_sco_descriptor_container d) (_worker d) (notifications d).
Definition set_worker (d : Device) (w : option _OperationsWorker) : Device :=
  mkDevice (env d) (objects d) (_registered_operations d)
           (_mds_sco_descriptor_container d) w (notifications d).

(** [self._subscriptions_mgr.notify_operation(operation, tr_id, state,
    mdib_version, sequence_id, nsmapper, error, error_message)] *)
Definition notify_operation (d : Device) (operation : OperationRef) (tr_id : Z)
    (state : pmtypes.InvocationState) (error error_message : option string) : Device :=
  mkDevice (env d) (objects d) (_registered_operations d)
           (_mds_sco_descriptor_container d) (_worker d)
           (notifications d
              ++ [mkNotification operation tr_id state
                    (mdib_version (the_mdib (env d)))
                    (sequence_id (the_mdib (env d))) error error_message]).

(** One turn of the loop of [_OperationsWorker.run], for the item [get]
    returned.  The first log line reads [operation.handle] and
    [operation_request.argument]; if that raises, the outer handler logs
    the error and the loop goes on with the next item. *)
Definition handle_item (d : Device) (from_queue : QueueItem) : Device :=
  match from_queue with
  | stop_sco => d
  | invocation tr_id operation request operation_request =>
      match objects d !! operation with
      | None => d
      | Some op =>
          match getattr_argument operation_request with
          | Err _ => d
          | Ok _ =>
              let d1 := notify_operation d operation tr_id pmtypes.WAIT None None in
              let d2 := notify_operation d1 operation tr_id pmtypes.START None None in
              match execute_operation op request operation_request (env d2) with
              | (op', e', Ok _) =>
                  notify_operation (set_env (set_object d2 operation op') e')
                    operation tr_id pmtypes.FINISHED None None
              | (op', e', Err ex) =>
                  notify_operation (set_env (set_object d2 operation op') e')
                    operation tr_id pmtypes.FAILED
                    (Some (pmtypes.InvocationError_value pmtypes.OTHER))
                    (Some (repr ex))
              end
          end
      end
  end.

(** One turn of the worker thread: [None] while [get] blocks on the empty
    queue, when no worker runs or when the thread has returned. *)
Definition worker_step (d : Device) : option Device :=
  match _worker d with
  | None => None
  | Some w =>
      if terminated w then None
      else
        match _operations_queue w with
        | [] => None
        | from_queue :: rest =>
            let d' := set_worker d (Some (mkWorker rest (_transaction_id w)
                                            (terminated w))) in
            match from_queue with
            | stop_sco =>
                Some (set_worker d (Some (mkWorker rest (_transaction_id w) true)))
            | _ => Some (handle_item d' from_queue)
            end
        end
  end.

(** The thread runs until it blocks or returns. *)
Fixpoint run (fuel : nat) (d : Device) : Device :=
  match fuel with
  | O => d
  | S fuel' =>
      match worker_step d with
      | None => d
      | Some d' => run fuel' d'
      end
  end.

(** *** ScoOperationsRegistry *)

(** [register_operation].  [sco_descriptor_container] is the handle of the
    container passed, if one is. *)
Definition register_operation (d : Device) (operation : OperationRef)
    (sco_descriptor_container : option string) : Device * result unit :=
  match objects d !! operation with
  | None => (d, Err (AttributeError "no such object"))
  | Some op =>
      let parent_container :=
        default (_mds_sco_descriptor_container d) sco_descriptor_container in
      match set_mdib (definition op) (the_mdib (env d)) parent_container with
      | (def', m', Err ex) =>
          (set_env (set_object d operation
                      (mkOperation def' (current_request_handlers op)
                                   (current_argument_handlers op)))
                   (set_mdib_of (env d) m'),
           Err ex)
      | (def', m', Ok _) =>
          let d1 := set_env (set_object d operation
                               (mkOperation def' (current_request_handlers op)
                                            (current_argument_handlers op)))
                            (set_mdib_of (env d) m') in
          (set_registered d1 (<[handle def' := operation]> (_registered_operations d1)),
           Ok ())
      end
  end.

Definition unregister_operation_by_handle (d : Device) (operation_handle : string)
  : Device * result unit :=
  match _registered_operations d !! operation_handle with
  | None => (d, Err (KeyError operation_handle))
  | Some _ => (set_registered d (delete operation_handle (_registered_operations d)), Ok ())
  end.

Definition get_operation_by_handle (d : Device) (operation_handle : string)
  : option OperationRef :=
  _registered_operations d !! operation_handle.

(** [ScoOperationsRegistry.enqueue_operation]: [self._worker] is [None]
    until [start_worker]. *)
Definition enqueue_operation (d : Device) (operation : OperationRef)
    (request : Request) (operation_request : PyObject) : Device * result Z :=
  match _worker d with
  | None =>
      (d, Err (AttributeError "'NoneType' object has no attribute 'enqueue_operation'"))
  | Some w =>
      let '(w', r) := worker_enqueue_operation w operation request operation_request in
      (set_worker d (Some w'), r)
  end.

Definition start_worker (d : Device) : Device * result unit :=
  match _worker d with
  | Some _ => (d, Err (RuntimeError "SCO worker is already running"))
  | None => (set_worker d (Some new_worker), Ok ())
  end.

(** *** Callers and the worker, interleaved

    Callers on any thread call [enqueue_operation] while the worker thread
    takes its turns; a schedule lists the order in which these steps take
    effect.  [play] runs a schedule and collects the transaction ids that the
    calls returned, in the order of the calls. *)
Inductive Event : Type :=
| call_enqueue_operation (operation : OperationRef) (request : Request)
                         (operation_request : PyObject)
| worker_turn.

Definition is_call (ev : Event) : bool :=
  match ev with
  | call_enqueue_operation _ _ _ => true
  | worker_turn => false
  end.

Fixpoint play (events : list Event) (d : Device) : Device * list Z :=
  match events with
  | [] => (d, [])
  | call_enqueue_operation operation request operation_request :: rest =>
      match enqueue_operation d operation request operation_request with
      | (d', Ok transaction_id) =>
          let '(d'', ids) := play rest d' in (d'', transaction_id :: ids)
      | (d', Err _) => play rest d'
      end
  | worker_turn :: rest => play rest (default d (worker_step d))
  end.

(** *** Predicates used to state properties of the engine *)

(** A handler that leaves the record of calls of the operation alone. *)
Definition keeps_calls {A} (h : Handler A) : Prop :=
  ∀ op value e, calls (h op value e).1.1 = calls op.

(** The transaction id of a queued invocation. *)
Definition tr_id_of (item : QueueItem) : Z :=
  match item with
  | stop_sco => 0
  | invocation tr_id _ _ _ => tr_id
  end.

(** An item that the worker can start: an invocation whose operation object
    exists and whose [operation_request] has the attribute [argument]. *)
Definition startable (d : Device) (item : QueueItem) : Prop :=
  match item with
  | stop_sco => False
  | invocation _ operation _ operation_request =>
      is_Some (objects d !! operation)
      ∧ is_Ok (getattr_argument operation_request) = true
  end.

(** [m'] holds what [m] holds and, at the end of its stores, the listed
    descriptors, states and context states; the versions are the same. *)
Definition extends (m m' : Mdib) (new_descriptions : list DescriptorContainer)
    (new_states new_context_states : list StateContainer) : Prop :=
  descriptions m' = descriptions m ++ new_descriptions
  ∧ states m' = states m ++ new_states
  ∧ context_states m' = context_states m ++ new_context_states
  ∧ mdib_version m' = mdib_version m
  ∧ sequence_id m' = sequence_id m.

End sco.

(** ** The Set service request handler (sdcdevice/sdcservicesimpl.py) *)

Module sdcservicesimpl.
Import mdib sco.

(** The reply body: the response element with its [InvocationInfo]. *)
Record Response : Type := mkResponse {
  response_name : string;
  SequenceId : string;
  MdibVersion : string;
  TransactionId : string;
  InvocationState : pmtypes.InvocationState;
  InvocationError : option pmtypes.InvocationError;
  InvocationErrorMessage : option string
}.

(** [SdcDevice.get_operation_by_handle] and [SdcDevice.enqueue_operation]
    (sdcdeviceimpl.py) pass on to the registry. *)
Definition device_get_operation_by_handle := sco.get_operation_by_handle.
Definition device_enqueue_operation := sco.enqueue_operation.

(** The part of [_handle_operation_request] that fills [error_texts]:
    either the texts, of which there is at least one, or the operation the
    request resolved to. *)
Inductive Checked : Type :=
| rejected (error_texts : list string)
| resolved (operation : OperationRef).

Definition check_request (d : Device) (request : Request) : Checked :=
  match operation_handle_refs request with
  | [operation_handle_ref] =>
      match device_get_operation_by_handle d operation_handle_ref with
      | None =>
          rejected ["operation not known: " +:+ double_quote +:+ operation_handle_ref
                    +:+ double_quote]
      | Some operation =>
          let op_qname := (fun o => OP_QNAME (op_class (definition o)))
                            <$> (objects d !! operation) in
          if bool_decide (Some (Some (request_tag request)) ≠ op_qname) then
            rejected ["mismatch Operation " +:+ operation_handle_ref +:+ ": expect "
                      +:+ str_qname (default None op_qname) +:+ ", got "
                      +:+ str_qname (Some (request_tag request))]
          else resolved operation
      end
  | _ => rejected ["no OperationHandleRef found in Request"]
  end.

(** [SetService._handle_operation_request] *)
Definition _handle_operation_request (d : Device) (request : Request)
    (response_name : string) (argument : PyObject) : Device * result Response :=
  let m := the_mdib (env d) in
  let reply transaction_id invocation_state error error_message :=
    mkResponse response_name (sequence_id m) (str (mdib_version m))
               transaction_id invocation_state error error_message in
  match check_request d request with
  | rejected error_texts =>
      (d, Ok (reply "0" pmtypes.FAILED (Some pmtypes.INVALID_VALUE)
                    (Some (String.concat "; " error_texts))))
  | resolved operation =>
      match device_enqueue_operation d operation request argument with
      | (d', Err ex) => (d', Err ex)
      | (d', Ok transaction_id) =>
          (d', Ok (reply (str transaction_id) pmtypes.WAIT None None))
      end
  end.

(** *** The handlers of the Set service and of the Context service

    Each handler reads its argument from the body of the request and passes
    it on.  What the xpath expression of a handler finds in the body is a
    parameter of the handler here: the texts [ArgValue/text()], the [text]
    of the [RequestedNumericValue] or [RequestedStringValue] elements
    ([None] for an empty element), the handle references, and the state
    containers that the message reader makes of the proposed state nodes. *)
Section set_service.

(** [float(text)] *)
Variable float : option string -> result Q.

Definition _on_activate (d : Device) (request : Request) (argument : list string)
  : Device * result Response :=
  _handle_operation_request d request "ActivateResponse" (PyStrings argument).

Definition _on_set_value (d : Device) (request : Request)
    (value_nodes : list (option string)) : Device * result Response :=
  match value_nodes with
  | text :: _ =>
      match float text with
      | Ok argument =>
          _handle_operation_request d request "SetValueResponse"
            (PyScalar (PyFloat argument))
      | Err ex => (d, Err ex)
      end
  | [] => _handle_operation_request d request "SetValueResponse" (PyScalar PyNone)
  end.

(** [str(string_node[0].text)]: the text of an empty element is [None], and
    [str(None)] is the string ['None']. *)
Definition _on_set_string (d : Device) (request : Request)
    (string_node : list (option string)) : Device * result Response :=
  match string_node with
  | text :: _ =>
      _handle_operation_request d request "SetStringResponse"
        (PyScalar (PyStr (default "None" text)))
  | [] => _handle_operation_request d request "SetStringResponse" (PyScalar PyNone)
  end.

Definition _on_set_metric_state (d : Device) (request : Request)
    (proposed_states : list StateContainer) : Device * result Response :=
  _handle_operation_request d request "SetMetricStateResponse" (PyStates proposed_states).

Definition _on_set_alert_state (d : Device) (request : Request)
    (proposed_states : list StateContainer) : Device * result Response :=
  match proposed_states with
  | _ :: _ :: _ =>
      (d, Err (ValueError ("only one ProposedAlertState argument allowed, found "
                           +:+ str (Z.of_nat (length proposed_states)))))
  | [] => (d, Err (ValueError "no ProposedAlertState argument found"))
  | [argument] =>
      _handle_operation_request d request "SetAlertStateResponse" (PyState argument)
  end.

Definition _on_set_component_state (d : Device) (request : Request)
    (proposed_states : list StateContainer) : Device * result Response :=
  _handle_operation_request d request "SetComponentStateResponse"
    (PyStates proposed_states).

End set_service.

(** [ContextService._on_set_context_state].  [operation_handle_refs] is what
    its own xpath expression,
    [msg:SetContextState/msg:OperationHandleRef/text()], finds. *)
Definition _on_set_context_state (d : Device) (request : Request)
    (operation_handle_refs : list string) (proposed_context_states : list StateContainer)
  : Device * result Response :=
  let m := the_mdib (env d) in
  let reply transaction_id invocation_state error error_message :=
    mkResponse "SetContextStateResponse" (sequence_id m) (str (mdib_version m))
               transaction_id invocation_state error error_message in
  let failed error_text :=
    (d, Ok (reply "0" pmtypes.FAILED (Some pmtypes.INVALID_VALUE)
                  (Some (String.concat "; " [error_text])))) in
  match operation_handle_refs with
  | [operation_handle_ref] =>
      match device_get_operation_by_handle d operation_handle_ref with
      | None =>
          failed ("operation " +:+ double_quote +:+ operation_handle_ref +:+ double_quote
                  +:+ " not known")
      | Some operation =>
          match device_enqueue_operation d operation request
                  (PyStates proposed_context_states) with
          | (d', Err ex) => (d', Err ex)
          | (d', Ok transaction_id) =>
              (d', Ok (reply (str transaction_id) pmtypes.WAIT None None))
          end
      end
  | _ :: _ :: _ =>
      failed ("multiple OperationHandleRefs found: " +:+ double_quote
              +:+ repr_list operation_handle_refs +:+ double_quote)
  | [] => failed "no OperationHandleRef found"
  end.

(** [d[key] = value] on an [OrderedDict]: a new key goes to the end, a key
    that is there keeps its place and gets the value. *)
Fixpoint ordered_dict_set {K V} `{EqDecision K} (key : K) (value : V) (d : list (K * V))
  : list (K * V) :=
  match d with
  | [] => [(key, value)]
  | (k, v) :: rest =>
      if decide (k = key) then (k, value) :: rest
      else (k, v) :: ordered_dict_set key value rest
  end.

(** [ContextService._on_get_context_states]: [tmp], the states found for one
    requested handle: the multi state with that handle, else the states of
    the descriptor with that handle, else all context states when the handle
    is that of an MDS descriptor. *)
Definition states_for_handle (m : Mdib) (handle : string) : result (list StateContainer) :=
  tmp ← get_one Handle (context_states m) (Some handle) true;
  match tmp with
  | Some state => Ok [state]
  | None =>
      match get descriptorHandle (context_states m) handle with
      | (_ :: _) as tmp => Ok tmp
      | [] =>
          descr ← get_one descriptorcontainers.Handle (descriptions m) handle true;
          match descr with
          | Some descr =>
              if decide (descriptorcontainers.NODETYPE (descriptorcontainers.cls descr)
                         = Some (domTag "MdsDescriptor"))
              then Ok (context_states m) else Ok []
          | None => Ok []
          end
      end
  end.

(** The loop over the requested handles, filling
    [context_state_containers_lookup]. *)
Fixpoint fill_lookup (m : Mdib) (requested_handles : list string)
    (context_state_containers_lookup : list (option string * StateContainer))
  : result (list (option string * StateContainer)) :=
  match requested_handles with
  | [] => Ok context_state_containers_lookup
  | handle :: rest =>
      tmp ← states_for_handle m handle;
      fill_lookup m rest
        (foldl (fun lookup state => ordered_dict_set (Handle state) state lookup)
               context_state_containers_lookup tmp)
  end.

(** The state containers whose nodes the response gets, in their order. *)
Definition _on_get_context_states (m : Mdib) (requested_handles : list string)
  : result (list StateContainer) :=
  match requested_handles with
  | [] => Ok (context_states m)
  | _ => lookup ← fill_lookup m requested_handles []; Ok (map snd lookup)
  end.

(** What the loop keeps true of the lookup: the keys are pairwise distinct,
    and every entry files a context state of the mdib under its handle. *)
Definition lookup_ok (m : Mdib) (lookup : list (option string * StateContainer)) : Prop :=
  NoDup (map fst lookup)
  ∧ ∀ kv, kv ∈ lookup → kv.2 ∈ context_states m ∧ kv.1 = Handle kv.2.

Import descriptorcontainers.

(** *** WSDL generation

    The port types describe themselves in WSDL.  The namespaces of the tags
    are defined in namespaces.py and hostedserviceimpl.py; a tag is kept
    with the name of its namespace constant.  An attribute whose key is a
    qualified name is stored by lxml under the text of that name. *)
Definition _msg_prefix : string := "msg".
Definition wsdlTag (name : string) : QName := mkQName "wsdl" name.
Definition s12Tag (name : string) : QName := mkQName "WSDL_S12" name.
Definition wspTag (name : string) : QName := mkQName "WSP_NS" name.
Definition dpwsTag (name : string) : QName := mkQName "dpws" name.
Definition mdpwsTag (name : string) : QName := mkQName "mdpws" name.
Definition wseTag (name : string) : QName := mkQName "wse" name.

Definition _wsdl_message : QName := wsdlTag "message".
Definition _wsdl_part : QName := wsdlTag "part".
Definition _wsdl_operation : QName := wsdlTag "operation".

Record WSDLMessageDescription : Type := mkWSDLMessageDescription {
  m_name : string;
  m_parameters : list string
}.

Record WSDLOperationBinding : Type := mkWSDLOperationBinding {
  b_name : string;
  b_input : option string;
  b_output : option string
}.

(** The classes derived from [DPWSPortTypeImpl]. *)
Inductive PortType : Type :=
| GetService
| ContainmentTreeService
| SetService
| WaveformService
| StateEventService
| ContextService
| DescriptionEventService.

(** ['{}:Name'.format(_msg_prefix)] *)
Definition prefixed (name : string) : string := _msg_prefix +:+ ":" +:+ name.

Definition WSDLMessageDescriptions (self : PortType) : list WSDLMessageDescription :=
  match self with
  | GetService =>
      [ mkWSDLMessageDescription "GetMdState" [prefixed "GetMdState"];
        mkWSDLMessageDescription "GetMdStateResponse" [prefixed "GetMdStateResponse"];
        mkWSDLMessageDescription "GetMdib" [prefixed "GetMdib"];
        mkWSDLMessageDescription "GetMdibResponse" [prefixed "GetMdibResponse"];
        mkWSDLMessageDescription "GetMdDescription" [prefixed "GetMdDescription"];
        mkWSDLMessageDescription "GetMdDescriptionResponse"
          [prefixed "GetMdDescriptionResponse"] ]
  | ContainmentTreeService =>
      [ mkWSDLMessageDescription "GetDescriptor" [prefixed "GetDescriptor"];
        mkWSDLMessageDescription "GetDescriptorResponse" [prefixed "GetDescriptorResponse"];
        mkWSDLMessageDescription "GetContainmentTree"
          [prefixed "GetContainmentTreeResponse"];
        mkWSDLMessageDescription "GetContainmentTreeResponse"
          [prefixed "GetContainmentTreeResponse"] ]
  | SetService =>
      [ mkWSDLMessageDescription "Activate" [prefixed "Activate"];
        mkWSDLMessageDescription "ActivateResponse" [prefixed "ActivateResponse"];
        mkWSDLMessageDescription "SetString" [prefixed "SetString"];
        mkWSDLMessageDescription "SetStringResponse" [prefixed "SetStringResponse"];
        mkWSDLMessageDescription "SetComponentState" [prefixed "SetComponentState"];
        mkWSDLMessageDescription "SetComponentStateResponse"
          [prefixed "SetComponentStateResponse"];
        mkWSDLMessageDescription "SetAlertState" [prefixed "SetAlertState"];
        mkWSDLMessageDescription "SetAlertStateResponse" [prefixed "SetAlertStateResponse"];
        mkWSDLMessageDescription "SetMetricState" [prefixed "SetMetricState"];
        mkWSDLMessageDescription "SetMetricStateResponse"
          [prefixed "SetMetricStateResponse"];
        mkWSDLMessageDescription "SetValue" [prefixed "SetValue"];
        mkWSDLMessageDescription "SetValueResponse" [prefixed "SetValueResponse"];
        mkWSDLMessageDescription "OperationInvokedReport"
          [prefixed "OperationInvokedReport"] ]
  | WaveformService =>
      [ mkWSDLMessageDescription "Waveform" [prefixed "WaveformStreamReport"] ]
  | StateEventService =>
      [ mkWSDLMessageDescription "EpisodicAlertReport" [prefixed "EpisodicAlertReport"];
        mkWSDLMessageDescription "SystemErrorReport" [prefixed "SystemErrorReport"];
        mkWSDLMessageDescription "PeriodicAlertReport" [prefixed "PeriodicAlertReport"];
        mkWSDLMessageDescription "EpisodicComponentReport"
          [prefixed "EpisodicComponentReport"];
        mkWSDLMessageDescription "PeriodicOperationalStateReport"
          [prefixed "PeriodicOperationalStateReport"];
        mkWSDLMessageDescription "PeriodicComponentReport"
          [prefixed "PeriodicComponentReport"];
        mkWSDLMessageDescription "EpisodicOperationalStateReport"
          [prefixed "EpisodicOperationalStateReport"];
        mkWSDLMessageDescription "PeriodicMetricReport" [prefixed "PeriodicMetricReport"];
        mkWSDLMessageDescription "EpisodicMetricReport" [prefixed "EpisodicMetricReport"] ]
  | ContextService =>
      [ mkWSDLMessageDescription "SetContextState" [prefixed "SetContextState"];
        mkWSDLMessageDescription "SetContextStateResponse"
          [prefixed "SetContextStateResponse"];
        mkWSDLMessageDescription "GetContextStates" [prefixed "GetContextStates"];
        mkWSDLMessageDescription "GetContextStatesResponse"
          [prefixed "GetContextStatesResponse"];
        mkWSDLMessageDescription "EpisodicContextReport" [prefixed "EpisodicContextReport"];
        mkWSDLMessageDescription "PeriodicContextReport" [prefixed "PeriodicContextReport"] ]
  | DescriptionEventService =>
      [ mkWSDLMessageDescription "DescriptionModificationReport"
          [prefixed "DescriptionModificationReport"] ]
  end.

Definition WSDLOperationBindings (self : PortType) : list WSDLOperationBinding :=
  let two_way name := mkWSDLOperationBinding name (Some "literal") (Some "literal") in
  let one_way name := mkWSDLOperationBinding name None (Some "literal") in
  match self with
  | GetService => [two_way "GetMdState"; two_way "GetMdib"; two_way "GetMdDescription"]
  | ContainmentTreeService => [two_way "GetDescriptor"; two_way "GetContainmentTree"]
  | SetService =>
      [ two_way "Activate"; two_way "SetString"; two_way "SetComponentState";
        two_way "SetAlertState"; two_way "SetMetricState"; two_way "SetValue";
        one_way "OperationInvokedReport" ]
  | WaveformService => [one_way "Waveform"]
  | StateEventService =>
      [ one_way "EpisodicAlertReport"; one_way "SystemErrorReport";
        one_way "PeriodicAlertReport"; one_way "EpisodicComponentReport";
        one_way "PeriodicOperationalStateReport"; one_way "PeriodicComponentReport";
        one_way "EpisodicOperationalStateReport"; one_way "PeriodicMetricReport";
        one_way "EpisodicMetricReport" ]
  | ContextService =>
      [ two_way "SetContextState"; two_way "GetContextStates";
        one_way "EpisodicContextReport"; one_way "PeriodicContextReport" ]
  | DescriptionEventService => [one_way "DescriptionModificationReport"]
  end.

(** [etree_.SubElement(parent, tag, attrib)] makes an element and appends it
    to [parent]; the functions below return the parent as it is afterwards. *)
Definition SubElement (parent child : Element) : Element :=
  mkElement (tag parent) (attrib parent) (subelements parent ++ [child]).

(** [a or b] on strings: [None] and the empty string are false. *)
Definition or_else (a : option string) (b : string) : string :=
  match a with
  | Some s => if decide (s = EmptyString) then b else s
  | None => b
  end.

Definition _mk_wsdl_operation (parent_node : Element) (operation_name : string)
    (input_message_name output_message_name : option string)
    (fault : option (string * string * string)) : Element :=
  let elem := mkElement _wsdl_operation [("name", operation_name)] [] in
  let elem :=
    match input_message_name with
    | Some name =>
        SubElement elem (mkElement (wsdlTag "input") [("message", "tns:" +:+ name)] [])
    | None => elem
    end in
  let elem :=
    match output_message_name with
    | Some name =>
        SubElement elem (mkElement (wsdlTag "output") [("message", "tns:" +:+ name)] [])
    | None => elem
    end in
  let elem :=
    match fault with
    | Some (fault_name, message_name, _) =>
        SubElement elem (mkElement (wsdlTag "fault")
                           [("name", fault_name); ("message", "tns:" +:+ message_name)] [])
    | None => elem
    end in
  SubElement parent_node elem.

Definition mk_wsdl_two_way_operation (parent_node : Element) (operation_name : string)
    (input_message_name output_message_name : option string)
    (fault : option (string * string * string)) : Element :=
  let input_msg_name := or_else input_message_name operation_name in
  let output_msg_name := or_else output_message_name (operation_name +:+ "Response") in
  _mk_wsdl_operation parent_node operation_name (Some input_msg_name)
    (Some output_msg_name) fault.

Definition _mk_wsdl_one_way_operation (parent_node : Element) (operation_name : string)
    (output_message_name : option string) (fault : option (string * string * string))
  : Element :=
  let output_msg_name := or_else output_message_name operation_name in
  _mk_wsdl_operation parent_node operation_name None (Some output_msg_name) fault.

Definition _add_policy_dpws_profile (parent_node : Element) : Element :=
  SubElement parent_node
    (mkElement (wspTag "Policy") []
       [ mkElement (dpwsTag "Profile") [(str_qname (Some (wspTag "Optional")), "true")] [];
         mkElement (mdpwsTag "Profile") [(str_qname (Some (wspTag "Optional")), "true")] [] ]).

(** [_mk_port_type_node]: the new [portType] element; [nsmap] holds the
    prefixes of [parent_node.nsmap]. *)
Definition _mk_port_type_node (port_type_string : string) (nsmap : list string)
    (is_event_source : bool) : Element :=
  mkElement (wsdlTag "portType")
    ([("name", port_type_string)]
     ++ (if bool_decide ("dt" ∈ nsmap)
         then [(str_qname (Some (dpwsTag "DiscoveryType")), "dt:ServiceProvider")]
         else [])
     ++ (if is_event_source
         then [(str_qname (Some (wseTag "EventSource")), "true")]
         else []))
    [].

(** [add_wsdl_port_type] of each class: the port type with its operations,
    appended to [parent_node]. *)
Definition add_wsdl_port_type (self : PortType) (port_type_string : string)
    (parent_node : Element) (nsmap : list string) : Element :=
  let two_way operation_name port_type :=
    mk_wsdl_two_way_operation port_type operation_name None None None in
  let one_way operation_name port_type :=
    _mk_wsdl_one_way_operation port_type operation_name None None in
  let build is_event_source steps :=
    foldl (fun port_type step => step port_type)
          (_mk_port_type_node port_type_string nsmap is_event_source) steps in
  SubElement parent_node
    match self with
    | GetService =>
        build false [two_way "GetMdState"; two_way "GetMdib"; two_way "GetMdDescription"]
    | ContainmentTreeService =>
        build false [two_way "GetDescriptor"; two_way "GetContainmentTree"]
    | SetService =>
        build true [ two_way "Activate"; two_way "SetString";
                     two_way "SetComponentState"; two_way "SetAlertState";
                     two_way "SetMetricState"; two_way "SetValue";
                     one_way "OperationInvokedReport" ]
    | WaveformService => build true [one_way "Waveform"]
    | StateEventService =>
        build true [ one_way "EpisodicAlertReport"; one_way "SystemErrorReport";
                     one_way "PeriodicAlertReport"; one_way "EpisodicComponentReport";
                     one_way "PeriodicOperationalStateReport";
                     one_way "PeriodicComponentReport";
                     one_way "EpisodicOperationalStateReport";
                     one_way "PeriodicMetricReport"; one_way "EpisodicMetricReport" ]
    | ContextService =>
        build true [ two_way "SetContextState"; two_way "GetContextStates";
                     one_way "EpisodicContextReport"; one_way "PeriodicContextReport" ]
    | DescriptionEventService => build true [one_way "DescriptionModificationReport"]
    end.

Definition add_wsdl_messages (self : PortType) (parent_node : Element) : Element :=
  foldl (fun parent msg =>
           SubElement parent
             (foldl (fun elem element_name =>
                       SubElement elem
                         (mkElement _wsdl_part
                            [("name", "parameters"); ("element", element_name)] []))
                    (mkElement _wsdl_message [("name", m_name msg)] [])
                    (m_parameters msg)))
        parent_node (WSDLMessageDescriptions self).

(** [add_wsdl_binding]; [ActionsNamespace] is that of the mdib's
    [sdc_definitions]. *)
Definition add_wsdl_binding (self : PortType) (port_type_string : string)
    (ActionsNamespace : string) (parent_node : Element) (porttype_prefix : string)
  : Element :=
  let wsdl_binding :=
    mkElement (wsdlTag "binding")
      [ ("name", port_type_string +:+ "Binding");
        ("type", porttype_prefix +:+ ":" +:+ port_type_string) ] [] in
  let wsdl_binding :=
    SubElement wsdl_binding
      (mkElement (s12Tag "binding")
         [("style", "document"); ("transport", "http://schemas.xmlsoap.org/soap/http")] []) in
  let wsdl_binding := _add_policy_dpws_profile wsdl_binding in
  SubElement parent_node
    (foldl (fun wsdl_binding wsdl_op =>
              let wsdl_operation :=
                mkElement (wsdlTag "operation") [("name", b_name wsdl_op)] [] in
              let wsdl_operation :=
                SubElement wsdl_operation
                  (mkElement (s12Tag "operation")
                     [("soapAction", ActionsNamespace +:+ "/" +:+ port_type_string
                                     +:+ "/" +:+ b_name wsdl_op)] []) in
              let wsdl_operation :=
                match b_input wsdl_op with
                | Some use =>
                    SubElement wsdl_operation
                      (mkElement (wsdlTag "input") []
                         [mkElement (s12Tag "body") [("use", use)] []])
                | None => wsdl_operation
                end in
              let wsdl_operation :=
                match b_output wsdl_op with
                | Some use =>
                    SubElement wsdl_operation
                      (mkElement (wsdlTag "output") []
                         [mkElement (s12Tag "body") [("use", use)] []])
                | None => wsdl_operation
                end in
              SubElement wsdl_binding wsdl_operation)
           wsdl_binding (WSDLOperationBindings self)).

(** Reading a generated tree: [node.get(key)], the children with a tag, and
    what a [wsdl:operation] element says: its name, whether it has an input,
    and the messages it refers to. *)
Definition get_attrib (key : string) (node : Element) : option string :=
  (fun found => snd (snd found)) <$> list_find (fun kv => fst kv = key) (attrib node).

Definition findall (q : QName) (node : Element) : list Element :=
  filter (fun n => tag n = q) (subelements node).

Definition has_input (operation : Element) : bool :=
  bool_decide (findall (wsdlTag "input") operation ≠ []).

Definition messages_of (operation : Element) : list string :=
  omap (get_attrib "message") (subelements operation).

End sdcservicesimpl.

(** ** Role providers (roles/providerbase.py) *)

Module providerbase.
Import descriptorcontainers mdib sco.

(** The property [MetricCategory] of the metric descriptors, with its
    default value; other descriptors have no such attribute. *)
Definition MetricCategory (d : DescriptorContainer) : result pmtypes.MetricCategory :=
  if isMetricDescriptor (cls d) then
    Ok (default pmtypes.UNSPECIFIED (MetricCategory_ (properties d)))
  else Err (AttributeError "object has no attribute 'MetricCategory'").

Definition _get_operation_target_handle (m : Mdib)
    (operation_instance : OperationDefinition) : result (option string) :=
  operation_descriptor_container ←
    get_the_one descriptorcontainers.Handle (descriptions m) (handle operation_instance);
  Ok (OperationTarget (properties operation_descriptor_container)).

Definition set_metricValue (st : StateContainer) (mv : option MetricValue)
  : StateContainer :=
  mkStateContainer (NODETYPE st) (isMultiState st) (descriptorHandle st) (Handle st)
    (StateVersion st) mv (OperatingMode st) (ContextAssociation st)
    (BindingMdibVersion st) (UnbindingMdibVersion st) (BindingStartTime st)
    (BindingEndTime st) (payload st).

(** Modelled from the spec: [state.mk_metric_value()]
    (mdib/statecontainers.py is not among the sources), "fetch or create the
    target's metric value": the state gets a metric value made without a
    node. *)
Definition mk_metric_value (st : StateContainer) : StateContainer :=
  set_metricValue st (Some new_MetricValue).

Definition set_Value (mv : MetricValue) (v : PyValue) : MetricValue :=
  mkMetricValue v (MetricQuality mv) (DeterminationTime mv) (Validity mv).

Definition set_Validity (mv : MetricValue) (v : pmtypes.MeasurementValidity)
  : MetricValue :=
  mkMetricValue (Value mv) (MetricQuality mv) (DeterminationTime mv) (Some v).

(** The body of the [with self._mdib.transaction_manager() as mgr] block of
    [_set_numeric_value] and of [_set_string], which read the same.
    [state.metricValue.Value = value] reads the metric value of the state
    after [mk_metric_value]; on [None] the assignment raises.
    [state.metricValue.Validity = ...] assigns the attribute [Validity] of
    the metric value object, not that of its [MetricQuality]. *)
Definition set_value_in_transaction (m : Mdib) (mgr : Transaction)
    (operation_target_handle : option string) (value : PyValue) : result Transaction :=
  match operation_target_handle with
  | None => Err (KeyError "key not found")
  | Some target =>
      state ← get_state m mgr target;
      let state1 := match metricValue state with
                    | None => mk_metric_value state
                    | Some _ => state
                    end in
      match metricValue state1 with
      | None => Err (AttributeError "'NoneType' object has no attribute 'Value'")
      | Some mv =>
          let mv1 := set_Value mv value in
          let mgr1 := put_state mgr (set_metricValue state1 (Some mv1)) in
          metric_descriptor_container ←
            get_the_one descriptorcontainers.Handle (descriptions m) target;
          category ← MetricCategory metric_descriptor_container;
          if bool_decide (category ∈ [pmtypes.SETTING; pmtypes.PRESETTING]) then
            Ok (put_state mgr1
                  (set_metricValue state1 (Some (set_Validity mv1 pmtypes.VALID))))
          else Ok mgr1
      end
  end.

(** [_set_numeric_value] *)
Definition _set_numeric_value : Handler PyValue :=
  fun operation_instance value e =>
    match _get_operation_target_handle (the_mdib e) operation_instance with
    | Err ex => (operation_instance, e, Err ex)
    | Ok operation_target_handle =>
        let operation_instance1 :=
          set_current_value operation_instance (Some (PyScalar value)) in
        match set_value_in_transaction (the_mdib e) begin_transaction
                operation_target_handle value with
        | Err ex => (operation_instance1, e, Err ex)
        | Ok mgr =>
            (operation_instance1, set_mdib_of e (commit (the_mdib e) mgr), Ok ())
        end
    end.

(** [_set_string] *)
Definition _set_string : Handler PyValue :=
  fun operation_instance value e =>
    match _get_operation_target_handle (the_mdib e) operation_instance with
    | Err ex => (operation_instance, e, Err ex)
    | Ok operation_target_handle =>
        let operation_instance1 :=
          set_current_value operation_instance (Some (PyScalar value)) in
        match set_value_in_transaction (the_mdib e) begin_transaction
                operation_target_handle value with
        | Err ex => (operation_instance1, e, Err ex)
        | Ok mgr =>
            (operation_instance1, set_mdib_of e (commit (the_mdib e) mgr), Ok ())
        end
    end.

End providerbase.

(** ** The context provider (roles/contextprovider.py) *)

Module contextprovider.
Import descriptorcontainers mdib sco.

Definition set_binding (st : StateContainer) (handle : option string)
    (association : option pmtypes.ContextAssociation)
    (binding_version unbinding_version : option Z)
    (binding_start binding_end : option Time) : StateContainer :=
  mkStateContainer (NODETYPE st) (isMultiState st) (descriptorHandle st) handle
    (StateVersion st) (metricValue st) (OperatingMode st) association
    binding_version unbinding_version binding_start binding_end (payload st).

(** The names [update_from_other_container] is told to skip. *)
Definition skipped_properties : list string :=
  ["ContextAssociation"; "BindingMdibVersion"; "UnbindingMdibVersion";
   "BindingStartTime"; "BindingEndTime"; "StateVersion"].

(** Modelled from the spec: [update_from_other_container] of a state
    (mdib/statecontainers.py and mdib/containerbase.py are not among the
    sources).  "For an update to an existing state, perform a field-level
    merge that explicitly excludes association/binding/version fields":
    every declared field whose name is not skipped is taken from [other],
    a skipped one keeps its value. *)
Definition update_from_other_container (self other : StateContainer)
    (skipped : list string) : StateContainer :=
  let pick {A} (name : string) (mine theirs : A) : A :=
    if bool_decide (name ∈ skipped) then mine else theirs in
  mkStateContainer
    (NODETYPE self)
    (isMultiState self)
    (pick "DescriptorHandle" (descriptorHandle self) (descriptorHandle other))
    (pick "Handle" (Handle self) (Handle other))
    (pick "StateVersion" (StateVersion self) (StateVersion other))
    (pick "MetricValue" (metricValue self) (metricValue other))
    (pick "OperatingMode" (OperatingMode self) (OperatingMode other))
    (pick "ContextAssociation" (ContextAssociation self) (ContextAssociation other))
    (pick "BindingMdibVersion" (BindingMdibVersion self) (BindingMdibVersion other))
    (pick "UnbindingMdibVersion" (UnbindingMdibVersion self)
       (UnbindingMdibVersion other))
    (pick "BindingStartTime" (BindingStartTime self) (BindingStartTime other))
    (pick "BindingEndTime" (BindingEndTime self) (BindingEndTime other))
    (filter (fun kv => fst kv ∈ skipped) (payload self)
       ++ filter (fun kv => fst kv ∉ skipped) (payload other)).

Definition show_handle (h : option string) : string :=
  match h with
  | Some s => s
  | None => "None"
  end.

(** The condition of the inner loop, and what the loop makes of a state that
    meets it when the clock reads [now]. *)
Definition needs_disassociation (old_state : StateContainer) : Prop :=
  ContextAssociation old_state ≠ Some pmtypes.DISASSOCIATED
  ∨ UnbindingMdibVersion old_state = None.

Global Instance needs_disassociation_dec old_state :
  Decision (needs_disassociation old_state).
Proof. unfold needs_disassociation. apply _. Defined.

Definition disassociated (version : Z) (now : Time) (old_state : StateContainer)
  : StateContainer :=
  set_binding old_state (Handle old_state) (Some pmtypes.DISASSOCIATED)
    (BindingMdibVersion old_state)
    (match UnbindingMdibVersion old_state with
     | None => Some version
     | Some u => Some u
     end)
    (BindingStartTime old_state)
    (match UnbindingMdibVersion old_state with
     | None => Some now
     | Some _ => BindingEndTime old_state
     end).

(** The inner loop: disassociate the states found for the descriptor. *)
Fixpoint disassociate (m : Mdib) (mgr : Transaction) (e : Env)
    (old_state_containers : list StateContainer) : Transaction * Env * result unit :=
  match old_state_containers with
  | [] => (mgr, e, Ok ())
  | old_state :: rest =>
      if bool_decide (needs_disassociation old_state) then
        match get_context_state m mgr (descriptorHandle old_state) (Handle old_state) with
        | Err ex => (mgr, e, Err ex)
        | Ok new_state =>
            match UnbindingMdibVersion new_state with
            | None =>
                let '(now, e1) := time_time e in
                disassociate m
                  (put_context_state mgr
                     (set_binding new_state (Handle new_state)
                        (Some pmtypes.DISASSOCIATED) (BindingMdibVersion new_state)
                        (Some (mdib_version m)) (BindingStartTime new_state) (Some now)))
                  e1 rest
            | Some _ =>
                disassociate m
                  (put_context_state mgr
                     (set_binding new_state (Handle new_state)
                        (Some pmtypes.DISASSOCIATED) (BindingMdibVersion new_state)
                        (UnbindingMdibVersion new_state) (BindingStartTime new_state)
                        (BindingEndTime new_state)))
                  e rest
            end
        end
      else disassociate m mgr e rest
  end.

(** The body of the loop over [proposed_context_states]. *)
Definition set_one_context_state (operation_instance : OperationDefinition) (m : Mdib)
    (mgr : Transaction) (e : Env) (proposed_st : StateContainer)
  : Transaction * Env * result unit :=
  let old_state_container :=
    if bool_decide (Some (descriptorHandle proposed_st) ≠ Handle proposed_st) then
      found ← get_one Handle (operation_target_storage operation_instance m)
                (Handle proposed_st) true;
      match found with
      | None =>
          Err (ValueError ("handle " +:+ show_handle (Handle proposed_st)
                           +:+ " not found"))
      | Some o => Ok (Some o)
      end
    else Ok None in
  match old_state_container with
  | Err ex => (mgr, e, Err ex)
  | Ok None =>
      let handle_string :=
        descriptorHandle proposed_st +:+ "_" +:+ str (mdib_version m) in
      let '(now, e1) := time_time e in
      let proposed_st1 :=
        set_binding proposed_st (Some handle_string) (Some pmtypes.ASSOCIATED)
          (Some (mdib_version m)) (UnbindingMdibVersion proposed_st)
          (Some now) (BindingEndTime proposed_st) in
      match add_state m mgr proposed_st1 with
      | Err ex => (mgr, e1, Err ex)
      | Ok mgr1 =>
          disassociate m mgr1 e1
            (get descriptorHandle (operation_target_storage operation_instance m)
               (descriptorHandle proposed_st1))
      end
  | Ok (Some _) =>
      match get_context_state m mgr (descriptorHandle proposed_st) (Handle proposed_st) with
      | Err ex => (mgr, e, Err ex)
      | Ok tmp =>
          (put_context_state mgr
             (update_from_other_container tmp proposed_st skipped_properties),
           e, Ok ())
      end
  end.

Fixpoint set_context_states (operation_instance : OperationDefinition) (m : Mdib)
    (mgr : Transaction) (e : Env) (proposed_context_states : list StateContainer)
  : Transaction * Env * result unit :=
  match proposed_context_states with
  | [] => (mgr, e, Ok ())
  | proposed_st :: rest =>
      match set_one_context_state operation_instance m mgr e proposed_st with
      | (mgr1, e1, Ok _) => set_context_states operation_instance m mgr1 e1 rest
      | failed => failed
      end
  end.

(** [GenericContextProvider._set_context_state]: the whole loop runs in one
    transaction, which is committed when the block is left without an
    exception. *)
Definition _set_context_state : Handler (list StateContainer) :=
  fun operation_instance proposed_context_states e =>
    match set_context_states operation_instance (the_mdib e) begin_transaction e
            proposed_context_states with
    | (mgr, e1, Ok _) =>
        (operation_instance, set_mdib_of e1 (commit (the_mdib e) mgr), Ok ())
    | (_, e1, Err ex) => (operation_instance, e1, Err ex)
    end.

(** The test at the head of the loop body: a proposed state whose Handle is
    its descriptor handle is a new one. *)
Definition is_new (proposed_st : StateContainer) : Prop :=
  Handle proposed_st = Some (descriptorHandle proposed_st).

Global Instance is_new_dec proposed_st : Decision (is_new proposed_st).
Proof. unfold is_new. apply _. Defined.

(** [f'{proposed_st.descriptorHandle}_{self._mdib.mdib_version}'] *)
Definition generated_handle (m : Mdib) (proposed_st : StateContainer) : string :=
  descriptorHandle proposed_st +:+ "_" +:+ str (mdib_version m).

(** The new state as the effect hands it to [mgr.add_state]. *)
Definition new_context_state (m : Mdib) (now : Time) (proposed_st : StateContainer)
  : StateContainer :=
  set_binding proposed_st (Some (generated_handle m proposed_st))
    (Some pmtypes.ASSOCIATED) (Some (mdib_version m))
    (UnbindingMdibVersion proposed_st) (Some now) (BindingEndTime proposed_st).

(** What the effect has made of a stored state [s] when [c] stands in its
    place: it is disassociated, with the unbinding version and the end of the
    binding set where [s] had no unbinding version, and kept where it had
    one. *)
Definition was_disassociated (m : Mdib) (s c : StateContainer) : Prop :=
  ContextAssociation c = Some pmtypes.DISASSOCIATED
  ∧ (UnbindingMdibVersion s = None →
     UnbindingMdibVersion c = Some (mdib_version m) ∧ is_Some (BindingEndTime c))
  ∧ (is_Some (UnbindingMdibVersion s) →
     UnbindingMdibVersion c = UnbindingMdibVersion s
     ∧ BindingEndTime c = BindingEndTime s).

(** The working copy that the transaction holds of a stored state, or the
    stored state when it holds none. *)
Definition view (mgr : Transaction) (s : StateContainer) : StateContainer :=
  match get Handle (context_state_updates mgr) (Handle s) with
  | c :: _ => c
  | [] => s
  end.

(** [c] has association, unbinding version and end of binding of [s]. *)
Definition same_binding (s c : StateContainer) : Prop :=
  ContextAssociation c = ContextAssociation s
  ∧ UnbindingMdibVersion c = UnbindingMdibVersion s
  ∧ BindingEndTime c = BindingEndTime s.

(** What holds of the transaction between two turns of the outer loop: the
    working copies are copies of stored states, one for a handle, each with
    the binding of its stored state or disassociated; the added states have
    handles of their own. *)
Record Inv (m : Mdib) (mgr : Transaction) : Prop := mkInv {
  inv_copies_nodup : NoDup (map Handle (context_state_updates mgr));
  inv_copies : ∀ c, c ∈ context_state_updates mgr →
                 ∃ s, s ∈ context_states m ∧ Handle c = Handle s
                      ∧ (same_binding s c ∨ was_disassociated m s c);
  inv_added : ∀ a, a ∈ added_states mgr → Handle a ∉ map Handle (context_states m);
  inv_added_nodup : NoDup (map Handle (added_states mgr))
}.

(** The transaction with [c] filed among the working copies. *)
Definition put (mgr : Transaction) (c : StateContainer) : Transaction :=
  mkTransaction (state_updates mgr) (store Handle c (context_state_updates mgr))
                (added_states mgr).

(** What a turn of the outer loop for [q], and what the loop over [l], keeps
    true of every stored state: a disassociated one stays so, the states of
    the descriptor of a new state are disassociated afterwards, and the
    working copies of the states that the turn is not about are left. *)
Definition turn_keeps (m : Mdib) (mgr mgr' : Transaction) (q : StateContainer) : Prop :=
  ∀ s, s ∈ context_states m →
    (was_disassociated m s (view mgr s) → was_disassociated m s (view mgr' s))
    ∧ (is_new q → descriptorHandle q = descriptorHandle s →
       was_disassociated m s (view mgr' s))
    ∧ ((¬ is_new q → Handle q ≠ Handle s) →
       (is_new q → descriptorHandle q = descriptorHandle s → ¬ needs_disassociation s) →
       get Handle (context_state_updates mgr') (Handle s)
       = get Handle (context_state_updates mgr) (Handle s)).

Definition run_keeps (m : Mdib) (mgr mgr' : Transaction) (l : list StateContainer)
  : Prop :=
  ∀ s, s ∈ context_states m →
    (was_disassociated m s (view mgr s) → was_disassociated m s (view mgr' s))
    ∧ (∀ p, p ∈ l → is_new p → descriptorHandle p = descriptorHandle s →
       was_disassociated m s (view mgr' s))
    ∧ ((∀ q, q ∈ l → ¬ is_new q → Handle q ≠ Handle s) →
       (∀ q, q ∈ l → is_new q → descriptorHandle q = descriptorHandle s →
             ¬ needs_disassociation s) →
       get Handle (context_state_updates mgr') (Handle s)
       = get Handle (context_state_updates mgr) (Handle s)).

(** The conditions under which the loop over [l] runs to its end: every
    proposed state that is not new names a stored state, and the generated
    handles of the new ones are neither in the store nor among the states
    added so far, nor twice in the request. *)
Definition accepted (m : Mdib) (mgr : Transaction) (l : list StateContainer) : Prop :=
  (∀ q, q ∈ l → ¬ is_new q → Handle q ∈ map Handle (context_states m))
  ∧ (∀ q, q ∈ l → is_new q →
       Some (generated_handle m q) ∉ map Handle (context_states m ++ added_states mgr))
  ∧ NoDup (map (generated_handle m) (filter is_new l)).

End contextprovider.

(** ** The device (sdcdevice/sdcdeviceimpl.py) *)

Module sdcdeviceimpl.
Import mdib sco.

(** What a caller hands to the registry as [operation]: an operation object
    or, as [SdcDevice.unregister_operation_by_handle] does, a handle, which
    is a [str]. *)
Inductive RegisterArgument : Type :=
| operation_object (operation : OperationRef)
| handle_string (operation_handle : string).

(** [ScoOperationsRegistry.register_operation] on either: its second
    statement reads [operation.handle], which a [str] does not have. *)
Definition registry_register_operation (d : Device) (operation : RegisterArgument)
    (sco_descriptor_container : option string) : Device * result unit :=
  match operation with
  | operation_object r => sco.register_operation d r sco_descriptor_container
  | handle_string _ => (d, Err (AttributeError "'str' object has no attribute 'handle'"))
  end.

(** The four methods of [SdcDevice] that pass on to the registry. *)
Definition register_operation (d : Device) (operation : OperationRef)
  : Device * result unit :=
  registry_register_operation d (operation_object operation) None.

Definition unregister_operation_by_handle (d : Device) (operation_handle : string)
  : Device * result unit :=
  registry_register_operation d (handle_string operation_handle) None.

Definition get_operation_by_handle (d : Device) (operation_handle : string)
  : option OperationRef :=
  sco.get_operation_by_handle d operation_handle.

Definition enqueue_operation (d : Device) (operation : OperationRef) (request : Request)
    (argument : PyObject) : Device * result Z :=
  sco.enqueue_operation d operation request argument.

(** *** Location and publishing

    [SdcDevice.set_location], [publish] and [get_xaddrs].  What the device
    asks of [self._wsdiscovery] and of [self._mdib] is recorded in [trace],
    in the order of the calls; these calls, and that of the scopes factory,
    are taken to return.  The methods pass locations and validators on and
    compare locations, no more: their classes are the parameters
    [SdcLocation] and [InstanceIdentifier], and [location_eq] is what
    [location == self._location] gives. *)
Inductive Call (SdcLocation InstanceIdentifier : Type) : Type :=
| clear_service (epr : string)
| mdib_set_location (location : SdcLocation) (validators : list InstanceIdentifier)
| publish_service (epr : string) (x_addrs : list string).
Arguments clear_service {SdcLocation InstanceIdentifier} epr.
Arguments mdib_set_location {SdcLocation InstanceIdentifier} location validators.
Arguments publish_service {SdcLocation InstanceIdentifier} epr x_addrs.

(** [_http_server_thread] is [None] until [_start_services]; then it has
    the attribute [my_port], which may be [None]. *)
Record SdcDevice (SdcLocation InstanceIdentifier : Type) : Type := mkSdcDevice {
  _location : option SdcLocation;
  _urlschema : string;
  _http_server_thread : option (option Z);
  epr : string;
  path_prefix : string;
  active_addresses : list string;
  trace : list (Call SdcLocation InstanceIdentifier)
}.
Arguments mkSdcDevice {SdcLocation InstanceIdentifier}.
Arguments _location {SdcLocation InstanceIdentifier} s.
Arguments _urlschema {SdcLocation InstanceIdentifier} s.
Arguments _http_server_thread {SdcLocation InstanceIdentifier} s.
Arguments epr {SdcLocation InstanceIdentifier} s.
Arguments path_prefix {SdcLocation InstanceIdentifier} s.
Arguments active_addresses {SdcLocation InstanceIdentifier} s.
Arguments trace {SdcLocation InstanceIdentifier} s.

Section location.

Context {SdcLocation InstanceIdentifier : Type}.
Variable location_eq : option SdcLocation -> option SdcLocation -> bool.

Definition record (d : SdcDevice SdcLocation InstanceIdentifier)
    (c : Call SdcLocation InstanceIdentifier) : SdcDevice SdcLocation InstanceIdentifier :=
  mkSdcDevice (_location d) (_urlschema d) (_http_server_thread d) (epr d)
              (path_prefix d) (active_addresses d) (trace d ++ [c]).

Definition set__location (d : SdcDevice SdcLocation InstanceIdentifier)
    (location : option SdcLocation) : SdcDevice SdcLocation InstanceIdentifier :=
  mkSdcDevice location (_urlschema d) (_http_server_thread d) (epr d)
              (path_prefix d) (active_addresses d) (trace d).

(** [get_xaddrs]: ['{}://{}:{}/{}'.format(...)] for every active address. *)
Definition get_xaddrs (d : SdcDevice SdcLocation InstanceIdentifier)
  : result (list string) :=
  match _http_server_thread d with
  | None => Err (AttributeError "'NoneType' object has no attribute 'my_port'")
  | Some port =>
      Ok (map (fun addr =>
                 _urlschema d +:+ "://" +:+ addr +:+ ":"
                 +:+ match port with Some p => str p | None => "None" end
                 +:+ "/" +:+ path_prefix d)
              (active_addresses d))
  end.

Definition publish (d : SdcDevice SdcLocation InstanceIdentifier)
  : SdcDevice SdcLocation InstanceIdentifier * result unit :=
  match get_xaddrs d with
  | Err ex => (d, Err ex)
  | Ok x_addrs => (record d (publish_service (epr d) x_addrs), Ok ())
  end.

Definition set_location (d : SdcDevice SdcLocation InstanceIdentifier)
    (location : option SdcLocation) (validators : list InstanceIdentifier)
    (publish_now : bool) : SdcDevice SdcLocation InstanceIdentifier * result unit :=
  if location_eq location (_location d) then (d, Ok ())
  else
    let d1 := match _location d with
              | Some _ => record d (clear_service (epr d))
              | None => d
              end in
    let d2 := set__location d1 location in
    match location with
    | None => (d2, Ok ())
    | Some l =>
        let d3 := record d2 (mdib_set_location l validators) in
        if publish_now then publish d3 else (d3, Ok ())
    end.

(** A sequence of [set_location] calls; a call that raises does not stop
    the caller from calling again. *)
Fixpoint set_locations (d : SdcDevice SdcLocation InstanceIdentifier)
    (requests : list (option SdcLocation * list InstanceIdentifier * bool))
  : SdcDevice SdcLocation InstanceIdentifier :=
  match requests with
  | [] => d
  | (location, validators, publish_now) :: rest =>
      set_locations (set_location d location validators publish_now).1 rest
  end.

(** In a list of calls, every [publish_service] but the first comes after a
    [clear_service] that follows the one before it.  [published] says
    whether a [publish_service] stands uncleared. *)
Fixpoint cleared_between (published : bool) (calls : list (Call SdcLocation InstanceIdentifier))
  : bool :=
  match calls with
  | [] => true
  | clear_service _ :: rest => cleared_between false rest
  | publish_service _ _ :: rest => negb published && cleared_between true rest
  | mdib_set_location _ _ :: rest => cleared_between published rest
  end.

(** Whether a [publish_service] stands uncleared at the end of [calls]. *)
Definition published_after (published : bool)
    (calls : list (Call SdcLocation InstanceIdentifier)) : bool :=
  foldl (fun published c =>
           match c with
           | clear_service _ => false
           | publish_service _ _ => true
           | mdib_set_location _ _ => published
           end) published calls.

End location.

End sdcdeviceimpl.

(** ** Concrete devices and entities, used to run the definitions *)

Module examples.
Import descriptorcontainers.

Definition mds : DescriptorContainer :=
  mkDescriptorContainer MdsDescriptorContainer "mds" None
    (mkProperties None None None None []
       [mkElement (domTag "Type") [] []; mkElement (extTag "Extension") [] []])
    [].
Definition vmd : DescriptorContainer :=
  new_container VmdDescriptorContainer "vmd" (Some "mds").
Definition clock : DescriptorContainer :=
  new_container ClockDescriptorContainer "clock" (Some "mds").
Definition channel : DescriptorContainer :=
  new_container ChannelDescriptorContainer "channel" (Some "vmd").
Definition numeric_metric : DescriptorContainer :=
  new_container NumericMetricDescriptorContainer "m1" (Some "channel").

Definition mds_vmd_clock : DescriptorContainer :=
  Eval vm_compute in
    match add_children mds [vmd; clock] with Ok p => p | Err _ => mds end.
Definition mds_clock_vmd : DescriptorContainer :=
  Eval vm_compute in
    match add_children mds [clock; vmd] with Ok p => p | Err _ => mds end.

Definition node_vmd_clock : Element :=
  Eval vm_compute in from_Ok (mk_descriptor_node mds_vmd_clock (domTag "Mds") true true).
Definition node_clock_vmd : Element :=
  Eval vm_compute in from_Ok (mk_descriptor_node mds_clock_vmd (domTag "Mds") true true).

(** A clock with a sub-element that its class does not declare. *)
Definition clock_with_stray_node : DescriptorContainer :=
  mkDescriptorContainer ClockDescriptorContainer "clock" (Some "mds")
    (mkProperties None None None None [] [mkElement (domTag "Unit") [] []]) [].

(** A device with a numeric metric ["M1"] of category SETTING, its state, a
    registered SetValue operation ["op1"] on it, and a started worker. *)
Import mdib sco.

Definition metric_M1 : DescriptorContainer :=
  mkDescriptorContainer NumericMetricDescriptorContainer "M1" (Some "channel")
    (mkProperties None None None (Some pmtypes.SETTING) [] []) [].

Definition state_M1 : StateContainer :=
  new_state (domTag "NumericMetricState") false "M1".

Definition the_clock (n : nat) : Time := (1000 + Z.of_nat n)%Z.

Definition empty_device : Device :=
  mkDevice (mkEnv (mkMdib [mds; new_container ScoDescriptorContainer "_sco" (Some "mds");
                            metric_M1]
                           [state_M1] [] 7 "urn:uuid:seq") the_clock 0)
           ∅ ∅ "_sco" None [].

Definition set_value_op1 : Operation :=
  mkOperation (new_operation _SetValueOperation "op1" "M1" None) [] [].

Definition device_registered : Device :=
  Eval vm_compute in
    fst (register_operation (set_object empty_device 0 set_value_op1) 0 None).

Definition device_running : Device :=
  Eval vm_compute in fst (start_worker device_registered).

Definition set_value_request : Request :=
  mkRequest ["op1"] (msgTag "SetValue") "<SetValue>42.0</SetValue>".

Definition unknown_handle_request : Request :=
  mkRequest ["nope"] (msgTag "SetValue") "<SetValue>42.0</SetValue>".

Definition wrong_tag_request : Request :=
  mkRequest ["op1"] (msgTag "SetString") "<SetString>abc</SetString>".

Definition forty_two : PyValue := PyFloat (QArith_base.Qmake 42 1).

(** An operation whose effect raises, registered as a second object, and an
    invocation of it in the queue. *)
Definition raising_handler : Handler PyObject :=
  fun op _ e => (op, e, Err (ValueError "target out of range")).

Definition failing_op2 : Operation :=
  mkOperation (new_operation _SetValueOperation "op2" "M1" None) [] [raising_handler].

Definition device_with_failing_invocation : Device :=
  Eval vm_compute in
    fst (enqueue_operation (set_object device_running 1 failing_op2) 1 set_value_request
           (OperationRequest (PyScalar forty_two))).

(** Context states of a patient context ["pc"] and a location context
    ["lc"], an operation on the patient context, and three proposed states:
    a new one, an update of ["pc_1"], and one with an unknown handle. *)
Definition context_state (descriptor_handle handle : string)
    (association : pmtypes.ContextAssociation) (binding unbinding : option Z)
    (binding_end : option Time) : StateContainer :=
  mkStateContainer (domTag "PatientContextState") true descriptor_handle (Some handle) 2
    None None (Some association) binding unbinding (Some 500%Z) binding_end
    [("Validator", "v1")].

Definition context_mdib : Mdib :=
  mkMdib [] []
    [ context_state "pc" "pc_1" pmtypes.ASSOCIATED (Some 3%Z) None None;
      context_state "pc" "pc_0" pmtypes.DISASSOCIATED (Some 1%Z) (Some 3%Z) (Some 900%Z);
      context_state "lc" "lc_1" pmtypes.ASSOCIATED (Some 2%Z) None None ]
    7 "urn:uuid:seq".

Definition context_env : Env := mkEnv context_mdib the_clock 0.

Definition set_context_op : OperationDefinition :=
  new_operation _SetContextStateOperation "opc" "pc" None.

Definition proposed_new : StateContainer :=
  mkStateContainer (domTag "PatientContextState") true "pc" (Some "pc") 0 None None
    None None None None None [("Validator", "v9")].

Definition proposed_update : StateContainer :=
  mkStateContainer (domTag "PatientContextState") true "pc" (Some "pc_1") 0 None None
    (Some pmtypes.NO_ASSOCIATION) (Some 99%Z) (Some 98%Z) (Some 97%Z) (Some 96%Z)
    [("Validator", "v9")].

Definition proposed_unknown : StateContainer :=
  mkStateContainer (domTag "PatientContextState") true "pc" (Some "nope") 0 None None
    None None None None None [].

Definition failing_op2_afterwards : Operation * Env :=
  Eval vm_compute in
    fst (execute_operation failing_op2 set_value_request
           (OperationRequest (PyScalar forty_two)) (env device_with_failing_invocation)).

Definition set_value_op1_registered : Operation :=
  Eval vm_compute in default set_value_op1 (objects device_running !! 0).

Definition set_value_op1_afterwards : Operation * Env :=
  Eval vm_compute in
    fst (execute_operation set_value_op1_registered set_value_request
           (OperationRequest (PyScalar forty_two)) (snd failing_op2_afterwards)).

Definition three_calls : list Event :=
  [ call_enqueue_operation 0 set_value_request (OperationRequest (PyScalar forty_two));
    call_enqueue_operation 0 set_value_request (PyScalar forty_two);
    worker_turn;
    call_enqueue_operation 0 set_value_request (OperationRequest (PyScalar PyNone)) ].

(** An Mds that was given the same Vmd twice. *)
Definition mds_vmd_vmd : DescriptorContainer :=
  Eval vm_compute in
    match add_children mds [vmd; vmd] with Ok p => p | Err _ => mds end.

(** The running device with ten invocations in the queue, which is then
    full, and its worker. *)
Definition device_full : Device :=
  Eval vm_compute in
    fst (play (repeat (call_enqueue_operation 0 set_value_request
                         (OperationRequest (PyScalar forty_two))) 10)
              device_running).

Definition full_worker : _OperationsWorker :=
  Eval vm_compute in default (mkWorker [] 0 false) (_worker device_full).

(** The running device with the stop marker in the queue and an invocation
    behind it. *)
Definition worker_stopping : _OperationsWorker :=
  mkWorker [ stop_sco;
             invocation 5 0 set_value_request (OperationRequest (PyScalar forty_two)) ]
           6 false.

Definition device_stopping : Device := set_worker device_running (Some worker_stopping).

(** The workers of two of the devices above. *)
Definition running_worker : _OperationsWorker :=
  Eval vm_compute in default (mkWorker [] 0 false) (_worker device_running).

Definition worker_with_failing_invocation : _OperationsWorker :=
  Eval vm_compute in
    default (mkWorker [] 0 false) (_worker device_with_failing_invocation).

(** The device with the failing invocation in the queue and, behind it, an
    invocation of the first operation; and its worker. *)
Definition device_two_queued : Device :=
  Eval vm_compute in
    fst (enqueue_operation device_with_failing_invocation 0 set_value_request
           (OperationRequest (PyScalar forty_two))).

Definition worker_two_queued : _OperationsWorker :=
  Eval vm_compute in default (mkWorker [] 0 false) (_worker device_two_queued).

(** A request without a handle reference, and [float] for the texts that
    the examples use. *)
Definition no_handle_request : Request :=
  mkRequest [] (msgTag "SetValue") "<SetValue/>".

Definition float_of_text (text : option string) : result Q :=
  match text with
  | Some "42.0" => Ok (QArith_base.Qmake 42 1)
  | Some _ => Err (ValueError "could not convert string to float")
  | None => Err (TypeError "float() argument must be a string or a real number")
  end.

(** A device that was not started, one whose http server runs, and three
    calls of [set_location]; locations and validators are kept as strings
    here, and two locations are equal when the strings are. *)
Definition same_location (a b : option string) : bool := bool_decide (a = b).

Definition sdc_device : sdcdeviceimpl.SdcDevice string string :=
  sdcdeviceimpl.mkSdcDevice None "https" None "urn:uuid:1234" "1234" ["192.168.0.2"] [].

Definition sdc_device_started : sdcdeviceimpl.SdcDevice string string :=
  sdcdeviceimpl.mkSdcDevice None "https" (Some (Some 8080%Z)) "urn:uuid:1234" "1234"
    ["192.168.0.2"] [].

Definition three_locations : list (option string * list string * bool) :=
  [ (Some "bed1", ["v1"], true); (Some "bed2", ["v1"], true); (None, [], false);
    (Some "bed2", [], false) ].

(** A coded value with a translation. *)
Definition heart_rate : pmtypes.CodedValue :=
  pmtypes.mkCodedValue (pmtypes.code_str "147842") None None
    (Some [pmtypes.mkTranslation (pmtypes.code_str "8867-4")
             (Some "urn:oid:2.16.840.1.113883.6.1") None]).

(** The state of ["M1"] with a metric value whose quality says invalid, as
    one read from a node may be, and the mdib of the running device with
    that state. *)
Definition state_M1_invalid : StateContainer :=
  providerbase.set_metricValue state_M1
    (Some (mkMetricValue (PyFloat (QArith_base.Qmake 1 1))
             (mkMetricQuality (Some pmtypes.INVALID) None None) None None)).

Definition env_with_invalid_value : Env :=
  mkEnv (mkMdib (descriptions (the_mdib (env device_running))) [state_M1_invalid] []
                7 "urn:uuid:seq")
        the_clock 0.

(** An operation whose handle the mdib does not know. *)
Definition unknown_op : OperationDefinition :=
  new_operation _SetValueOperation "opX" "M1" None.

End examples.

(** * Properties *)

(** ** Descriptor containers: children and materialization *)

Section descriptor_facts.
Import descriptorcontainers.

Lemma isMetricDescriptor_variants c :
  c ∈ AbstractMetricDescriptorContainer :: metric_variants
  ↔ isMetricDescriptor c = true.
Proof.
  split.
  - intros Hc. repeat (apply elem_of_cons in Hc as [->|Hc]; [reflexivity|]).
    by apply elem_of_nil in Hc.
  - destruct c; vm_compute; intros H; try discriminate H; set_solver.
Qed.

Lemma qnames_NoDup c : NoDup (qnames c).
Proof. destruct c; apply (bool_decide_unpack _); vm_compute; exact I. Qed.

Lemma StronglySorted_all {A} (R : relation A) (l : list A) :
  (∀ x y, x ∈ l → y ∈ l → R x y) → StronglySorted R l.
Proof.
  induction l as [|a l IH]; intros H; constructor.
  - apply IH. intros x y Hx Hy. apply H; by right.
  - apply Forall_forall. intros y Hy. apply H; [by left | by right].
Qed.

Lemma StronglySorted_weaken {A} (R R' : relation A) (l : list A) :
  (∀ x y, x ∈ l → y ∈ l → R x y → R' x y) →
  StronglySorted R l → StronglySorted R' l.
Proof.
  induction l as [|a l IH]; intros H Hs; [constructor|].
  apply StronglySorted_cons in Hs as [Hall Hs].
  constructor.
  - apply IH; [|done]. intros x y Hx Hy. apply H; by right.
  - rewrite Forall_forall in Hall |- *. intros y Hy.
    apply H; [by left | by right | by apply Hall].
Qed.

Lemma elem_of_regroup declared node n :
  n ∈ regroup declared node ↔ n ∈ node ∧ tag n ∈ declared.
Proof.
  unfold regroup. rewrite list_elem_of_In, in_flat_map. split.
  - intros (q & Hq & Hn). apply list_elem_of_In in Hn.
    apply list_elem_of_filter in Hn as [<- Hn].
    split; [done|]. by apply list_elem_of_In.
  - intros [Hn Hq]. exists (tag n). split; [by apply list_elem_of_In|].
    apply list_elem_of_In, list_elem_of_filter. by split.
Qed.

Lemma regroup_sorted declared node :
  NoDup declared →
  StronglySorted (fun a b => position (tag a) declared ≤ position (tag b) declared)
                 (regroup declared node).
Proof.
  induction declared as [|q qs IH]; intros Hnd; [constructor|].
  apply NoDup_cons in Hnd as [Hq Hnd].
  change (regroup (q :: qs) node)
    with (filter (fun n => tag n = q) node ++ regroup qs node).
  apply StronglySorted_app_2.
  - intros x1 x2 Hx1 _. apply list_elem_of_filter in Hx1 as [Hx1 _].
    simpl. rewrite decide_True by done. apply Nat.le_0_l.
  - apply StronglySorted_all. intros x y Hx Hy.
    apply list_elem_of_filter in Hx as [Hx _]. apply list_elem_of_filter in Hy as [Hy _].
    simpl. rewrite !decide_True by done. done.
  - eapply StronglySorted_weaken; [|by apply IH].
    intros x y Hx Hy Hxy. apply elem_of_regroup in Hx as [_ Hx].
    apply elem_of_regroup in Hy as [_ Hy]. simpl.
    rewrite !decide_False by (intros ->; done). by apply le_n_S.
Qed.

Lemma filter_disjoint_app {A} (P Q : A → Prop) `{∀ x, Decision (P x)}
    `{∀ x, Decision (Q x)} (l : list A) :
  (∀ x, P x → Q x → False) →
  filter P l ++ filter Q l ≡ₚ filter (fun x => P x ∨ Q x) l.
Proof.
  intros Hdis. induction l as [|a l IH]; [done|].
  rewrite !filter_cons.
  destruct (decide (P a)) as [HP|HP], (decide (Q a)) as [HQ|HQ].
  - destruct (Hdis a HP HQ).
  - rewrite decide_True by (by left). simpl. by rewrite IH.
  - rewrite decide_True by (by right). rewrite <- Permutation_middle. by rewrite IH.
  - rewrite decide_False by (intros [?|?]; done). done.
Qed.

Lemma regroup_filter declared node :
  NoDup declared →
  regroup declared node ≡ₚ filter (fun n => tag n ∈ declared) node.
Proof.
  induction declared as [|q qs IH]; intros Hnd.
  - simpl. induction node as [|a l IHl]; [done|].
    rewrite filter_cons, decide_False by (apply not_elem_of_nil). done.
  - apply NoDup_cons in Hnd as [Hq Hnd].
    change (regroup (q :: qs) node)
      with (filter (fun n => tag n = q) node ++ regroup qs node).
    rewrite IH by done. rewrite filter_disjoint_app.
    + erewrite list_filter_iff; [done|]. intros x. simpl. rewrite elem_of_cons. done.
    + intros x -> Hx. done.
Qed.

Lemma regroup_permutation declared node :
  NoDup declared → Forall (fun n => tag n ∈ declared) node →
  node ≡ₚ regroup declared node.
Proof.
  intros Hnd Hall. rewrite regroup_filter by done.
  induction Hall as [|a l Ha Hall IH]; [done|].
  rewrite filter_cons, decide_True by done. by constructor.
Qed.

Lemma tags_of_group q (l : list Element) :
  map tag (filter (fun n => tag n = q) l)
  = replicate (length (filter (fun n => tag n = q) l)) q.
Proof.
  induction l as [|a l IH]; [done|].
  rewrite filter_cons. destruct (decide (tag a = q)) as [Ha|Ha]; [|done].
  simpl. by rewrite IH, Ha.
Qed.

Lemma regroup_tags_permutation declared node1 node2 :
  node1 ≡ₚ node2 →
  map tag (regroup declared node1) = map tag (regroup declared node2).
Proof.
  intros Hp. induction declared as [|q qs IH]; [done|].
  change (regroup (q :: qs) ?n) with (filter (fun x => tag x = q) n ++ regroup qs n).
  rewrite !map_app, IH, !tags_of_group. by rewrite Hp.
Qed.

(** The children of one tag keep the order in which they were appended. *)
Lemma regroup_stable declared node q :
  NoDup declared → q ∈ declared →
  filter (fun n => tag n = q) (regroup declared node) = filter (fun n => tag n = q) node.
Proof.
  induction declared as [|p qs IH]; intros Hnd Hq; [by apply elem_of_nil in Hq|].
  apply NoDup_cons in Hnd as [Hp Hnd].
  change (regroup (p :: qs) node) with (filter (fun x => tag x = p) node ++ regroup qs node).
  rewrite filter_app, list_filter_filter.
  destruct (decide (p = q)) as [->|Hne].
  - assert (filter (fun n => tag n = q) (regroup qs node) = []) as ->.
    { destruct (filter _ (regroup qs node)) as [|x l] eqn:E; [done|].
      assert (x ∈ filter (fun n => tag n = q) (regroup qs node)) as Hx
        by (rewrite E; by left).
      apply list_elem_of_filter in Hx as [Hx1 Hx2].
      apply elem_of_regroup in Hx2 as [_ Hx2]. exfalso. apply Hp. by rewrite <- Hx1. }
    rewrite app_nil_r. apply list_filter_iff. intros y. tauto.
  - apply elem_of_cons in Hq as [->|Hq]; [done|].
    rewrite IH by done.
    assert (filter (fun x => tag x = q ∧ tag x = p) node = []) as ->; [|done].
    clear -Hne. induction node as [|a l IHl]; [done|].
    rewrite filter_cons, decide_False by (intros [? ?]; congruence). done.
Qed.

Lemma append_child_nodes_spec {A} (mk_child : A -> result Element) l acc r :
  append_child_nodes mk_child l acc = Ok r →
  ∃ nodes, r = acc ++ nodes ∧ map mk_child l = map Ok nodes.
Proof.
  revert acc. induction l as [|a l IH]; intros acc H; simpl in H.
  - exists []. split; [|done]. rewrite app_nil_r. congruence.
  - destruct (mk_child a) as [n|e] eqn:Ha; [|discriminate H]. simpl in H.
    apply IH in H as (nodes & -> & Hm). exists (n :: nodes).
    split; [by rewrite <- app_assoc|]. simpl. by rewrite Ha, Hm.
Qed.

Lemma append_children_by_type_spec {A} tag_for (mk_child : QName -> A -> result Element)
    items acc r :
  append_children_by_type tag_for mk_child items acc = Ok r →
  ∃ nodes, r = acc ++ nodes
           ∧ map (node_of tag_for mk_child) (flatten items) = map Ok nodes.
Proof.
  revert acc. induction items as [|[k l] items IH]; intros acc H; simpl in H.
  - exists []. split; [|done]. rewrite app_nil_r. congruence.
  - destruct (tag_for k) as [t|e] eqn:Hk; [|discriminate H]. simpl in H.
    destruct (append_child_nodes (mk_child t) l acc) as [acc'|e] eqn:Hl;
      [|discriminate H]. simpl in H.
    apply append_child_nodes_spec in Hl as (n1 & -> & Hm1).
    apply IH in H as (n2 & -> & Hm2). exists (n1 ++ n2).
    split; [by rewrite <- app_assoc|].
    unfold flatten in *. simpl. rewrite !map_app, Hm2. f_equal.
    rewrite <- Hm1, map_map. apply map_ext. intros a. unfold node_of. simpl.
    by rewrite Hk.
Qed.

Lemma append_children_by_type_unknown {A} tag_for
    (mk_child : QName -> A -> result Element) items acc :
  Exists (fun kv => is_Ok (tag_for (fst kv)) = false) items →
  is_Ok (append_children_by_type tag_for mk_child items acc) = false.
Proof.
  intros Hex. revert acc. induction Hex as [[k l] items Hk|[k l] items Hex IH];
    intros acc; simpl in *.
  - destruct (tag_for k); [discriminate Hk|done].
  - destruct (tag_for k) as [t|e]; [|done]. simpl.
    destruct (append_child_nodes (mk_child t) l acc); [|done]. simpl. apply IH.
Qed.

Lemma map_Ok_permutation (l1 l2 : list (result Element)) (n1 n2 : list Element) :
  l1 ≡ₚ l2 → l1 = map Ok n1 → l2 = map Ok n2 → n1 ≡ₚ n2.
Proof.
  intros Hp -> ->.
  assert (∀ n : list Element, map from_Ok (map Ok n) = n) as Hinv.
  { intros n. rewrite map_map. simpl. apply map_id. }
  rewrite <- (Hinv n1), <- (Hinv n2).
  change (from_Ok <$> map Ok n1 ≡ₚ from_Ok <$> map Ok n2). by rewrite Hp.
Qed.

Lemma flatten_dict_update {A} key (x : A) (d : list (option QName * list A)) :
  flatten (dict_update key (fun l => l ++ [x]) d) ≡ₚ flatten d ++ [(key, x)].
Proof.
  induction d as [|[k v] d IH]; [done|]. simpl.
  destruct (decide (k = key)) as [->|Hne]; unfold flatten in *; simpl.
  - rewrite map_app. simpl. rewrite <- !app_assoc. apply Permutation_app_head.
    apply Permutation_app_comm.
  - rewrite IH. by rewrite <- app_assoc.
Qed.

Lemma addChild_spec parent child parent' :
  addChild parent child = Ok parent' →
  cls parent' = cls parent ∧ properties parent' = properties parent
  ∧ Handle parent' = Handle parent
  ∧ flatten (_child_containers_by_type parent')
      ≡ₚ flatten (_child_containers_by_type parent) ++ [(NODETYPE (cls child), child)].
Proof.
  unfold addChild. destruct (isMetricDescriptor (cls parent)); [discriminate|].
  intros [= <-]. destruct parent as [c h p a k]. simpl.
  repeat split; try done. apply flatten_dict_update.
Qed.

Lemma add_children_spec parent children parent' :
  add_children parent children = Ok parent' →
  cls parent' = cls parent ∧ properties parent' = properties parent
  ∧ Handle parent' = Handle parent
  ∧ flatten (_child_containers_by_type parent')
      ≡ₚ flatten (_child_containers_by_type parent)
         ++ map (fun child => (NODETYPE (cls child), child)) children.
Proof.
  revert parent. induction children as [|child rest IH]; intros parent H; simpl in H.
  - injection H as <-. rewrite app_nil_r. done.
  - destruct (addChild parent child) as [p1|e] eqn:H1; [|discriminate H]. simpl in H.
    apply addChild_spec in H1 as (Hc & Hp & Hh & Hf).
    apply IH in H as (Hc' & Hp' & Hh' & Hf').
    repeat split; try congruence.
    rewrite Hf', Hf. simpl. by rewrite <- app_assoc.
Qed.

Lemma mk_descriptor_node_unfold d tag sx connect :
  mk_descriptor_node d tag sx connect =
    children ← (if connect then
                  append_children_by_type (_tag_name_for_child_descriptor (cls d))
                    (fun child_tag child => mk_descriptor_node child child_tag true true)
                    (_child_containers_by_type d) (property_nodes (properties d))
                else Ok (property_nodes (properties d)));
    _sort_child_nodes (cls d)
      (mkElement tag (("Handle", Handle d) :: property_attrib (properties d)) children).
Proof. by destruct d. Qed.

Lemma _sort_child_nodes_Ok c node sorted :
  _sort_child_nodes c node = Ok sorted →
  Forall (fun n => tag n ∈ qnames c) (subelements node)
  ∧ sorted = mkElement (tag node) (attrib node) (regroup (qnames c) (subelements node)).
Proof.
  unfold _sort_child_nodes. case_bool_decide as Hlen; [discriminate|].
  intros [= <-]. split; [|done].
  apply Forall_forall. intros n Hn. destruct (decide (tag n ∈ qnames c)) as [|Hnot]; [done|].
  exfalso. apply Hlen.
  assert (n ∈ filter (fun n => tag n ∉ qnames c) (subelements node)) as Hin
    by (by apply list_elem_of_filter).
  destruct (filter _ (subelements node)); [by apply elem_of_nil in Hin|simpl; lia].
Qed.

Lemma _sort_child_nodes_Err c node :
  Exists (fun n => tag n ∉ qnames c) (subelements node) →
  ∃ msg, _sort_child_nodes c node = Err (ValueError msg).
Proof.
  intros Hex. unfold _sort_child_nodes. rewrite bool_decide_true; [by eexists|].
  apply Exists_exists in Hex as (n & Hn & Hnot).
  assert (n ∈ filter (fun n => tag n ∉ qnames c) (subelements node)) as Hin
    by (by apply list_elem_of_filter).
  destruct (filter _ (subelements node)); [by apply elem_of_nil in Hin|simpl; lia].
Qed.

Lemma _sort_child_nodes_total c node :
  Forall (fun n => tag n ∈ qnames c) (subelements node) →
  _sort_child_nodes c node
  = Ok (mkElement (tag node) (attrib node) (regroup (qnames c) (subelements node))).
Proof.
  intros Hall. unfold _sort_child_nodes. rewrite bool_decide_false; [done|].
  assert (filter (fun n => tag n ∉ qnames c) (subelements node) = []) as ->; [|simpl; lia].
  induction Hall as [|a l Ha Hall IH]; [done|].
  rewrite filter_cons, decide_False by (intros Hnot; done). done.
Qed.

Lemma materialized_children d tag sx connect node :
  mk_descriptor_node d tag sx connect = Ok node →
  ∃ child_nodes,
    subelements node
      = regroup (qnames (cls d)) (property_nodes (properties d) ++ child_nodes)
    ∧ Forall (fun n => descriptorcontainers.tag n ∈ qnames (cls d))
             (property_nodes (properties d) ++ child_nodes)
    ∧ (if connect then
         map (node_of (_tag_name_for_child_descriptor (cls d))
                (fun child_tag child => mk_descriptor_node child child_tag true true))
             (flatten (_child_containers_by_type d)) = map Ok child_nodes
       else child_nodes = []).
Proof.
  rewrite mk_descriptor_node_unfold. intros H.
  destruct connect.
  - destruct (append_children_by_type _ _ _ _) as [children|e] eqn:Hc; [|discriminate H].
    cbn [mbind result_bind] in H.
    apply append_children_by_type_spec in Hc as (nodes & -> & Hm).
    apply _sort_child_nodes_Ok in H as [Hall ->]. by exists nodes.
  - cbn [mbind result_bind] in H.
    apply _sort_child_nodes_Ok in H as [Hall ->]. exists []. by rewrite app_nil_r.
Qed.

(** C7.  Materializing a descriptor container ([mk_descriptor_node]) gives
    a node whose children stand in the order of the declared child tags of
    the container's class and are exactly the property nodes and the nodes
    of the child containers, none dropped or added; the tags of the result
    are the same for every order in which the same children were added
    with [addChild]; and a child node whose tag is not declared, or a child
    container whose node type no declared group lists, makes the
    materialization fail ([_sort_child_nodes] raises a ValueError). *)
Theorem mk_descriptor_node_declared_order
    (d : DescriptorContainer) (tag : QName) (setXsiType connect : bool) :
  (∀ node, mk_descriptor_node d tag setXsiType connect = Ok node →
     StronglySorted (in_declared_order (cls d)) (subelements node)
     ∧ ∃ child_nodes,
         property_nodes (properties d) ++ child_nodes ≡ₚ subelements node
         ∧ length child_nodes
           = if connect then length (flatten (_child_containers_by_type d)) else 0)
  ∧ (∀ children1 children2 p1 p2 n1 n2,
       children1 ≡ₚ children2 →
       add_children d children1 = Ok p1 →
       add_children d children2 = Ok p2 →
       mk_descriptor_node p1 tag setXsiType true = Ok n1 →
       mk_descriptor_node p2 tag setXsiType true = Ok n2 →
       map descriptorcontainers.tag (subelements n1)
       = map descriptorcontainers.tag (subelements n2))
  ∧ (∀ node,
       Exists (fun n => descriptorcontainers.tag n ∉ qnames (cls d)) (subelements node) →
       ∃ msg, _sort_child_nodes (cls d) node = Err (ValueError msg))
  ∧ (Exists (fun n => descriptorcontainers.tag n ∉ qnames (cls d))
            (property_nodes (properties d)) →
     is_Ok (mk_descriptor_node d tag setXsiType connect) = false)
  ∧ (Exists (fun kv => is_Ok (_tag_name_for_child_descriptor (cls d) (fst kv)) = false)
            (_child_containers_by_type d) →
     is_Ok (mk_descriptor_node d tag setXsiType true) = false).
Proof.
  repeat split.
  - apply materialized_children in H as (child_nodes & -> & _ & _).
    apply regroup_sorted, qnames_NoDup.
  - apply materialized_children in H as (child_nodes & -> & Hall & Hm).
    exists child_nodes. split.
    + apply regroup_permutation; [apply qnames_NoDup|done].
    + destruct connect; [|by subst].
      apply (f_equal length) in Hm. by rewrite !length_map in Hm.
  - intros children1 children2 p1 p2 n1 n2 Hp H1 H2 Hn1 Hn2.
    apply add_children_spec in H1 as (Hc1 & Hp1 & _ & Hf1).
    apply add_children_spec in H2 as (Hc2 & Hp2 & _ & Hf2).
    apply materialized_children in Hn1 as (nodes1 & -> & _ & Hm1).
    apply materialized_children in Hn2 as (nodes2 & -> & _ & Hm2).
    rewrite Hc1, Hc2, Hp1, Hp2 in *.
    apply regroup_tags_permutation, Permutation_app_head.
    eapply map_Ok_permutation; [|exact Hm1|exact Hm2].
    change (node_of (_tag_name_for_child_descriptor (cls d))
              (fun child_tag child => mk_descriptor_node child child_tag true true)
              <$> flatten (_child_containers_by_type p1)
            ≡ₚ node_of (_tag_name_for_child_descriptor (cls d))
                 (fun child_tag child => mk_descriptor_node child child_tag true true)
                 <$> flatten (_child_containers_by_type p2)).
    apply fmap_Permutation. rewrite Hf1, Hf2. apply Permutation_app_head.
    change (map ?f children1 ≡ₚ map ?f children2)
      with (f <$> children1 ≡ₚ f <$> children2).
    by apply fmap_Permutation.
  - intros node. apply _sort_child_nodes_Err.
  - intros Hex. rewrite mk_descriptor_node_unfold.
    destruct connect.
    + destruct (append_children_by_type _ _ _ _) as [children|e] eqn:Hc; [|done].
      apply append_children_by_type_spec in Hc as (nodes & -> & _).
      cbn [mbind result_bind].
      edestruct (_sort_child_nodes_Err (cls d)) as [msg ->]; [|done].
      cbn [subelements]. apply Exists_app. by left.
    + cbn [mbind result_bind].
      edestruct (_sort_child_nodes_Err (cls d)) as [msg ->]; [|done]. done.
  - intros Hex. rewrite mk_descriptor_node_unfold.
    pose proof (append_children_by_type_unknown
                  (_tag_name_for_child_descriptor (cls d))
                  (fun child_tag child => mk_descriptor_node child child_tag true true)
                  (_child_containers_by_type d) (property_nodes (properties d)) Hex) as Hu.
    destruct (append_children_by_type _ _ _ _); [discriminate Hu|done].
Qed.

Lemma dict_get_update {V} key (f : list V → list V) (d : list (option QName * list V)) :
  dict_get key (dict_update key f d) = Some (f (default [] (dict_get key d))).
Proof.
  induction d as [|[k v] d IH]; simpl.
  - destruct (decide (key = key)); done.
  - destruct (decide (k = key)) as [->|Hne]; simpl.
    + destruct (decide (key = key)); done.
    + destruct (decide (k = key)); done.
Qed.

Lemma dict_update_keeps {V} key (f : list V → list V) (d : list (option QName * list V)) k :
  k ∈ map fst d → k ∈ map fst (dict_update key f d).
Proof.
  induction d as [|[k0 v] d IH]; simpl; [by intros ?%elem_of_nil|].
  intros Hk. destruct (decide (k0 = key)); simpl; [done|].
  apply elem_of_cons in Hk as [->|Hk]; [by left|right; by apply IH].
Qed.

Lemma dict_update_has_key {V} key (f : list V → list V) (d : list (option QName * list V)) :
  key ∈ map fst (dict_update key f d).
Proof.
  induction d as [|[k0 v] d IH]; simpl; [by left|].
  destruct (decide (k0 = key)) as [->|]; simpl; [by left|by right].
Qed.

(** C5, as the code has it.  [addChild] does not look at the declared child
    groups of the parent: on a metric descriptor, [addChild] and [rmChild]
    raise ValueError('Metric can not have children'); on every other
    descriptor [addChild] succeeds and files the child under the child's
    node type, and a child that no declared group of the parent lists is
    turned down only when the parent is materialized with its children. *)
Theorem addChild_rmChild_metric_leaves (self child : DescriptorContainer) :
  (cls self ∈ metric_variants →
     addChild self child = Err (ValueError "Metric can not have children")
     ∧ rmChild self child = Err (ValueError "Metric can not have children"))
  ∧ (isMetricDescriptor (cls self) = false →
     ∃ self',
       addChild self child = Ok self'
       ∧ dict_get (NODETYPE (cls child)) (_child_containers_by_type self')
         = Some (default [] (dict_get (NODETYPE (cls child))
                               (_child_containers_by_type self)) ++ [child])
       ∧ (is_Ok (_tag_name_for_child_descriptor (cls self) (NODETYPE (cls child)))
          = false →
          ∀ tag setXsiType,
            is_Ok (mk_descriptor_node self' tag setXsiType true) = false)).
Proof.
  split.
  - intros Hm. assert (isMetricDescriptor (cls self) = true) as Hmetric.
    { apply isMetricDescriptor_variants. by right. }
    unfold addChild, rmChild. by rewrite Hmetric.
  - intros Hn. unfold addChild. rewrite Hn. eexists. split; [done|].
    split.
    + destruct self as [c h p a k]. simpl.
      apply (dict_get_update _ (fun l => l ++ [child])).
    + intros Hunknown tag sx. rewrite mk_descriptor_node_unfold.
      assert (cls (set_child_containers self
                     (dict_update (NODETYPE (cls child)) (fun l => l ++ [child])
                        (_child_containers_by_type self))) = cls self) as ->
        by (by destruct self).
      pose proof (append_children_by_type_unknown
                    (_tag_name_for_child_descriptor (cls self))
                    (fun child_tag child => mk_descriptor_node child child_tag true true)
                    (_child_containers_by_type
                       (set_child_containers self
                          (dict_update (NODETYPE (cls child)) (fun l => l ++ [child])
                             (_child_containers_by_type self))))
                    (property_nodes
                       (properties
                          (set_child_containers self
                             (dict_update (NODETYPE (cls child)) (fun l => l ++ [child])
                                (_child_containers_by_type self)))))) as Hu.
      destruct (append_children_by_type _ _ _ _); [|done].
      discriminate Hu. apply Exists_exists.
      pose proof (dict_update_has_key (NODETYPE (cls child)) (fun l => l ++ [child])
                    (_child_containers_by_type self)) as Hkey.
      apply list_elem_of_fmap in Hkey as (kv & Hkv & Hin).
      exists kv. split; [by destruct self|]. by rewrite <- Hkv.
Qed.

(** C5, the claim as written fails: a clock descriptor declares no child
    group for a channel descriptor, and [addChild] files the channel all
    the same. *)
Lemma addChild_takes_undeclared_child :
  ¬ (∀ parent child : DescriptorContainer,
       is_Ok (_tag_name_for_child_descriptor (cls parent) (NODETYPE (cls child))) = false →
       is_Ok (addChild parent child) = false).
Proof.
  intros H.
  specialize (H (new_container ClockDescriptorContainer "clock" (Some "mds"))
                (new_container ChannelDescriptorContainer "channel" (Some "clock"))).
  discriminate H. reflexivity.
Qed.

Lemma addChild_rmChild_metric_leaves_witness :
  (addChild (new_container NumericMetricDescriptorContainer "m1" (Some "ch"))
            (new_container ChannelDescriptorContainer "c" (Some "m1"))
   = Err (ValueError "Metric can not have children")
   ∧ rmChild (new_container NumericMetricDescriptorContainer "m1" (Some "ch"))
             (new_container ChannelDescriptorContainer "c" (Some "m1"))
     = Err (ValueError "Metric can not have children"))
  ∧ ∃ self',
      addChild (new_container ClockDescriptorContainer "clock" (Some "mds"))
               (new_container ChannelDescriptorContainer "channel" (Some "clock"))
      = Ok self'
      ∧ ∀ tag setXsiType, is_Ok (mk_descriptor_node self' tag setXsiType true) = false.
Proof.
  split.
  - apply (proj1 (addChild_rmChild_metric_leaves
                    (new_container NumericMetricDescriptorContainer "m1" (Some "ch"))
                    (new_container ChannelDescriptorContainer "c" (Some "m1")))).
    vm_compute. set_solver.
  - destruct (proj2 (addChild_rmChild_metric_leaves
                       (new_container ClockDescriptorContainer "clock" (Some "mds"))
                       (new_container ChannelDescriptorContainer "channel" (Some "clock")))
                eq_refl) as (self' & Hadd & _ & Hmk).
    exists self'. split; [exact Hadd|]. apply Hmk. reflexivity.
Defined.
Lemma mk_descriptor_node_declared_order_witness :
  (StronglySorted (in_declared_order MdsDescriptorContainer)
                  (subelements examples.node_vmd_clock)
   ∧ map descriptorcontainers.tag (subelements examples.node_vmd_clock)
     = [extTag "Extension"; domTag "Type"; domTag "Clock"; domTag "Vmd"])
  ∧ map descriptorcontainers.tag (subelements examples.node_vmd_clock)
    = map descriptorcontainers.tag (subelements examples.node_clock_vmd)
  ∧ is_Ok (mk_descriptor_node examples.clock_with_stray_node (domTag "Clock") true false)
    = false.
Proof.
  split; [split|split].
  - apply (proj1 (mk_descriptor_node_declared_order
                    examples.mds_vmd_clock (domTag "Mds") true true)).
    reflexivity.
  - reflexivity.
  - apply (proj1 (proj2 (mk_descriptor_node_declared_order
                           examples.mds (domTag "Mds") true true))
             [examples.vmd; examples.clock] [examples.clock; examples.vmd]
             examples.mds_vmd_clock examples.mds_clock_vmd);
      [apply perm_swap|reflexivity|reflexivity|reflexivity|reflexivity].
  - apply (proj1 (proj2 (proj2 (proj2 (mk_descriptor_node_declared_order
                           examples.clock_with_stray_node (domTag "Clock") true false))))).
    apply Exists_cons_hd. apply (bool_decide_unpack _). vm_compute. exact I.
Defined.
End descriptor_facts.


(** ** The operations worker *)

Section worker_facts.
Import mdib sco.

Lemma worker_step_stop d w rest :
  _worker d = Some w → terminated w = false →
  _operations_queue w = stop_sco :: rest →
  worker_step d = Some (set_worker d (Some (mkWorker rest (_transaction_id w) true))).
Proof. intros Hw Ht Hq. unfold worker_step. by rewrite Hw, Ht, Hq. Qed.

(** What the worker does with one dequeued invocation whose
    [operation_request] has the attribute [argument]: WAIT, START, the
    effect, and FINISHED or FAILED. *)
Lemma worker_step_invocation d w tr_id operation request operation_request rest o
    argument :
  _worker d = Some w → terminated w = false →
  _operations_queue w = invocation tr_id operation request operation_request :: rest →
  objects d !! operation = Some o →
  getattr_argument operation_request = Ok argument →
  ∃ d1 o' e' r,
    worker_step d = Some d1
    ∧ execute_operation o request operation_request (env d) = (o', e', r)
    ∧ env d1 = e'
    ∧ objects d1 = <[operation := o']> (objects d)
    ∧ _registered_operations d1 = _registered_operations d
    ∧ _worker d1 = Some (mkWorker rest (_transaction_id w) false)
    ∧ notifications d1
      = notifications d
        ++ [ mkNotification operation tr_id pmtypes.WAIT
               (mdib_version (the_mdib (env d))) (sequence_id (the_mdib (env d)))
               None None;
             mkNotification operation tr_id pmtypes.START
               (mdib_version (the_mdib (env d))) (sequence_id (the_mdib (env d)))
               None None;
             match r with
             | Ok _ =>
                 mkNotification operation tr_id pmtypes.FINISHED
                   (mdib_version (the_mdib e')) (sequence_id (the_mdib e')) None None
             | Err ex =>
                 mkNotification operation tr_id pmtypes.FAILED
                   (mdib_version (the_mdib e')) (sequence_id (the_mdib e'))
                   (Some "Oth") (Some (repr ex))
             end ].
Proof.
  intros Hw Ht Hq Ho Ha. unfold worker_step. rewrite Hw, Ht, Hq.
  unfold handle_item. cbn [objects set_worker]. rewrite Ho, Ha.
  cbn [env notify_operation set_worker].
  destruct (execute_operation o request operation_request (env d)) as [[o' e'] r] eqn:He.
  destruct r as [[]|ex]; eexists _, o', e', _; (split; [reflexivity|]);
    (split; [reflexivity|]); cbn; rewrite <- ?app_assoc; done.
Qed.

(** An invocation whose [operation_request] has no attribute [argument] is
    dropped at the first log line: the worker goes on, nothing is notified,
    the effect does not run. *)
Lemma worker_step_without_argument d w tr_id operation request operation_request rest o ex :
  _worker d = Some w → terminated w = false →
  _operations_queue w = invocation tr_id operation request operation_request :: rest →
  objects d !! operation = Some o →
  getattr_argument operation_request = Err ex →
  worker_step d = Some (set_worker d (Some (mkWorker rest (_transaction_id w) false))).
Proof.
  intros Hw Ht Hq Ho Ha. unfold worker_step. rewrite Hw, Ht, Hq.
  unfold handle_item. cbn [objects set_worker]. by rewrite Ho, Ha.
Qed.

(** C1, at the failing input.  The Set service enqueues the parsed argument
    of a SetValue request, the float 42.0, as [operation_request]; the
    request is accepted (WAIT, transaction id 1) and queued, the worker
    dequeues it, and then no notification at all is emitted: reading
    [operation_request.argument] for the log line raises before the WAIT
    notification. *)
Theorem set_value_request_is_dequeued_without_notifications :
  ∃ d1 response d2,
    sdcservicesimpl._handle_operation_request examples.device_running
      examples.set_value_request "SetValueResponse" (PyScalar examples.forty_two)
    = (d1, Ok response)
    ∧ sdcservicesimpl.InvocationState response = pmtypes.WAIT
    ∧ sdcservicesimpl.TransactionId response = "1"
    ∧ (_operations_queue <$> _worker d1)
      = Some [invocation 1 0 examples.set_value_request (PyScalar examples.forty_two)]
    ∧ worker_step d1 = Some d2
    ∧ (_operations_queue <$> _worker d2) = Some []
    ∧ (terminated <$> _worker d2) = Some false
    ∧ notifications d2 = [].
Proof. do 3 eexists. repeat split; vm_compute; reflexivity. Qed.

(** C2.  When the worker runs the effect of a dequeued invocation and the
    effect raises [ex], the notifications for it are WAIT, START and FAILED,
    the last with error 'Oth' and the message [repr(ex)]; the thread keeps
    running with the rest of the queue, and an operation enqueued afterwards
    gets the next transaction id, is dequeued and, its effect returning,
    is reported WAIT, START, FINISHED. *)
Theorem failing_effect_is_reported_and_isolated
    d w tr_id operation request operation_request rest o argument o' e' ex :
  _worker d = Some w → terminated w = false →
  _operations_queue w = invocation tr_id operation request operation_request :: rest →
  objects d !! operation = Some o →
  getattr_argument operation_request = Ok argument →
  execute_operation o request operation_request (env d) = (o', e', Err ex) →
  ∃ d1,
    worker_step d = Some d1
    ∧ notifications d1
      = notifications d
        ++ [ mkNotification operation tr_id pmtypes.WAIT
               (mdib_version (the_mdib (env d))) (sequence_id (the_mdib (env d)))
               None None;
             mkNotification operation tr_id pmtypes.START
               (mdib_version (the_mdib (env d))) (sequence_id (the_mdib (env d)))
               None None;
             mkNotification operation tr_id pmtypes.FAILED
               (mdib_version (the_mdib e')) (sequence_id (the_mdib e'))
               (Some (pmtypes.InvocationError_value pmtypes.OTHER)) (Some (repr ex)) ]
    ∧ _worker d1 = Some (mkWorker rest (_transaction_id w) false)
    ∧ ∀ operation2 request2 argument2 o2 o2' e2',
        rest = [] →
        objects d1 !! operation2 = Some o2 →
        execute_operation o2 request2 (OperationRequest argument2) (env d1)
        = (o2', e2', Ok ()) →
        ∃ d2 d3,
          enqueue_operation d1 operation2 request2 (OperationRequest argument2)
          = (d2, Ok (_transaction_id w))
          ∧ worker_step d2 = Some d3
          ∧ notifications d3
            = notifications d1
              ++ [ mkNotification operation2 (_transaction_id w) pmtypes.WAIT
                     (mdib_version (the_mdib (env d1))) (sequence_id (the_mdib (env d1)))
                     None None;
                   mkNotification operation2 (_transaction_id w) pmtypes.START
                     (mdib_version (the_mdib (env d1))) (sequence_id (the_mdib (env d1)))
                     None None;
                   mkNotification operation2 (_transaction_id w) pmtypes.FINISHED
                     (mdib_version (the_mdib e2')) (sequence_id (the_mdib e2'))
                     None None ].
Proof.
  intros Hw Ht Hq Ho Ha He.
  destruct (worker_step_invocation d w tr_id operation request operation_request rest o
              argument Hw Ht Hq Ho Ha)
    as (d1 & o1 & e1 & r & Hstep & He1 & Henv & Hobj & Hreg & Hw1 & Hn).
  rewrite He in He1. injection He1 as <- <- <-.
  exists d1. repeat split; [done|done|done|].
  intros operation2 request2 argument2 o2 o2' e2' -> Ho2 He2.
  set (w2 := mkWorker [invocation (_transaction_id w) operation2 request2
                         (OperationRequest argument2)]
                      (_transaction_id w + 1) false).
  destruct (worker_step_invocation (set_worker d1 (Some w2)) w2 (_transaction_id w)
              operation2 request2 (OperationRequest argument2) [] o2 argument2)
    as (d3 & o3 & e3 & r3 & Hstep3 & He3 & _ & _ & _ & _ & Hn3); try done.
  cbn [env set_worker] in He3. rewrite He2 in He3. injection He3 as <- <- <-.
  exists (set_worker d1 (Some w2)), d3. split; [|split; [exact Hstep3|exact Hn3]].
  unfold enqueue_operation. rewrite Hw1. reflexivity.
Qed.

Lemma worker_step_keeps_transaction_id d d' w :
  _worker d = Some w → worker_step d = Some d' →
  ∃ w', _worker d' = Some w' ∧ _transaction_id w' = _transaction_id w.
Proof.
  intros Hw. unfold worker_step. rewrite Hw.
  destruct (terminated w); [discriminate|].
  destruct (_operations_queue w) as [|item rest]; [discriminate|].
  destruct item as [|tr_id operation request operation_request].
  - intros [= <-]. by eexists.
  - intros [= <-]. unfold handle_item. cbn [objects set_worker].
    destruct (objects d !! operation) as [o|]; [|by eexists].
    destruct (getattr_argument operation_request); [|by eexists].
    cbn [env notify_operation set_worker].
    destruct (execute_operation _ _ _ _) as [[o' e'] [[]|ex]]; by eexists.
Qed.

Lemma enqueue_operation_spec d w operation request operation_request d' r :
  _worker d = Some w →
  enqueue_operation d operation request operation_request = (d', r) →
  (∃ w', _worker d' = Some w'
         ∧ _transaction_id w' = (_transaction_id w + 1)%Z
         ∧ ∀ transaction_id, r = Ok transaction_id →
             transaction_id = _transaction_id w
             ∧ _operations_queue w'
               = _operations_queue w
                 ++ [invocation transaction_id operation request operation_request])
  ∧ notifications d' = notifications d
  ∧ objects d' = objects d
  ∧ env d' = env d.
Proof.
  intros Hw. unfold enqueue_operation, worker_enqueue_operation. rewrite Hw.
  cbn [_operations_queue _transaction_id terminated].
  case_bool_decide; intros [= <- <-]; (split; [|done]); eexists; (split; [done|]);
    (split; [done|]); intros tid [= <-]; done.
Qed.

Lemma play_ids events : ∀ d w,
  _worker d = Some w →
  Forall (fun i => (_transaction_id w ≤ i)%Z) (snd (play events d))
  ∧ StronglySorted Z.lt (snd (play events d)).
Proof.
  induction events as [|ev events IH]; intros d w Hw; [by split; constructor|].
  destruct ev as [operation request operation_request|]; simpl.
  - destruct (enqueue_operation d operation request operation_request) as [d' r] eqn:He.
    destruct (enqueue_operation_spec _ _ _ _ _ _ _ Hw He)
      as ((w' & Hw' & Hid & Hr) & _).
    destruct (IH d' w' Hw') as [Hall Hs]. rewrite Hid in Hall.
    destruct r as [tid|ex].
    + destruct (Hr tid eq_refl) as [-> _].
      destruct (play events d') as [d'' ids]. simpl in *. split.
      * constructor; [lia|]. eapply Forall_impl; [exact Hall|]. simpl. lia.
      * constructor; [done|]. eapply Forall_impl; [exact Hall|]. simpl. lia.
    + split; [|done]. eapply Forall_impl; [exact Hall|]. simpl. lia.
  - destruct (worker_step d) as [d'|] eqn:Hs; simpl; [|by apply IH].
    destruct (worker_step_keeps_transaction_id _ _ _ Hw Hs) as (w' & Hw' & <-).
    by apply IH.
Qed.

Lemma StronglySorted_lt_NoDup (l : list Z) : StronglySorted Z.lt l → NoDup l.
Proof.
  induction 1 as [|x l Hs IH Hall]; constructor; [|done].
  intros Hx. rewrite Forall_forall in Hall. specialize (Hall x Hx). lia.
Qed.

Lemma play_first_id events : ∀ d w,
  _worker d = Some w → _operations_queue w = [] →
  hd_error (snd (play events d))
  = if existsb is_call events then Some (_transaction_id w) else None.
Proof.
  induction events as [|ev events IH]; intros d w Hw Hq; [done|].
  destruct ev as [operation request operation_request|]; simpl.
  - unfold enqueue_operation, worker_enqueue_operation. rewrite Hw.
    cbn [_operations_queue _transaction_id terminated]. rewrite Hq.
    rewrite bool_decide_false by (unfold maxsize; simpl; lia).
    destruct (play events _) as [d'' ids]. done.
  - assert (worker_step d = None) as ->; [|by apply (IH d w)].
    unfold worker_step. rewrite Hw, Hq. by destruct (terminated w).
Qed.

(** C3.  For every interleaving of calls to [enqueue_operation] with turns
    of the worker on a device whose worker was just created, the transaction
    ids that the calls return are strictly increasing in the order of the
    calls, pairwise different, and the first one is 1.  The id is taken and
    the counter advanced in one step (the locked region); the id a call
    returns is the one in the tuple it has put into the queue, and the call
    itself executes nothing: objects, mdib and notifications are as before. *)
Theorem transaction_ids_strictly_increasing (events : list Event) (d : Device) :
  _worker d = Some new_worker →
  StronglySorted Z.lt (snd (play events d))
  ∧ NoDup (snd (play events d))
  ∧ hd_error (snd (play events d)) = (if existsb is_call events then Some 1%Z else None)
  ∧ ∀ d0 w operation request operation_request d0' transaction_id,
      _worker d0 = Some w →
      enqueue_operation d0 operation request operation_request = (d0', Ok transaction_id) →
      transaction_id = _transaction_id w
      ∧ (∃ w', _worker d0' = Some w'
               ∧ _transaction_id w' = (transaction_id + 1)%Z
               ∧ _operations_queue w'
                 = _operations_queue w
                   ++ [invocation transaction_id operation request operation_request])
      ∧ notifications d0' = notifications d0
      ∧ objects d0' = objects d0
      ∧ env d0' = env d0.
Proof.
  intros Hw. destruct (play_ids events d new_worker Hw) as [_ Hs].
  split; [done|]. split; [by apply StronglySorted_lt_NoDup|].
  split; [by apply (play_first_id events d new_worker)|].
  intros d0 w operation request operation_request d0' tid Hw0 He.
  destruct (enqueue_operation_spec _ _ _ _ _ _ _ Hw0 He)
    as ((w' & Hw' & Hid & Hr) & Hn & Ho & Henv).
  destruct (Hr tid eq_refl) as [-> Hq].
  split; [done|]. split; [by exists w'|done].
Qed.

Lemma failing_effect_is_reported_and_isolated_witness :
  ∃ d1,
    worker_step examples.device_with_failing_invocation = Some d1
    ∧ map n_invocation_state (notifications d1)
      = [pmtypes.WAIT; pmtypes.START; pmtypes.FAILED]
    ∧ map n_error_message (notifications d1)
      = [None; None; Some "ValueError('target out of range')"]
    ∧ ∃ d2 d3,
        enqueue_operation d1 0 examples.set_value_request
          (OperationRequest (PyScalar examples.forty_two)) = (d2, Ok 2%Z)
        ∧ worker_step d2 = Some d3
        ∧ map n_invocation_state (notifications d3)
          = [pmtypes.WAIT; pmtypes.START; pmtypes.FAILED;
             pmtypes.WAIT; pmtypes.START; pmtypes.FINISHED].
Proof.
  destruct (failing_effect_is_reported_and_isolated
              examples.device_with_failing_invocation
              (mkWorker [invocation 1 1 examples.set_value_request
                           (OperationRequest (PyScalar examples.forty_two))] 2 false)
              1%Z 1 examples.set_value_request
              (OperationRequest (PyScalar examples.forty_two)) []
              examples.failing_op2 (PyScalar examples.forty_two)
              (fst examples.failing_op2_afterwards) (snd examples.failing_op2_afterwards)
              (ValueError "target out of range"))
    as (d1 & Hstep & Hn & Hw & Hnext); [reflexivity..|].
  exists d1. split; [exact Hstep|]. split; [by rewrite Hn|]. split; [by rewrite Hn|].
  assert (objects d1 !! 0 = Some examples.set_value_op1_registered) as Ho.
  { vm_compute in Hstep. injection Hstep as <-. reflexivity. }
  assert (env d1 = snd examples.failing_op2_afterwards) as Henv.
  { vm_compute in Hstep. injection Hstep as <-. reflexivity. }
  destruct (Hnext 0 examples.set_value_request (PyScalar examples.forty_two)
              examples.set_value_op1_registered
              (fst examples.set_value_op1_afterwards)
              (snd examples.set_value_op1_afterwards) eq_refl Ho)
    as (d2 & d3 & Henq & Hstep3 & Hn3).
  { rewrite Henv. reflexivity. }
  exists d2, d3. split; [exact Henq|]. split; [exact Hstep3|].
  rewrite Hn3, Hn. reflexivity.
Defined.

Lemma transaction_ids_strictly_increasing_witness :
  StronglySorted Z.lt (snd (play examples.three_calls examples.device_running))
  ∧ NoDup (snd (play examples.three_calls examples.device_running))
  ∧ hd_error (snd (play examples.three_calls examples.device_running)) = Some 1%Z.
Proof.
  destruct (transaction_ids_strictly_increasing examples.three_calls examples.device_running
              eq_refl) as (Hs & Hnd & Hhd & _).
  split; [exact Hs|]. split; [exact Hnd|exact Hhd].
Defined.
End worker_facts.


(** ** The registry and [set_mdib] *)

Section registry_facts.
Import descriptorcontainers mdib sco.

Lemma _init_operation_target_container_keeps_mdib self m self' m' r :
  _init_operation_target_container self m = (self', m', r) → _mdib self' = _mdib self.
Proof.
  unfold _init_operation_target_container. intros H.
  repeat match type of H with
         | context [match ?x with _ => _ end] => destruct x
         end; by injection H as <- <- <-.
Qed.

Lemma set_mdib_binds self m parent_handle self' m' :
  set_mdib self m parent_handle = (self', m', Ok ()) → _mdib self' = Some device_mdib.
Proof.
  unfold set_mdib. destruct (_mdib self); [discriminate|].
  destruct (get_one _ _ _ _) as [found|]; [|discriminate].
  match goal with |- context [match ?x with Ok _ => _ | Err _ => _ end = _] =>
    destruct x as [m1|]; [|discriminate] end.
  destruct (get_one _ _ _ _) as [found_state|]; [|discriminate].
  match goal with |- context [match ?x with Ok _ => _ | Err _ => _ end = _] =>
    destruct x as [m2|]; [|discriminate] end.
  intros H. apply _init_operation_target_container_keeps_mdib in H. by rewrite H.
Qed.

Lemma set_env_set_object_id d operation o :
  objects d !! operation = Some o →
  set_env (set_object d operation o) (set_mdib_of (env d) (the_mdib (env d))) = d.
Proof.
  intros Ho. destruct d as [[m c t] objs reg sco w n]. unfold set_env, set_object, set_mdib_of.
  simpl in *. by rewrite insert_id.
Qed.

(** C10.  [set_mdib] on an operation whose mdib is set raises
    RuntimeError('Mdib is already set') and changes neither the operation nor
    the mdib; so after [register_operation] has registered an operation
    object, registering the same object again raises that error and leaves
    the device, registry included, as it was. *)
Theorem set_mdib_twice_is_refused :
  (∀ self m parent_handle,
     is_Some (_mdib self) →
     set_mdib self m parent_handle = (self, m, Err (RuntimeError "Mdib is already set")))
  ∧ (∀ d operation sco_descriptor_container d1 sco_descriptor_container',
       register_operation d operation sco_descriptor_container = (d1, Ok ()) →
       register_operation d1 operation sco_descriptor_container'
       = (d1, Err (RuntimeError "Mdib is already set"))
       ∧ ∃ o, objects d1 !! operation = Some o
              ∧ _registered_operations d1 !! handle (definition o) = Some operation).
Proof.
  split.
  - intros self m parent_handle [mref Hm]. unfold set_mdib. by rewrite Hm.
  - intros d operation sco d1 sco'. unfold register_operation at 1.
    destruct (objects d !! operation) as [op|] eqn:Ho; [|discriminate].
    destruct (set_mdib (definition op) (the_mdib (env d)) _) as [[def' m'] [[]|ex]] eqn:Hs;
      [|discriminate].
    intros [= <-]. apply set_mdib_binds in Hs.
    set (o' := mkOperation def' (current_request_handlers op) (current_argument_handlers op)).
    set (d1 := set_registered _ _).
    assert (objects d1 !! operation = Some o') as Ho1.
    { unfold d1. cbn. apply lookup_insert_eq. }
    split.
    + unfold register_operation. rewrite Ho1.
      unfold set_mdib. cbn [definition o']. rewrite Hs.
      f_equal. by apply (set_env_set_object_id d1 operation o').
    + exists o'. split; [done|]. unfold d1. cbn. apply lookup_insert_eq.
Qed.

Lemma set_mdib_twice_is_refused_witness :
  register_operation examples.device_registered 0 None
  = (examples.device_registered, Err (RuntimeError "Mdib is already set"))
  ∧ set_mdib (definition examples.set_value_op1_registered)
             (the_mdib (env examples.device_registered)) "_sco"
    = (definition examples.set_value_op1_registered,
       the_mdib (env examples.device_registered),
       Err (RuntimeError "Mdib is already set")).
Proof.
  split.
  - apply (proj2 set_mdib_twice_is_refused
             (set_object examples.empty_device 0 examples.set_value_op1) 0 None
             examples.device_registered None).
    reflexivity.
  - apply (proj1 set_mdib_twice_is_refused). by eexists.
Defined.
End registry_facts.

(** ** The Set service request handler *)

Section service_facts.
Import mdib sco sdcservicesimpl.

(** C6.  A request that names exactly one operation handle which is not
    registered, or which resolves to an operation whose [OP_QNAME] differs
    from the tag of the request, is answered at once with invocation state
    FAILED, error INVALID_VALUE and transaction id 0; the device is returned
    as it was: nothing is put into the queue, no transaction id is used up
    and no notification is recorded. *)
Theorem rejected_request_is_answered_synchronously
    (d : Device) (request : Request) (response_name : string) (argument : PyObject)
    (operation_handle_ref : string) :
  operation_handle_refs request = [operation_handle_ref] →
  get_operation_by_handle d operation_handle_ref = None
  ∨ (∃ operation o,
       get_operation_by_handle d operation_handle_ref = Some operation
       ∧ objects d !! operation = Some o
       ∧ OP_QNAME (op_class (definition o)) ≠ Some (request_tag request)) →
  ∃ response,
    _handle_operation_request d request response_name argument = (d, Ok response)
    ∧ InvocationState response = pmtypes.FAILED
    ∧ InvocationError response = Some pmtypes.INVALID_VALUE
    ∧ TransactionId response = "0"
    ∧ is_Some (InvocationErrorMessage response).
Proof.
  intros Hrefs Hcase. unfold _handle_operation_request, check_request.
  rewrite Hrefs. unfold device_get_operation_by_handle.
  destruct Hcase as [->|(operation & o & -> & Ho & Hne)].
  - eexists. repeat split. by eexists.
  - rewrite Ho. cbn [fmap option_fmap option_map].
    rewrite bool_decide_true by congruence.
    eexists. repeat split. by eexists.
Qed.

Lemma rejected_request_is_answered_synchronously_witness :
  (∃ response,
     _handle_operation_request examples.device_running examples.unknown_handle_request
       "SetValueResponse" (PyScalar examples.forty_two)
     = (examples.device_running, Ok response)
     ∧ InvocationState response = pmtypes.FAILED
     ∧ InvocationError response = Some pmtypes.INVALID_VALUE)
  ∧ (∃ response,
       _handle_operation_request examples.device_running examples.wrong_tag_request
         "SetStringResponse" (PyScalar (PyStr "abc"))
       = (examples.device_running, Ok response)
       ∧ InvocationState response = pmtypes.FAILED
       ∧ InvocationError response = Some pmtypes.INVALID_VALUE).
Proof.
  split.
  - destruct (rejected_request_is_answered_synchronously examples.device_running
                examples.unknown_handle_request "SetValueResponse"
                (PyScalar examples.forty_two) "nope" eq_refl)
      as (response & H1 & H2 & H3 & _); [left; reflexivity|].
    exists response. split; [exact H1|]. split; [exact H2|exact H3].
  - destruct (rejected_request_is_answered_synchronously examples.device_running
                examples.wrong_tag_request "SetStringResponse"
                (PyScalar (PyStr "abc")) "op1" eq_refl)
      as (response & H1 & H2 & H3 & _).
    { right. exists 0, examples.set_value_op1_registered.
      split; [reflexivity|]. split; [reflexivity|]. discriminate. }
    exists response. split; [exact H1|]. split; [exact H2|exact H3].
Defined.
End service_facts.


(** ** The entity store and its transactions *)

Section store_facts.
Import mdib.

Lemma get_singleton_key {A K} `{EqDecision K} (key_of : A → K) (l : list A) k x :
  get key_of l k = [x] → key_of x = k.
Proof.
  intros H. assert (x ∈ get key_of l k) as Hx by (rewrite H; by left).
  unfold get in Hx. by apply list_elem_of_filter in Hx as [? _].
Qed.

Lemma get_the_one_singleton {A K} `{EqDecision K} (key_of : A → K) (l : list A) k x :
  get key_of l k = [x] → get_the_one key_of l k = Ok x.
Proof. intros H. unfold get_the_one, get_one. by rewrite H. Qed.

Lemma get_nil_not_key {A K} `{EqDecision K} (key_of : A → K) (l : list A) k :
  k ∉ map key_of l → get key_of l k = [].
Proof.
  intros Hk. unfold get. induction l as [|a l IH]; [done|].
  rewrite filter_cons. simpl in Hk. rewrite not_elem_of_cons in Hk. destruct Hk as [Hne Hk].
  rewrite decide_False by done. by apply IH.
Qed.

Lemma get_unique {A K} `{EqDecision K} (key_of : A → K) (l : list A) x :
  NoDup (map key_of l) → x ∈ l → get key_of l (key_of x) = [x].
Proof.
  unfold get. induction l as [|a l IH]; intros Hnd Hx; [by apply elem_of_nil in Hx|].
  simpl in Hnd. apply NoDup_cons in Hnd as [Ha Hnd]. rewrite filter_cons.
  apply elem_of_cons in Hx as [->|Hx].
  - rewrite decide_True by done. f_equal. by apply (get_nil_not_key key_of).
  - rewrite decide_False; [by apply IH|].
    intros Heq. apply Ha. rewrite Heq. apply list_elem_of_fmap. by exists x.
Qed.

Lemma store_fresh {A K} `{EqDecision K} (key_of : A → K) (o : A) (l : list A) :
  key_of o ∉ map key_of l → store key_of o l = l ++ [o].
Proof.
  induction l as [|x l IH]; [done|]. simpl. rewrite not_elem_of_cons. intros [Hne Hk].
  rewrite decide_False by done. by rewrite IH.
Qed.

Lemma committed_key {K} `{EqDecision K} (key_of : StateContainer → K) updates st :
  (∀ x, key_of (increment_state_version x) = key_of x) →
  key_of (committed key_of updates st) = key_of st.
Proof.
  intros Hk. unfold committed. destruct (get key_of updates (key_of st)) as [|u l] eqn:E;
    [done|].
  rewrite Hk. assert (u ∈ get key_of updates (key_of st)) as Hu by (rewrite E; by left).
  unfold get in Hu. by apply list_elem_of_filter in Hu as [? _].
Qed.

Lemma committed_single {K} `{EqDecision K} (key_of : StateContainer → K) u st :
  key_of u = key_of st → committed key_of [u] st = increment_state_version u.
Proof.
  intros Hk. unfold committed, get. by rewrite filter_cons, decide_True.
Qed.

Lemma get_apply_updates {K} `{EqDecision K} (key_of : StateContainer → K)
    updates current k :
  (∀ x, key_of (increment_state_version x) = key_of x) →
  get key_of (apply_updates key_of updates current) k
  = map (committed key_of updates) (get key_of current k).
Proof.
  intros Hk. unfold get, apply_updates. induction current as [|a l IH]; [done|].
  simpl. rewrite !filter_cons, committed_key by done.
  destruct (decide (key_of a = k)); simpl; by rewrite IH.
Qed.
End store_facts.

(** ** The role providers *)

Section provider_facts.
Import descriptorcontainers mdib sco providerbase.

Lemma set_value_in_transaction_spec m target value state metric_descriptor category
    before :
  get descriptorHandle (states m) target = [state] →
  get descriptorcontainers.Handle (descriptions m) target = [metric_descriptor] →
  MetricCategory metric_descriptor = Ok category →
  metricValue (match metricValue state with
               | None => mk_metric_value state
               | Some _ => state
               end) = Some before →
  set_value_in_transaction m begin_transaction (Some target) value
  = Ok (mkTransaction
          [set_metricValue state
             (Some (mkMetricValue value (MetricQuality before) (DeterminationTime before)
                      (if bool_decide (category ∈ [pmtypes.SETTING; pmtypes.PRESETTING])
                       then Some pmtypes.VALID
                       else Validity before)))]
          [] []).
Proof.
  intros Hs Hd Hc Hbefore. unfold set_value_in_transaction, get_state.
  cbn [state_updates begin_transaction].
  unfold get at 1. rewrite filter_nil.
  rewrite (get_the_one_singleton _ _ _ _ Hs). cbn [mbind result_bind].
  rewrite Hbefore.
  rewrite (get_the_one_singleton _ _ _ _ Hd). cbn [mbind result_bind]. rewrite Hc.
  cbn [mbind result_bind].
  unfold put_state. cbn [state_updates context_state_updates added_states
                           begin_transaction store].
  destruct (metricValue state) as [mv|] eqn:Hmv;
    case_bool_decide; cbn [store set_metricValue mk_metric_value descriptorHandle
                             metricValue];
    rewrite ?decide_True by done; reflexivity.
Qed.

(** C8.  The generic numeric setter and the generic string setter set
    [metricValue.Value] of the target metric state to the requested value,
    on the metric value that the state has or that [mk_metric_value] gave
    it, and commit the change: the state is found in the mdib afterwards,
    with its version incremented.  When the [MetricCategory] of the target
    descriptor is SETTING or PRESETTING they assign VALID to
    [metricValue.Validity].  The classes of the metric values declare no
    such attribute: the validity of a metric value is that of its
    [MetricQuality], and [MetricQuality] is after the call what it was
    before.  So a validity other than VALID stays, where the comment in the
    code (SF1823) and the specification say that it is set to VALID. *)
Theorem setters_set_value_but_not_quality_validity
    (operation_instance : OperationDefinition) (value : PyValue) (e : Env)
    (operation_descriptor metric_descriptor : DescriptorContainer) (target : string)
    (state : StateContainer) (category : pmtypes.MetricCategory) :
  get descriptorcontainers.Handle (descriptions (the_mdib e)) (handle operation_instance)
  = [operation_descriptor] →
  OperationTarget (properties operation_descriptor) = Some target →
  get descriptorHandle (states (the_mdib e)) target = [state] →
  get descriptorcontainers.Handle (descriptions (the_mdib e)) target = [metric_descriptor] →
  MetricCategory metric_descriptor = Ok category →
  ∀ setter, setter = _set_numeric_value ∨ setter = _set_string →
  ∃ e' state' before value',
    setter operation_instance value e
    = (set_current_value operation_instance (Some (PyScalar value)), e', Ok ())
    ∧ get descriptorHandle (states (the_mdib e')) target = [state']
    ∧ StateVersion state' = (StateVersion state + 1)%Z
    ∧ metricValue (match metricValue state with
                   | None => mk_metric_value state
                   | Some _ => state
                   end) = Some before
    ∧ metricValue state' = Some value'
    ∧ Value value' = value
    ∧ Validity value'
      = (if bool_decide (category = pmtypes.SETTING ∨ category = pmtypes.PRESETTING)
         then Some pmtypes.VALID
         else Validity before)
    ∧ MetricQuality value' = MetricQuality before
    ∧ mq_Validity (MetricQuality value') = mq_Validity (MetricQuality before).
Proof.
  intros Hop Htarget Hs Hd Hc setter Hsetter.
  assert (setter = _set_numeric_value) as -> by (by destruct Hsetter as [->| ->]).
  assert (∃ before,
            metricValue (match metricValue state with
                         | None => mk_metric_value state
                         | Some _ => state
                         end) = Some before) as [before Hbefore].
  { destruct (metricValue state) as [mv|] eqn:Hmv; [by exists mv|by eexists]. }
  unfold _set_numeric_value, _get_operation_target_handle.
  rewrite (get_the_one_singleton _ _ _ _ Hop). cbn [mbind result_bind]. rewrite Htarget.
  rewrite (set_value_in_transaction_spec _ _ _ _ _ _ _ Hs Hd Hc Hbefore).
  eexists _, _, before, _. split; [reflexivity|].
  cbn [the_mdib set_mdib_of commit states state_updates].
  rewrite get_apply_updates by done. rewrite Hs. cbn [map].
  rewrite committed_single by done.
  split; [reflexivity|]. split; [reflexivity|]. split; [exact Hbefore|].
  split; [reflexivity|]. split; [reflexivity|]. split; [|split; reflexivity].
  cbn [Validity].
  rewrite (bool_decide_ext (category ∈ [pmtypes.SETTING; pmtypes.PRESETTING])
             (category = pmtypes.SETTING ∨ category = pmtypes.PRESETTING)); [done|].
  rewrite !elem_of_cons, elem_of_nil. tauto.
Qed.

Lemma setters_set_value_but_not_quality_validity_witness :
  ∃ e' state' value',
    _set_numeric_value (definition examples.set_value_op1_registered) examples.forty_two
      examples.env_with_invalid_value
    = (set_current_value (definition examples.set_value_op1_registered)
         (Some (PyScalar examples.forty_two)), e', Ok ())
    ∧ get descriptorHandle (states (the_mdib e')) "M1" = [state']
    ∧ metricValue state' = Some value'
    ∧ Value value' = examples.forty_two
    ∧ Validity value' = Some pmtypes.VALID
    ∧ mq_Validity (MetricQuality value') = Some pmtypes.INVALID.
Proof.
  destruct (setters_set_value_but_not_quality_validity
              (definition examples.set_value_op1_registered) examples.forty_two
              examples.env_with_invalid_value
              (_init_operation_descriptor_container
                 (definition examples.set_value_op1)
                 (new_container SetValueOperationDescriptorContainer "op1" (Some "_sco")))
              examples.metric_M1 "M1" examples.state_M1_invalid pmtypes.SETTING
              eq_refl eq_refl eq_refl eq_refl eq_refl _set_numeric_value (or_introl eq_refl))
    as (e' & state' & before & value' & H1 & H2 & _ & Hb & H3 & H4 & H5 & _ & H6).
  injection Hb as <-.
  exists e', state', value'. repeat split; assumption.
Defined.
End provider_facts.


(** ** The context provider *)

Section context_facts.
Import mdib sco contextprovider.

Lemma get_app {A K} `{EqDecision K} (key_of : A → K) (l1 l2 : list A) k :
  get key_of (l1 ++ l2) k = get key_of l1 k ++ get key_of l2 k.
Proof. apply filter_app. Qed.

Lemma same_key_same_object {A K} `{EqDecision K} (key_of : A → K) (l : list A) x y :
  NoDup (map key_of l) → x ∈ l → y ∈ l → key_of x = key_of y → x = y.
Proof.
  intros Hnd Hx Hy Hk. pose proof (get_unique key_of l x Hnd Hx) as Hg.
  assert (y ∈ get key_of l (key_of x)) as Hin.
  { unfold get. apply list_elem_of_filter. by split. }
  rewrite Hg in Hin. apply list_elem_of_singleton in Hin. done.
Qed.

Lemma NoDup_map_filter {A B} (f : A → B) (P : A → Prop) `{∀ x, Decision (P x)}
    (l : list A) :
  NoDup (map f l) → NoDup (map f (filter P l)).
Proof.
  induction l as [|a l IH]; [done|]. simpl. intros [Ha Hnd]%NoDup_cons.
  rewrite filter_cons. destruct (decide (P a)); [|by apply IH].
  simpl. apply NoDup_cons. split; [|by apply IH].
  intros Hin. apply Ha. apply list_elem_of_fmap in Hin as (x & -> & Hx).
  apply list_elem_of_filter in Hx as [_ Hx]. apply list_elem_of_fmap. by exists x.
Qed.

(** The loop of [_set_context_state], turn by turn. *)
Section new_context_state_facts.

Variable operation_instance : OperationDefinition.
Variable m : Mdib.
Hypothesis Hclass : op_class operation_instance = _SetContextStateOperation.
Hypothesis Hnd : NoDup (map Handle (context_states m)).

Lemma Inv_begin : Inv m begin_transaction.
Proof.
  split; cbn; [constructor| |  |constructor]; intros x Hx; by apply elem_of_nil in Hx.
Qed.

Lemma storage : operation_target_storage operation_instance m = context_states m.
Proof. unfold operation_target_storage. by rewrite Hclass. Qed.

(** Lookups in a list after [store]. *)
Lemma get_store {A K} `{EqDecision K} (key_of : A → K) (o : A) (l : list A) k :
  NoDup (map key_of l) →
  get key_of (store key_of o l) k
  = if decide (k = key_of o) then [o] else get key_of l k.
Proof.
  unfold get. induction l as [|x l IH]; intros Hn.
  - cbn [store]. rewrite filter_cons, filter_nil.
    destruct (decide (key_of o = k)), (decide (k = key_of o)); congruence.
  - cbn [map] in Hn. apply NoDup_cons in Hn as [Hx Hn]. cbn [store].
    destruct (decide (key_of x = key_of o)) as [Heq|Hne].
    + assert (filter (λ o0 : A, key_of o0 = key_of o) l = []) as Hnone.
      { apply (get_nil_not_key key_of). by rewrite <- Heq. }
      rewrite (filter_cons _ o l), (filter_cons _ x l).
      destruct (decide (k = key_of o)) as [->|Hk].
      * rewrite decide_True by done. by rewrite Hnone.
      * rewrite decide_False by congruence.
        destruct (decide (key_of x = k)); [congruence|done].
    + rewrite (filter_cons _ x (store key_of o l)), (filter_cons _ x l), IH by done.
      destruct (decide (key_of x = k)) as [Hxk|Hxk], (decide (k = key_of o)) as [Hko|Hko];
        congruence.
Qed.

Lemma store_elem {A K} `{EqDecision K} (key_of : A → K) (o : A) (l : list A) x :
  x ∈ store key_of o l → x = o ∨ x ∈ l.
Proof.
  induction l as [|y l IH]; simpl.
  - intros ->%list_elem_of_singleton. by left.
  - destruct (decide (key_of y = key_of o)).
    + intros [->|Hin]%elem_of_cons; [by left|right; by right].
    + intros [->|Hin]%elem_of_cons; [right; by left|].
      destruct (IH Hin) as [->|?]; [by left|right; by right].
Qed.

Lemma store_keys {A K} `{EqDecision K} (key_of : A → K) (o : A) (l : list A) :
  map key_of (store key_of o l)
  = if decide (key_of o ∈ map key_of l) then map key_of l else map key_of l ++ [key_of o].
Proof.
  induction l as [|y l IH]; simpl.
  - destruct (decide (key_of o ∈ [])) as [H|_]; [by apply elem_of_nil in H|done].
  - destruct (decide (key_of y = key_of o)) as [Heq|Hne]; simpl.
    + rewrite decide_True by (rewrite Heq; by left). by rewrite Heq.
    + rewrite IH. destruct (decide (key_of o ∈ map key_of l)) as [Hin|Hnot].
      * by rewrite decide_True by (by right).
      * rewrite decide_False; [done|]. intros [?|?]%elem_of_cons; congruence.
Qed.

Lemma store_NoDup {A K} `{EqDecision K} (key_of : A → K) (o : A) (l : list A) :
  NoDup (map key_of l) → NoDup (map key_of (store key_of o l)).
Proof.
  intros Hn. rewrite store_keys. destruct (decide _) as [|Hnot]; [done|].
  apply NoDup_app. split; [done|]. split; [|apply NoDup_singleton].
  intros x Hx ->%list_elem_of_singleton. done.
Qed.


Lemma stored_handle s : s ∈ context_states m → Handle s ∈ map Handle (context_states m).
Proof. intros Hs. apply list_elem_of_fmap. by exists s. Qed.

Lemma same_handle_same_state s s' :
  s ∈ context_states m → s' ∈ context_states m → Handle s = Handle s' → s = s'.
Proof. intros. by apply (same_key_same_object Handle (context_states m)). Qed.

Lemma added_not_stored mgr s :
  Inv m mgr → s ∈ context_states m → Handle s ∉ map Handle (added_states mgr).
Proof.
  intros HI Hs (a & Ha & Hin)%list_elem_of_fmap.
  apply (inv_added _ _ HI a Hin). rewrite <- Ha. by apply stored_handle.
Qed.

Lemma view_ok mgr s :
  Inv m mgr → s ∈ context_states m →
  Handle (view mgr s) = Handle s
  ∧ (same_binding s (view mgr s) ∨ was_disassociated m s (view mgr s)).
Proof.
  intros HI Hs. unfold view.
  destruct (get Handle (context_state_updates mgr) (Handle s)) as [|c l] eqn:Hg.
  - split; [done|]. by left.
  - assert (c ∈ get Handle (context_state_updates mgr) (Handle s)) as Hc
      by (rewrite Hg; by left).
    unfold get in Hc. apply list_elem_of_filter in Hc as [Hh Hc].
    destruct (inv_copies _ _ HI c Hc) as (s' & Hs' & Hh' & Hok).
    assert (s' = s) as -> by (apply same_handle_same_state; congruence).
    done.
Qed.

Lemma get_context_state_view mgr s descriptor_handle :
  Inv m mgr → s ∈ context_states m →
  get_context_state m mgr descriptor_handle (Handle s) = Ok (view mgr s).
Proof.
  intros HI Hs. unfold get_context_state, view. rewrite get_app.
  rewrite (get_nil_not_key Handle (added_states mgr)) by (by apply added_not_stored).
  rewrite app_nil_r.
  destruct (get Handle (context_state_updates mgr) (Handle s)) as [|c l]; [|done].
  apply get_the_one_singleton. by apply get_unique.
Qed.

Lemma put_context_state_put mgr s c :
  Inv m mgr → s ∈ context_states m → Handle c = Handle s →
  put_context_state mgr c = put mgr c.
Proof.
  intros HI Hs Hh. unfold put_context_state.
  rewrite bool_decide_false; [done|]. rewrite Hh. by apply added_not_stored.
Qed.

Lemma Inv_put mgr s c :
  Inv m mgr → s ∈ context_states m → Handle c = Handle s →
  same_binding s c ∨ was_disassociated m s c →
  Inv m (put mgr c).
Proof.
  intros HI Hs Hh Hok. split; cbn [put context_state_updates added_states].
  - apply store_NoDup, HI.
  - intros x [->|Hx]%store_elem; [by exists s|]. by apply (inv_copies _ _ HI).
  - apply HI.
  - apply HI.
Qed.

Lemma get_put mgr c k :
  Inv m mgr →
  get Handle (context_state_updates (put mgr c)) k
  = if decide (k = Handle c) then [c] else get Handle (context_state_updates mgr) k.
Proof. intros HI. cbn [put context_state_updates]. apply get_store, HI. Qed.

Lemma view_put mgr c s :
  Inv m mgr →
  view (put mgr c) s = if decide (Handle s = Handle c) then c else view mgr s.
Proof.
  intros HI. unfold view at 1. rewrite get_put by done. by destruct (decide _).
Qed.

(** One turn of the inner loop on a working copy. *)
Lemma disassociated_copy s v now :
  same_binding s v ∨ was_disassociated m s v →
  was_disassociated m s (disassociated (mdib_version m) now v).
Proof.
  unfold was_disassociated, same_binding, disassociated. cbn.
  intros [(Ha & Hu & He)|(Ha & Hnone & Hsome)].
  - rewrite Hu, He. destruct (UnbindingMdibVersion s) as [u|].
    + split; [done|]. split; [done|]. done.
    + split; [done|]. split; [|by intros [? ?]]. intros _. split; [done|by eexists].
  - destruct (UnbindingMdibVersion s) as [u|].
    + destruct (Hsome (ltac:(by eexists))) as [-> ->]. split; [done|]. split; done.
    + destruct (Hnone eq_refl) as [-> He]. split; [done|]. split; [done|by intros [? ?]].
Qed.

Lemma not_needed_is_disassociated s v :
  ¬ needs_disassociation s →
  same_binding s v ∨ was_disassociated m s v → was_disassociated m s v.
Proof.
  intros Hnot [(Ha & Hu & He)|?]; [|done].
  unfold needs_disassociation in Hnot. unfold was_disassociated.
  destruct (decide (ContextAssociation s = Some pmtypes.DISASSOCIATED)) as [Hd|Hd];
    [|exfalso; apply Hnot; by left].
  destruct (UnbindingMdibVersion s) as [u|] eqn:Hus; [|exfalso; apply Hnot; by right].
  rewrite Ha, Hu, He. split; [done|]. split; [done|]. done.
Qed.

Lemma disassociate_general : ∀ old_state_containers mgr e,
  Inv m mgr →
  (∀ old, old ∈ old_state_containers → old ∈ context_states m) →
  ∃ mgr' e',
    disassociate m mgr e old_state_containers = (mgr', e', Ok ())
    ∧ Inv m mgr'
    ∧ added_states mgr' = added_states mgr
    ∧ the_mdib e' = the_mdib e ∧ clock e' = clock e
    ∧ ∀ s, s ∈ context_states m →
        (was_disassociated m s (view mgr s) → was_disassociated m s (view mgr' s))
        ∧ (s ∈ old_state_containers → needs_disassociation s →
           was_disassociated m s (view mgr' s))
        ∧ (¬ (s ∈ old_state_containers ∧ needs_disassociation s) →
           get Handle (context_state_updates mgr') (Handle s)
           = get Handle (context_state_updates mgr) (Handle s)).
Proof.
  induction old_state_containers as [|old rest IH]; intros mgr e HI Hstored.
  - exists mgr, e. split; [done|]. do 4 (split; [done|]).
    intros s Hs. split; [done|]. split; [|done].
    intros Hin. by apply elem_of_nil in Hin.
  - assert (old ∈ context_states m) as Hold by (apply Hstored; by left).
    assert (∀ o, o ∈ rest → o ∈ context_states m) as Hrest
      by (intros o Ho; apply Hstored; by right).
    cbn [disassociate].
    destruct (decide (needs_disassociation old)) as [Hneeds|Hnot].
    + rewrite bool_decide_true by done.
      rewrite (get_context_state_view mgr old) by done.
      destruct (view_ok mgr old HI Hold) as [Hh Hok].
      set (v := view mgr old) in *.
      assert (∃ mgr1 e1,
                match UnbindingMdibVersion v with
                | Some _ =>
                    disassociate m
                      (put_context_state mgr
                         (set_binding v (Handle v) (Some pmtypes.DISASSOCIATED)
                            (BindingMdibVersion v) (UnbindingMdibVersion v)
                            (BindingStartTime v) (BindingEndTime v))) e rest
                | None =>
                    let '(now, e1) := time_time e in
                    disassociate m
                      (put_context_state mgr
                         (set_binding v (Handle v) (Some pmtypes.DISASSOCIATED)
                            (BindingMdibVersion v) (Some (mdib_version m))
                            (BindingStartTime v) (Some now))) e1 rest
                end
                = disassociate m mgr1 e1 rest
                ∧ Inv m mgr1 ∧ added_states mgr1 = added_states mgr
                ∧ the_mdib e1 = the_mdib e ∧ clock e1 = clock e
                ∧ ∃ c, mgr1 = put mgr c ∧ Handle c = Handle old
                       ∧ was_disassociated m old c)
        as (mgr1 & e1 & -> & HI1 & Hadd1 & Hm1 & Hc1 & c & -> & Hhc & Hdis).
      { pose proof (disassociated_copy old v (clock e (ticks e)) Hok) as Hcopy.
        unfold disassociated in Hcopy.
        destruct (UnbindingMdibVersion v) as [u|] eqn:Hu.
        - eexists _, e. split; [reflexivity|].
          rewrite (put_context_state_put mgr old) by done.
          split; [apply (Inv_put mgr old); [done|done|done|by right]|].
          split; [done|]. split; [done|]. split; [done|].
          eexists. split; [reflexivity|]. split; done.
        - cbn [time_time]. eexists _, _. split; [reflexivity|].
          rewrite (put_context_state_put mgr old) by done.
          split; [apply (Inv_put mgr old); [done|done|done|by right]|].
          split; [done|]. split; [done|]. split; [done|].
          eexists. split; [reflexivity|]. split; done. }
      destruct (IH (put mgr c) e1 HI1 Hrest)
        as (mgr' & e' & Hrun & HI' & Hadd' & Hm' & Hc' & Hall).
      exists mgr', e'. split; [done|]. split; [done|].
      split; [by rewrite Hadd'|]. split; [congruence|]. split; [congruence|].
      intros s Hs. destruct (Hall s Hs) as (Hpres & Hdone & Hsame).
      assert (was_disassociated m s (view mgr s) →
              was_disassociated m s (view (put mgr c) s)) as Hstep.
      { intros Hd. rewrite view_put by done.
        destruct (decide (Handle s = Handle c)) as [Heq|]; [|done].
        assert (s = old) as -> by (apply same_handle_same_state; congruence). done. }
      split; [auto|]. split.
      * intros [->|Hin]%elem_of_cons Hn; [|by apply Hdone].
        apply Hpres. rewrite view_put, decide_True by done. done.
      * intros Hnot. rewrite Hsame.
        -- rewrite get_put by done. rewrite decide_False; [done|].
           intros Heq. apply Hnot.
           assert (s = old) as -> by (apply same_handle_same_state; congruence).
           split; [by left|done].
        -- intros [Hin Hn]. apply Hnot. split; [by right|done].
    + rewrite bool_decide_false by done.
      destruct (IH mgr e HI Hrest) as (mgr' & e' & Hrun & HI' & Hadd' & Hm' & Hc' & Hall).
      exists mgr', e'. split; [done|]. repeat (split; [done|]).
      intros s Hs. destruct (Hall s Hs) as (Hpres & Hdone & Hsame).
      split; [done|]. split.
      * intros [->|Hin]%elem_of_cons Hn; [done|by apply Hdone].
      * intros Hnot'. apply Hsame. intros [Hin Hn]. apply Hnot'. split; [by right|done].
Qed.


Lemma merged_fields v q :
  Handle (update_from_other_container v q skipped_properties) = Handle q
  ∧ ContextAssociation (update_from_other_container v q skipped_properties)
    = ContextAssociation v
  ∧ UnbindingMdibVersion (update_from_other_container v q skipped_properties)
    = UnbindingMdibVersion v
  ∧ BindingEndTime (update_from_other_container v q skipped_properties)
    = BindingEndTime v.
Proof. repeat split; reflexivity. Qed.

Local Abbreviation run := (set_context_states operation_instance m).
Local Abbreviation step := (set_one_context_state operation_instance m).

Lemma step_update q mgr e :
  ¬ is_new q → Inv m mgr →
  (Handle q ∉ map Handle (context_states m) → ∃ ex, step mgr e q = (mgr, e, Err ex))
  ∧ (Handle q ∈ map Handle (context_states m) →
     ∃ mgr', step mgr e q = (mgr', e, Ok ())
             ∧ Inv m mgr' ∧ added_states mgr' = added_states mgr
             ∧ turn_keeps m mgr mgr' q).
Proof.
  intros Hq HI. unfold set_one_context_state.
  rewrite bool_decide_true by (intros Heq; apply Hq; unfold is_new; by rewrite Heq).
  rewrite storage. unfold get_one. split.
  - intros Hnot. rewrite (get_nil_not_key Handle) by done. cbn. by eexists.
  - intros (o & Hh & Ho)%list_elem_of_fmap.
    rewrite Hh, (get_unique Handle _ o Hnd Ho). cbn [mbind result_bind].
    rewrite (get_context_state_view mgr o) by done.
    destruct (view_ok mgr o HI Ho) as [Hv Hok].
    destruct (merged_fields (view mgr o) q) as (Hmh & Hma & Hmu & Hme).
    set (c := update_from_other_container (view mgr o) q skipped_properties) in *.
    assert (same_binding o c ∨ was_disassociated m o c) as Hokc.
    { unfold same_binding, was_disassociated in *. rewrite Hma, Hmu, Hme. done. }
    assert (Handle c = Handle o) as Hhc by congruence.
    rewrite (put_context_state_put mgr o) by done.
    exists (put mgr c). split; [done|]. split; [by apply (Inv_put mgr o)|].
    split; [done|]. intros s Hs. split; [|split].
    + intros Hd. rewrite view_put by done.
      destruct (decide (Handle s = Handle c)) as [Heq|]; [|done].
      assert (s = o) as -> by (apply same_handle_same_state; congruence).
      unfold was_disassociated in *. by rewrite Hma, Hmu, Hme.
    + intros Hnew. done.
    + intros Hne _. rewrite get_put by done. rewrite decide_False; [done|].
      rewrite Hhc, <- Hh. intros Heq. by apply (Hne Hq).
Qed.


Lemma step_new q mgr e :
  is_new q → Inv m mgr →
  (Some (generated_handle m q) ∈ map Handle (context_states m ++ added_states mgr) →
   ∃ ex, step mgr e q = (mgr, (time_time e).2, Err ex))
  ∧ (Some (generated_handle m q) ∉ map Handle (context_states m ++ added_states mgr) →
     ∃ mgr' e',
       step mgr e q = (mgr', e', Ok ())
       ∧ Inv m mgr'
       ∧ added_states mgr' = added_states mgr ++ [new_context_state m (clock e (ticks e)) q]
       ∧ the_mdib e' = the_mdib e ∧ clock e' = clock e
       ∧ turn_keeps m mgr mgr' q).
Proof.
  intros Hq HI. unfold set_one_context_state.
  rewrite bool_decide_false by (rewrite Hq; intros Hne; by apply Hne).
  cbn [time_time]. unfold add_state. cbn [Handle set_binding].
  fold (generated_handle m q). split.
  - intros Hin. rewrite bool_decide_true by done. by eexists.
  - intros Hnot. rewrite bool_decide_false by done.
    change (set_binding q (Some (generated_handle m q)) (Some pmtypes.ASSOCIATED)
              (Some (mdib_version m)) (UnbindingMdibVersion q)
              (Some (clock e (ticks e))) (BindingEndTime q))
      with (new_context_state m (clock e (ticks e)) q).
    set (n := new_context_state m (clock e (ticks e)) q).
    set (mgr1 := mkTransaction (state_updates mgr) (context_state_updates mgr)
                   (added_states mgr ++ [n])).
    assert (Inv m mgr1) as HI1.
    { rewrite map_app, elem_of_app in Hnot.
      split; cbn [mgr1 context_state_updates added_states]; [apply HI|apply HI| |].
      - intros a [Ha| ->%list_elem_of_singleton]%elem_of_app; [by apply (inv_added _ _ HI)|].
        intros Hin. apply Hnot. by left.
      - rewrite map_app. apply NoDup_app. split; [apply HI|].
        split; [|apply NoDup_singleton].
        intros x Hx ->%list_elem_of_singleton. apply Hnot. by right. }
    rewrite storage.
    destruct (disassociate_general
                (get descriptorHandle (context_states m) (descriptorHandle n))
                mgr1 (mkEnv (the_mdib e) (clock e) (S (ticks e))) HI1)
      as (mgr' & e' & Hrun & HI' & Hadd & Hm' & Hc' & Hall).
    { intros old Hin. unfold get in Hin. by apply list_elem_of_filter in Hin as [_ ?]. }
    exists mgr', e'. split; [exact Hrun|]. split; [done|]. split; [done|].
    split; [done|]. split; [done|].
    intros s Hs. destruct (Hall s Hs) as (Hpres & Hdone & Hsame).
    assert (s ∈ get descriptorHandle (context_states m) (descriptorHandle n)
            ↔ descriptorHandle q = descriptorHandle s) as Hmem.
    { unfold get. rewrite list_elem_of_filter. cbn. split; [by intros [-> _]|].
      intros ->. by split. }
    split; [exact Hpres|]. split.
    + intros _ Hdh. destruct (decide (needs_disassociation s)) as [Hn|Hn].
      * apply Hdone; [by apply Hmem|done].
      * apply Hpres. apply not_needed_is_disassociated; [done|].
        by apply (view_ok mgr1 s HI1 Hs).
    + intros _ Hnn. rewrite Hsame; [done|].
      intros [Hin Hn]. apply (Hnn Hq); [by apply Hmem|done].
Qed.

Lemma run_app l1 : ∀ l2 mgr e,
  run mgr e (l1 ++ l2)
  = match run mgr e l1 with
    | (mgr1, e1, Ok _) => run mgr1 e1 l2
    | failed => failed
    end.
Proof.
  induction l1 as [|q l1 IH]; intros l2 mgr e; [done|].
  cbn [app set_context_states].
  destruct (step mgr e q) as [[mgr1 e1] [[]|ex]]; [apply IH|done].
Qed.

Lemma run_spec l : ∀ mgr e,
  Inv m mgr →
  ∃ mgr' e' r,
    run mgr e l = (mgr', e', r)
    ∧ the_mdib e' = the_mdib e ∧ clock e' = clock e
    ∧ (r = Ok () ↔ accepted m mgr l)
    ∧ (r = Ok () →
       Inv m mgr'
       ∧ (∃ news, added_states mgr' = added_states mgr ++ news)
       ∧ run_keeps m mgr mgr' l).
Proof.
  induction l as [|q l IH]; intros mgr e HI.
  - exists mgr, e, (Ok ()). split; [done|]. split; [done|]. split; [done|]. split.
    + split; [intros _|done]. split; [|split]; [intros q Hq; by apply elem_of_nil in Hq
        |intros q Hq; by apply elem_of_nil in Hq|constructor].
    + intros _. split; [done|]. split; [exists []; by rewrite app_nil_r|].
      intros s Hs. split; [done|]. split; [|done].
      intros p Hp. by apply elem_of_nil in Hp.
  - cbn [set_context_states].
    destruct (decide (is_new q)) as [Hq|Hq].
    + destruct (step_new q mgr e Hq HI) as [Hfail Hok].
      destruct (decide (Some (generated_handle m q)
                        ∈ map Handle (context_states m ++ added_states mgr)))
        as [Hin|Hnot].
      * destruct (Hfail Hin) as [ex ->]. eexists _, _, _. split; [reflexivity|].
        split; [done|]. split; [done|]. split; [|done].
        split; [done|]. intros (_ & Hfresh & _). exfalso.
        by apply (Hfresh q (ltac:(by left)) Hq).
      * destruct (Hok Hnot) as (mgr1 & e1 & -> & HI1 & Hadd1 & Hm1 & Hc1 & Hkeep1).
        destruct (IH mgr1 e1 HI1) as (mgr' & e' & r & -> & Hm' & Hc' & Hiff & Hfacts).
        exists mgr', e', r. split; [done|]. split; [congruence|]. split; [congruence|].
        assert (accepted m mgr1 l ↔ accepted m mgr (q :: l)) as Hacc.
        { unfold accepted. rewrite Hadd1, filter_cons, decide_True by done.
          cbn [map]. rewrite NoDup_cons. split.
          - intros (Hup & Hfresh & Hnodup). split; [|split; [|split]].
            + intros x [->|Hx]%elem_of_cons Hx'; [done|by apply Hup].
            + intros x [->|Hx]%elem_of_cons Hx'; [done|].
              intros Hin. apply (Hfresh x Hx Hx').
              rewrite app_assoc, map_app, elem_of_app. by left.
            + intros (x & Hgen & Hx)%list_elem_of_fmap.
              apply list_elem_of_filter in Hx as [Hx' Hx].
              apply (Hfresh x Hx Hx'). rewrite app_assoc, map_app, elem_of_app. right.
              cbn. rewrite <- Hgen. by left.
            + done.
          - intros (Hup & Hfresh & Hq' & Hnodup). split; [|split; [|done]].
            + intros x Hx Hx'. apply Hup; [by right|done].
            + intros x Hx Hx'. rewrite app_assoc, map_app, elem_of_app.
              intros [Hin|Hin]; [by apply (Hfresh x (ltac:(by right)) Hx')|].
              cbn in Hin. apply list_elem_of_singleton in Hin. injection Hin as Hin.
              apply Hq'. apply list_elem_of_fmap. exists x. split; [done|].
              by apply list_elem_of_filter. }
        split; [by rewrite Hiff|].
        intros Hr. destruct (Hfacts Hr) as (HI' & [news Hnews] & Hkeep).
        split; [done|]. split.
        { exists (new_context_state m (clock e (ticks e)) q :: news).
          by rewrite Hnews, Hadd1, <- app_assoc. }
        intros s Hs. destruct (Hkeep1 s Hs) as (Hp1 & Hd1 & Hs1).
        destruct (Hkeep s Hs) as (Hp & Hd & Hsm).
        split; [auto|]. split.
        -- intros p [->|Hp']%elem_of_cons Hnew Hdh; [apply Hp; by apply Hd1|].
           by apply (Hd p).
        -- intros Hu Hn. rewrite Hsm, Hs1; [done| | | |].
           ++ intros Hq'. done.
           ++ intros _ Hdh. apply (Hn q); [by left|done|done].
           ++ intros x Hx. apply Hu. by right.
           ++ intros x Hx. apply Hn. by right.
    + destruct (step_update q mgr e Hq HI) as [Hfail Hok].
      destruct (decide (Handle q ∈ map Handle (context_states m))) as [Hin|Hnot].
      * destruct (Hok Hin) as (mgr1 & -> & HI1 & Hadd1 & Hkeep1).
        destruct (IH mgr1 e HI1) as (mgr' & e' & r & -> & Hm' & Hc' & Hiff & Hfacts).
        exists mgr', e', r. split; [done|]. split; [done|]. split; [done|].
        assert (accepted m mgr1 l ↔ accepted m mgr (q :: l)) as Hacc.
        { unfold accepted. rewrite Hadd1, filter_cons, decide_False by done. split.
          - intros (Hup & Hfresh & Hnodup). split; [|split; [|done]].
            + intros x [->|Hx]%elem_of_cons Hx'; [done|by apply Hup].
            + intros x [->|Hx]%elem_of_cons Hx'; [done|by apply Hfresh].
          - intros (Hup & Hfresh & Hnodup). split; [|split; [|done]].
            + intros x Hx. apply Hup. by right.
            + intros x Hx. apply Hfresh. by right. }
        split; [by rewrite Hiff|].
        intros Hr. destruct (Hfacts Hr) as (HI' & [news Hnews] & Hkeep).
        split; [done|]. split; [exists news; by rewrite Hnews, Hadd1|].
        intros s Hs. destruct (Hkeep1 s Hs) as (Hp1 & Hd1 & Hs1).
        destruct (Hkeep s Hs) as (Hp & Hd & Hsm).
        split; [auto|]. split.
        -- intros p [->|Hp']%elem_of_cons Hnew Hdh; [done|by apply (Hd p)].
        -- intros Hu Hn. rewrite Hsm, Hs1; [done| | | |].
           ++ intros _. apply Hu; [by left|done].
           ++ intros Hq'. done.
           ++ intros x Hx. apply Hu. by right.
           ++ intros x Hx. apply Hn. by right.
      * destruct (Hfail Hnot) as [ex ->]. eexists _, _, _. split; [reflexivity|].
        split; [done|]. split; [done|]. split; [|done].
        split; [done|]. intros (Hup & _). exfalso. apply Hnot.
        by apply (Hup q (ltac:(by left))).
Qed.

(** The store after the commit. *)
Lemma commit_lookup mgr s :
  Inv m mgr → s ∈ context_states m →
  get Handle (context_states (commit m mgr)) (Handle s)
  = [committed Handle (context_state_updates mgr) s].
Proof.
  intros HI Hs. cbn [commit context_states].
  rewrite get_app, get_apply_updates by done.
  rewrite (get_unique Handle _ s Hnd Hs).
  rewrite (get_nil_not_key Handle (added_states mgr)) by (by apply added_not_stored).
  done.
Qed.

Lemma commit_added mgr a :
  Inv m mgr → a ∈ added_states mgr →
  get Handle (context_states (commit m mgr)) (Handle a) = [a].
Proof.
  intros HI Ha. cbn [commit context_states].
  rewrite get_app, get_apply_updates by done.
  rewrite (get_nil_not_key Handle (context_states m)) by (by apply (inv_added _ _ HI)).
  cbn [map app]. apply get_unique; [apply HI|done].
Qed.

Lemma committed_disassociated mgr s :
  was_disassociated m s (view mgr s) →
  was_disassociated m s (committed Handle (context_state_updates mgr) s).
Proof. unfold committed, view. by destruct (get _ _ _). Qed.

End new_context_state_facts.

(** C4, as the code has it.  A proposed state is taken for a new one exactly
    when its Handle equals its descriptor handle.  The effect runs the whole
    request in one transaction.  On a store with pairwise different handles
    it succeeds exactly when every proposed state that is not new names a
    stored state, and the generated handles '{descriptorHandle}_{mdibVersion}'
    of the new ones are not in the store and pairwise different (so a request
    with two new states of one descriptor fails); when it fails the mdib is
    what it was.  When it succeeds, the store holds every new state under its
    generated handle, with BindingMdibVersion the mdib version,
    BindingStartTime the clock reading at its turn and ContextAssociation
    ASSOCIATED; every state that the store held for the descriptor of a new
    state is DISASSOCIATED, with UnbindingMdibVersion and BindingEndTime set
    where UnbindingMdibVersion was unset and kept where it was set; and a
    stored state that no proposed state names, and that no new state of its
    descriptor finds in need of disassociation, is what it was. *)
Theorem new_context_state_disassociates_siblings
    (operation_instance : OperationDefinition) (e : Env)
    (proposed_context_states : list StateContainer) :
  let m := the_mdib e in
  op_class operation_instance = _SetContextStateOperation →
  NoDup (map Handle (context_states m)) →
  ((∃ e', _set_context_state operation_instance proposed_context_states e
          = (operation_instance, e', Ok ()))
   ↔ (∀ q, q ∈ proposed_context_states → ¬ is_new q →
           Handle q ∈ map Handle (context_states m))
     ∧ (∀ q, q ∈ proposed_context_states → is_new q →
           Some (generated_handle m q) ∉ map Handle (context_states m))
     ∧ NoDup (map (generated_handle m) (filter is_new proposed_context_states)))
  ∧ (∀ e' ex, _set_context_state operation_instance proposed_context_states e
              = (operation_instance, e', Err ex) → the_mdib e' = m)
  ∧ ∀ e', _set_context_state operation_instance proposed_context_states e
          = (operation_instance, e', Ok ()) →
      (∀ before p after,
         proposed_context_states = before ++ p :: after → is_new p →
         ∃ mgr e_p,
           set_context_states operation_instance m begin_transaction e before
           = (mgr, e_p, Ok ())
           ∧ get Handle (context_states (the_mdib e')) (Some (generated_handle m p))
             = [set_binding p (Some (generated_handle m p)) (Some pmtypes.ASSOCIATED)
                  (Some (mdib_version m)) (UnbindingMdibVersion p)
                  (Some (clock e (ticks e_p))) (BindingEndTime p)]
           ∧ ∀ old, old ∈ context_states m →
               descriptorHandle old = descriptorHandle p →
               ∃ old',
                 get Handle (context_states (the_mdib e')) (Handle old) = [old']
                 ∧ ContextAssociation old' = Some pmtypes.DISASSOCIATED
                 ∧ (UnbindingMdibVersion old = None →
                    UnbindingMdibVersion old' = Some (mdib_version m)
                    ∧ is_Some (BindingEndTime old'))
                 ∧ (is_Some (UnbindingMdibVersion old) →
                    UnbindingMdibVersion old' = UnbindingMdibVersion old
                    ∧ BindingEndTime old' = BindingEndTime old))
      ∧ (∀ old, old ∈ context_states m →
           (∀ q, q ∈ proposed_context_states → ¬ is_new q → Handle q ≠ Handle old) →
           (∀ q, q ∈ proposed_context_states → is_new q →
                 descriptorHandle q = descriptorHandle old → ¬ needs_disassociation old) →
           get Handle (context_states (the_mdib e')) (Handle old) = [old]).
Proof.
  intros m Hclass Hnd.
  destruct (run_spec operation_instance m Hclass Hnd proposed_context_states
              begin_transaction e (Inv_begin m))
    as (mgr' & e1 & r & Hrun & Hm1 & Hc1 & Hiff & Hfacts).
  unfold _set_context_state. fold m. rewrite Hrun.
  assert (accepted m begin_transaction proposed_context_states
          ↔ (∀ q, q ∈ proposed_context_states → ¬ is_new q →
                  Handle q ∈ map Handle (context_states m))
            ∧ (∀ q, q ∈ proposed_context_states → is_new q →
                  Some (generated_handle m q) ∉ map Handle (context_states m))
            ∧ NoDup (map (generated_handle m) (filter is_new proposed_context_states)))
    as Hacc.
  { unfold accepted. cbn [added_states begin_transaction]. by rewrite app_nil_r. }
  split; [|split].
  - rewrite <- Hacc, <- Hiff. split.
    + intros [e' He']. by destruct r as [[]|ex].
    + intros ->. by eexists.
  - intros e' ex He'. destruct r as [[]|ex']; [discriminate He'|].
    injection He' as <- _. exact Hm1.
  - intros e' He'. destruct r as [[]|ex']; [|discriminate He'].
    injection He' as <-. destruct (Hfacts eq_refl) as (HI' & _ & Hkeep).
    cbn [the_mdib set_mdib_of]. split.
    + intros before p after -> Hp.
      rewrite run_app in Hrun.
      destruct (run_spec operation_instance m Hclass Hnd before begin_transaction e
                  (Inv_begin m))
        as (mgr_b & e_b & r_b & Hrun_b & _ & Hc_b & _ & Hfacts_b).
      rewrite Hrun_b in Hrun. destruct r_b as [[]|ex]; [|discriminate Hrun].
      destruct (Hfacts_b eq_refl) as (HI_b & _ & _).
      cbn [set_context_states] in Hrun.
      destruct (step_new operation_instance m Hclass Hnd p mgr_b e_b Hp HI_b)
        as [Hfail Hok].
      destruct (decide (Some (generated_handle m p)
                        ∈ map Handle (context_states m ++ added_states mgr_b)))
        as [Hin|Hnot].
      { destruct (Hfail Hin) as [ex Hex]. rewrite Hex in Hrun. discriminate Hrun. }
      destruct (Hok Hnot) as (mgr1 & e1' & Hstep & HI1 & Hadd1 & _ & _ & _).
      rewrite Hstep in Hrun.
      destruct (run_spec operation_instance m Hclass Hnd after mgr1 e1' HI1)
        as (mgr2 & e2 & r2 & Hrun2 & _ & _ & _ & Hfacts2).
      rewrite Hrun2 in Hrun. injection Hrun as Hmgr He Hr. subst mgr2 e2 r2.
      destruct (Hfacts2 eq_refl) as (_ & [news Hnews] & _).
      exists mgr_b, e_b. split; [done|]. split.
      * rewrite <- Hc_b.
        change (set_binding p (Some (generated_handle m p)) (Some pmtypes.ASSOCIATED)
                  (Some (mdib_version m)) (UnbindingMdibVersion p)
                  (Some (clock e_b (ticks e_b))) (BindingEndTime p))
          with (new_context_state m (clock e_b (ticks e_b)) p).
        change (Some (generated_handle m p))
          with (Handle (new_context_state m (clock e_b (ticks e_b)) p)).
        apply (commit_added m); [done|]. rewrite Hnews, Hadd1.
        rewrite !elem_of_app, list_elem_of_singleton. left. by right.
      * intros old Hold Hdh.
        exists (committed Handle (context_state_updates mgr') old).
        split; [by apply (commit_lookup m Hnd)|].
        apply (committed_disassociated m). destruct (Hkeep old Hold) as (_ & Hd & _).
        apply (Hd p); [|done|done]. rewrite elem_of_app. right. by left.
    + intros old Hold Hu Hn. rewrite (commit_lookup m Hnd) by done.
      destruct (Hkeep old Hold) as (_ & _ & Hsame). unfold committed.
      by rewrite Hsame.
Qed.

(** C4, the claim as written fails: a proposed state whose Handle differs
    from its descriptor handle and is absent from the store creates nothing;
    the effect raises ValueError('handle ... not found'). *)
Lemma absent_handle_is_not_a_new_state :
  ¬ (∀ operation_instance e proposed_st,
       op_class operation_instance = _SetContextStateOperation →
       Handle proposed_st ∉ map Handle (context_states (the_mdib e)) →
       ∃ e', _set_context_state operation_instance [proposed_st] e
             = (operation_instance, e', Ok ())).
Proof.
  intros H.
  destruct (H examples.set_context_op examples.context_env examples.proposed_unknown eq_refl)
    as [e' He'].
  - apply (bool_decide_unpack _). vm_compute. exact I.
  - vm_compute in He'. discriminate He'.
Qed.

Lemma new_context_state_disassociates_siblings_witness :
  ∃ e' old',
    _set_context_state examples.set_context_op
      [examples.proposed_update; examples.proposed_new] examples.context_env
    = (examples.set_context_op, e', Ok ())
    ∧ get Handle (context_states (the_mdib e')) (Some "pc_7")
      = [set_binding examples.proposed_new (Some "pc_7") (Some pmtypes.ASSOCIATED)
           (Some 7%Z) None (Some 1000%Z) None]
    ∧ get Handle (context_states (the_mdib e')) (Some "pc_1") = [old']
    ∧ ContextAssociation old' = Some pmtypes.DISASSOCIATED
    ∧ UnbindingMdibVersion old' = Some 7%Z
    ∧ get Handle (context_states (the_mdib e')) (Some "lc_1")
      = [examples.context_state "lc" "lc_1" pmtypes.ASSOCIATED (Some 2%Z) None None]
    ∧ ¬ (∃ e'', _set_context_state examples.set_context_op
                  [examples.proposed_new; examples.proposed_new] examples.context_env
                = (examples.set_context_op, e'', Ok ())).
Proof.
  assert (NoDup (map Handle (context_states (the_mdib examples.context_env)))) as Hnd
    by (apply (bool_decide_unpack _); vm_compute; exact I).
  destruct (new_context_state_disassociates_siblings examples.set_context_op
              examples.context_env [examples.proposed_update; examples.proposed_new]
              eq_refl Hnd) as (_ & _ & Hok).
  destruct (new_context_state_disassociates_siblings examples.set_context_op
              examples.context_env [examples.proposed_new; examples.proposed_new]
              eq_refl Hnd) as ((Htwice & _) & _).
  set (e' := (_set_context_state examples.set_context_op
                [examples.proposed_update; examples.proposed_new]
                examples.context_env).1.2).
  assert (_set_context_state examples.set_context_op
            [examples.proposed_update; examples.proposed_new] examples.context_env
          = (examples.set_context_op, e', Ok ())) as Heffect
    by (vm_compute; reflexivity).
  destruct (Hok e' Heffect) as [Hnew Hsame].
  destruct (Hnew [examples.proposed_update] examples.proposed_new [] eq_refl eq_refl)
    as (mgr & e_p & Hpre & Hget & Hsib).
  assert (ticks e_p = 0) as Hticks
    by (vm_compute in Hpre; injection Hpre as _ <-; reflexivity).
  rewrite Hticks in Hget.
  destruct (Hsib (examples.context_state "pc" "pc_1" pmtypes.ASSOCIATED (Some 3%Z)
                    None None)) as (old' & Hold' & Hassoc & Hunb & _).
  { cbn [examples.context_env examples.context_mdib the_mdib context_states]. by left. }
  { reflexivity. }
  exists e', old'. split; [exact Heffect|]. split; [exact Hget|].
  split; [exact Hold'|]. split; [exact Hassoc|]. split; [exact (proj1 (Hunb eq_refl))|].
  split.
  - apply (Hsame (examples.context_state "lc" "lc_1" pmtypes.ASSOCIATED (Some 2%Z)
                    None None)).
    + cbn [examples.context_env examples.context_mdib the_mdib context_states].
      right. right. by left.
    + intros q [->|[->|Hq%elem_of_nil]%elem_of_cons]%elem_of_cons Hq'; [|done..].
      discriminate.
    + intros q [->|[->|Hq%elem_of_nil]%elem_of_cons]%elem_of_cons _ Hdh;
        [discriminate Hdh..|done].
  - intros Hex. destruct (Htwice Hex) as (_ & _ & Hdup).
    revert Hdup. apply (bool_decide_unpack _). vm_compute. exact I.
Defined.

(** C9.  A proposed state whose Handle differs from its descriptor handle
    and is found in the store updates the state of that Handle: the working
    copy that the transaction holds after the merge has ContextAssociation,
    BindingMdibVersion, UnbindingMdibVersion, BindingStartTime, BindingEndTime
    and StateVersion of the stored state, and the other declared fields of
    the proposed state.  Commit then files the copy in the store, with the
    state version incremented. *)
Theorem update_keeps_association_binding_and_version
    (operation_instance : OperationDefinition) (e : Env)
    (proposed_st old : StateContainer) (handle : string) :
  op_class operation_instance = _SetContextStateOperation →
  Handle proposed_st = Some handle →
  handle ≠ descriptorHandle proposed_st →
  get Handle (context_states (the_mdib e)) (Some handle) = [old] →
  ∃ merged,
    set_one_context_state operation_instance (the_mdib e) begin_transaction e proposed_st
    = (mkTransaction [] [merged] [], e, Ok ())
    ∧ (ContextAssociation merged = ContextAssociation old
       ∧ BindingMdibVersion merged = BindingMdibVersion old
       ∧ UnbindingMdibVersion merged = UnbindingMdibVersion old
       ∧ BindingStartTime merged = BindingStartTime old
       ∧ BindingEndTime merged = BindingEndTime old
       ∧ StateVersion merged = StateVersion old)
    ∧ (descriptorHandle merged = descriptorHandle proposed_st
       ∧ Handle merged = Handle proposed_st
       ∧ metricValue merged = metricValue proposed_st
       ∧ OperatingMode merged = OperatingMode proposed_st
       ∧ filter (fun kv => fst kv ∉ skipped_properties) (payload merged)
         = filter (fun kv => fst kv ∉ skipped_properties) (payload proposed_st))
    ∧ _set_context_state operation_instance [proposed_st] e
      = (operation_instance,
         set_mdib_of e (commit (the_mdib e) (mkTransaction [] [merged] [])), Ok ())
    ∧ get Handle
        (context_states (commit (the_mdib e) (mkTransaction [] [merged] [])))
        (Some handle)
      = [increment_state_version merged].
Proof.
  intros Hclass Hhandle Hne Hold.
  exists (update_from_other_container old proposed_st skipped_properties).
  assert (set_one_context_state operation_instance (the_mdib e) begin_transaction e
            proposed_st
          = (mkTransaction []
               [update_from_other_container old proposed_st skipped_properties] [],
             e, Ok ())) as Hone.
  { unfold set_one_context_state.
    rewrite bool_decide_true by (rewrite Hhandle; congruence).
    unfold operation_target_storage. rewrite Hclass, Hhandle.
    unfold get_one. rewrite Hold. cbn [mbind result_bind].
    unfold get_context_state. cbn [context_state_updates added_states begin_transaction app].
    unfold get at 1. rewrite filter_nil.
    rewrite (get_the_one_singleton _ _ _ _ Hold).
    unfold put_context_state. cbn [added_states begin_transaction map].
    rewrite bool_decide_false by apply not_elem_of_nil. reflexivity. }
  split; [exact Hone|]. split; [by repeat split|]. split.
  { repeat split.
    cbn [payload update_from_other_container]. rewrite filter_app.
    rewrite !list_filter_filter.
    assert (filter (fun kv : string * string =>
                      (fst kv ∉ skipped_properties) ∧ (fst kv ∈ skipped_properties))
                   (payload old) = []) as ->.
    { induction (payload old) as [|a l IH]; [done|].
      rewrite filter_cons, decide_False by (intros [? ?]; done). done. }
    simpl. apply list_filter_iff. intros kv. tauto. }
  split.
  - unfold _set_context_state, set_context_states. by rewrite Hone.
  - cbn [commit context_states context_state_updates added_states].
    rewrite app_nil_r, get_apply_updates by done. rewrite Hold. cbn [map].
    rewrite committed_single; [done|].
    change (Handle (update_from_other_container old proposed_st skipped_properties))
      with (Handle proposed_st).
    rewrite Hhandle. symmetry. by apply (get_singleton_key Handle _ _ _ Hold).
Qed.

Lemma update_keeps_association_binding_and_version_witness :
  ∃ merged,
    set_one_context_state examples.set_context_op examples.context_mdib begin_transaction
      examples.context_env examples.proposed_update
    = (mkTransaction [] [merged] [], examples.context_env, Ok ())
    ∧ ContextAssociation merged = Some pmtypes.ASSOCIATED
    ∧ BindingMdibVersion merged = Some 3%Z
    ∧ UnbindingMdibVersion merged = None
    ∧ StateVersion merged = 2%Z
    ∧ payload merged = [("Validator", "v9")].
Proof.
  destruct (update_keeps_association_binding_and_version examples.set_context_op
              examples.context_env examples.proposed_update
              (examples.context_state "pc" "pc_1" pmtypes.ASSOCIATED (Some 3%Z) None None)
              "pc_1" eq_refl eq_refl)
    as (merged & Hone & (H1 & H2 & H3 & _ & _ & H6) & (_ & _ & _ & _ & Hp) & _).
  - discriminate.
  - reflexivity.
  - exists merged. split; [exact Hone|]. split; [exact H1|]. split; [exact H2|].
    split; [exact H3|]. split; [exact H6|].
    injection Hone as <-. reflexivity.
Defined.
End context_facts.

(** ** The tree of descriptor containers *)

Section descriptor_tree_facts.
Import descriptorcontainers.

Lemma DescriptorContainer_tree_ind (P : DescriptorContainer → Prop) :
  (∀ c h p a by_type,
     Forall (fun kv => Forall P (snd kv)) by_type →
     P (mkDescriptorContainer c h p a by_type)) →
  ∀ d, P d.
Proof.
  intros H. fix IH 1. intros [c h p a by_type]. apply H.
  revert by_type. fix IHitems 1. intros [|[k l] rest]; constructor.
  - simpl. revert l. fix IHl 1. intros [|x l]; constructor; [apply IH|apply IHl].
  - apply IHitems.
Qed.

Lemma getContainerClass_elem q c :
  getContainerClass q = Some c → (q, c) ∈ _name_class_lookup.
Proof.
  unfold getContainerClass. intros H.
  apply fmap_Some in H as ([i [q' c']] & Hfind & ->).
  apply list_find_Some in Hfind as (Hi & Hq & _). simpl in *. subst q'.
  by eapply list_elem_of_lookup_2.
Qed.

(** X1. The table behind [getContainerClass] has no tag twice; looking up
    the [NODETYPE] of a class gives that class back; and a class that a tag
    resolves to has that tag as its [NODETYPE], or the tag with
    ["Descriptor"] appended (the second, short key of its entry). *)
Theorem getContainerClass_inverts_NODETYPE :
  NoDup (map fst _name_class_lookup)
  ∧ (∀ c q, NODETYPE c = Some q → getContainerClass q = Some c)
  ∧ (∀ q c, getContainerClass q = Some c →
       NODETYPE c = Some q
       ∨ NODETYPE c = Some (domTag (localname q +:+ "Descriptor"))).
Proof.
  split; [|split].
  - apply (bool_decide_unpack _). vm_compute. exact I.
  - intros c q. destruct c; simpl; intros [= <-]; reflexivity.
  - intros q c H. apply getContainerClass_elem in H.
    unfold _name_class_lookup in H.
    repeat (apply elem_of_cons in H as [H|H];
            [injection H as -> ->; (by left) || (by right)|]).
    by apply elem_of_nil in H.
Qed.

Lemma getContainerClass_inverts_NODETYPE_witness :
  getContainerClass (domTag "ClockDescriptor") = Some ClockDescriptorContainer
  ∧ (NODETYPE ClockDescriptorContainer = Some (domTag "Clock")
     ∨ NODETYPE ClockDescriptorContainer
       = Some (domTag (localname (domTag "Clock") +:+ "Descriptor"))).
Proof.
  split.
  - apply (proj1 (proj2 getContainerClass_inverts_NODETYPE)). reflexivity.
  - apply (proj2 (proj2 getContainerClass_inverts_NODETYPE)). reflexivity.
Defined.

(** X2. The declarations of a class start with those of its base class, in
    the same order, followed by its own [_children]; so every class declares
    [ext:Extension] and [pm:Type] first. *)
Theorem sorted_child_declarations_base_first :
  (∀ c b, base c = Some b →
     sorted_child_declarations c
     = sorted_child_declarations b ++ default [] (_children c))
  ∧ (∀ c, take 2 (qnames c) = [extTag "Extension"; domTag "Type"]).
Proof.
  split.
  - intros c b. destruct c; simpl; intros [= <-]; reflexivity.
  - intros c. destruct c; reflexivity.
Qed.

Lemma sorted_child_declarations_base_first_witness :
  sorted_child_declarations MdsDescriptorContainer
  = sorted_child_declarations AbstractComplexDeviceComponentDescriptorContainer
    ++ [ ChildElem (domTag "MetaData");
         ChildConts (domTag "SystemContext") [domTag "SystemContextDescriptor"];
         ChildConts (domTag "Clock") [domTag "ClockDescriptor"];
         ChildConts (domTag "Battery") [domTag "BatteryDescriptor"];
         ChildElem (domTag "ApprovedJurisdictions");
         ChildConts (domTag "Vmd") [domTag "VmdDescriptor"] ].
Proof.
  apply (proj1 sorted_child_declarations_base_first MdsDescriptorContainer). reflexivity.
Defined.

Lemma regroup_idempotent declared node :
  NoDup declared →
  regroup declared (regroup declared node) = regroup declared node.
Proof.
  intros Hnd. unfold regroup at 1 3.
  assert (∀ ds, ds ⊆ declared →
            flat_map (fun qname => filter (fun n => tag n = qname) (regroup declared node)) ds
            = flat_map (fun qname => filter (fun n => tag n = qname) node) ds) as H.
  { induction ds as [|q ds IH]; intros Hsub; [done|]. simpl.
    rewrite regroup_stable by (done || (apply Hsub; by left)).
    f_equal. apply IH. intros x Hx. apply Hsub. by right. }
  by apply H.
Qed.

(** X3. Sorting a node that [_sort_child_nodes] has sorted changes nothing;
    sorting keeps the tag and the attributes of the node and, for every
    tag, the sub-elements with that tag in the order they had. *)
Theorem sort_child_nodes_idempotent_stable (c : DescriptorClass) (node sorted : Element) :
  _sort_child_nodes c node = Ok sorted →
  _sort_child_nodes c sorted = Ok sorted
  ∧ tag sorted = tag node ∧ attrib sorted = attrib node
  ∧ ∀ q, filter (fun n => tag n = q) (subelements sorted)
         = filter (fun n => tag n = q) (subelements node).
Proof.
  intros H. apply _sort_child_nodes_Ok in H as [Hall ->]. cbn [tag attrib subelements].
  split; [|split; [done|split; [done|]]].
  - rewrite _sort_child_nodes_total; cbn [tag attrib subelements].
    + by rewrite regroup_idempotent by apply qnames_NoDup.
    + apply Forall_forall. intros n Hn. by apply elem_of_regroup in Hn as [_ Hn].
  - intros q. destruct (decide (q ∈ qnames c)) as [Hq|Hq].
    + apply regroup_stable; [apply qnames_NoDup|done].
    + assert (∀ l, Forall (fun n => tag n ∈ qnames c) l →
                filter (fun n => tag n = q) l = []) as Hnone.
      { induction 1 as [|a l Ha _ IH]; [done|].
        rewrite filter_cons, decide_False by (intros <-; done). done. }
      rewrite !Hnone; [done|done|].
      apply Forall_forall. intros n Hn. by apply elem_of_regroup in Hn as [_ Hn].
Qed.

Lemma sort_child_nodes_idempotent_stable_witness :
  _sort_child_nodes MdsDescriptorContainer examples.node_vmd_clock
  = Ok examples.node_vmd_clock.
Proof.
  apply (sort_child_nodes_idempotent_stable MdsDescriptorContainer
           (mkElement (domTag "Mds") [("Handle", "mds")]
              [ mkElement (domTag "Type") [] []; mkElement (extTag "Extension") [] [];
                mkElement (domTag "Vmd") [("Handle", "vmd")] [];
                mkElement (domTag "Clock") [("Handle", "clock")] [] ])).
  reflexivity.
Defined.

Lemma find_child_qname_declared node_type decls q :
  find_child_qname node_type decls = Some q → q ∈ map child_qname decls.
Proof.
  induction decls as [|ch rest IH]; simpl; [discriminate|].
  destruct (node_types_of ch) as [ts|], node_type as [nt|];
    try (intros H; right; by apply IH).
  case_bool_decide as Hts.
  - intros [= <-]. by left.
  - intros H. right. by apply IH.
Qed.

Lemma _tag_name_for_child_descriptor_declared c node_type t :
  _tag_name_for_child_descriptor c node_type = Ok t → t ∈ qnames c.
Proof.
  unfold _tag_name_for_child_descriptor.
  destruct (find_child_qname _ _) as [q|] eqn:Hf; [|discriminate].
  intros [= <-]. by apply find_child_qname_declared in Hf.
Qed.

Lemma mk_descriptor_node_tag d t sx connect node :
  mk_descriptor_node d t sx connect = Ok node → tag node = t.
Proof.
  rewrite mk_descriptor_node_unfold.
  destruct (if connect then _ else _) as [children|e]; [|discriminate].
  cbn [mbind result_bind]. intros H. by apply _sort_child_nodes_Ok in H as [_ ->].
Qed.

Lemma is_Ok_sort_child_nodes c node :
  is_Ok (_sort_child_nodes c node)
  = forallb (fun n => bool_decide (tag n ∈ qnames c)) (subelements node).
Proof.
  destruct (forallb _ _) eqn:Hall.
  - rewrite _sort_child_nodes_total; [done|].
    apply Forall_forall. intros n Hn.
    rewrite forallb_forall in Hall. apply list_elem_of_In, Hall in Hn.
    by apply bool_decide_eq_true_1 in Hn.
  - destruct (_sort_child_nodes c node) as [s|e] eqn:Hs; [|done].
    apply _sort_child_nodes_Ok in Hs as [Hs _].
    assert (forallb (fun n => bool_decide (tag n ∈ qnames c)) (subelements node) = true)
      as Ht; [|congruence].
    apply forallb_forall. intros n Hn. apply bool_decide_eq_true_2.
    rewrite Forall_forall in Hs. by apply Hs, list_elem_of_In.
Qed.

Lemma append_child_nodes_is_Ok {A} (mk_child : A → result Element) t l acc :
  (∀ child n, child ∈ l → mk_child child = Ok n → tag n = t) →
  match append_child_nodes mk_child l acc with
  | Ok r =>
      forallb (fun child => is_Ok (mk_child child)) l = true
      ∧ ∃ nodes, r = acc ++ nodes ∧ Forall (fun n => tag n = t) nodes
  | Err _ => forallb (fun child => is_Ok (mk_child child)) l = false
  end.
Proof.
  revert acc. induction l as [|a l IH]; intros acc Htag; simpl.
  - split; [done|]. exists []. by rewrite app_nil_r.
  - destruct (mk_child a) as [n|e] eqn:Ha; [|done]. simpl.
    specialize (IH (acc ++ [n])).
    destruct (append_child_nodes mk_child l (acc ++ [n])) as [r|e].
    + destruct IH as (Hall & nodes & -> & Htags).
      { intros child n' Hc. apply Htag. by right. }
      split; [done|]. exists (n :: nodes). split; [by rewrite <- app_assoc|].
      constructor; [|done]. eapply Htag; [by left|done].
    + apply IH. intros child n' Hc. apply Htag. by right.
Qed.

Lemma append_children_by_type_is_Ok {A} tag_for (mk_child : QName → A → result Element)
    (ok : A → bool) (declared : list QName) items acc :
  (∀ k t, tag_for k = Ok t → t ∈ declared) →
  Forall (fun kv => Forall (fun child => ∀ t,
            is_Ok (mk_child t child) = ok child
            ∧ ∀ n, mk_child t child = Ok n → tag n = t) (snd kv)) items →
  match append_children_by_type tag_for mk_child items acc with
  | Ok r =>
      forallb (fun kv => is_Ok (tag_for (fst kv)) && forallb ok (snd kv)) items = true
      ∧ ∃ nodes, r = acc ++ nodes ∧ Forall (fun n => tag n ∈ declared) nodes
  | Err _ =>
      forallb (fun kv => is_Ok (tag_for (fst kv)) && forallb ok (snd kv)) items = false
  end.
Proof.
  intros Hdecl Hitems. revert acc.
  induction Hitems as [|[k l] items Hl _ IH]; intros acc; simpl.
  - split; [done|]. exists []. by rewrite app_nil_r.
  - destruct (tag_for k) as [t|e] eqn:Hk; [|done]. simpl.
    assert (forallb ok l = forallb (fun child => is_Ok (mk_child t child)) l) as Hok.
    { simpl in Hl. clear -Hl. induction Hl as [|a l Ha _ IHl]; [done|].
      simpl. rewrite IHl. by destruct (Ha t) as [-> _]. }
    assert (∀ child n, child ∈ l → mk_child t child = Ok n → tag n = t) as Htag.
    { intros child n Hchild. simpl in Hl. rewrite Forall_forall in Hl.
      apply (Hl child Hchild t). }
    pose proof (append_child_nodes_is_Ok (mk_child t) t l acc Htag) as Hc.
    destruct (append_child_nodes (mk_child t) l acc) as [acc'|e].
    + destruct Hc as (Hall & nodes1 & -> & Htags).
      simpl. specialize (IH (acc ++ nodes1)).
      destruct (append_children_by_type tag_for mk_child items (acc ++ nodes1)) as [r|e].
      * destruct IH as (Hrest & nodes2 & -> & Htags2).
        rewrite Hok, Hall, Hrest. split; [done|].
        exists (nodes1 ++ nodes2). split; [by rewrite <- app_assoc|].
        apply Forall_app. split; [|done].
        eapply Forall_impl; [exact Htags|]. intros n ->. by eapply Hdecl.
      * rewrite Hok, Hall. done.
    + simpl. rewrite Hok, Hc. done.
Qed.

(** X4. [mk_descriptor_node] with [connectChildNodes] returns a node exactly
    when the container is [materializable]: the tags of its property nodes
    are declared, every key of [_child_containers_by_type] is accepted by a
    declaration, and the same holds of all descendants.  Without
    [connectChildNodes] only the property nodes count. *)
Theorem mk_descriptor_node_succeeds_iff_materializable
    (d : DescriptorContainer) (tag : QName) (setXsiType : bool) :
  is_Ok (mk_descriptor_node d tag setXsiType true) = materializable d
  ∧ is_Ok (mk_descriptor_node d tag setXsiType false)
    = forallb (fun n => bool_decide (descriptorcontainers.tag n ∈ qnames (cls d)))
              (property_nodes (properties d)).
Proof.
  split.
  - revert tag setXsiType.
    induction d as [c h p a by_type IH] using DescriptorContainer_tree_ind.
    intros tag sx. rewrite mk_descriptor_node_unfold.
    cbn [cls properties _child_containers_by_type Handle materializable].
    pose proof (append_children_by_type_is_Ok
                  (_tag_name_for_child_descriptor c)
                  (fun child_tag child => mk_descriptor_node child child_tag true true)
                  materializable (qnames c) by_type (property_nodes a)
                  (_tag_name_for_child_descriptor_declared c)) as Hc.
    destruct (append_children_by_type _ _ _ _) as [children|e].
    + destruct Hc as (Hall & nodes & -> & Htags).
      { eapply Forall_impl; [exact IH|]. intros kv Hkv.
        eapply Forall_impl; [exact Hkv|]. intros child Hchild t.
        split; [apply Hchild|]. intros n. apply mk_descriptor_node_tag. }
      cbn [mbind result_bind]. rewrite is_Ok_sort_child_nodes. cbn [subelements].
      rewrite Hall, andb_true_r, forallb_app.
      assert (forallb (fun n => bool_decide (descriptorcontainers.tag n ∈ qnames c)) nodes
              = true) as ->; [|by rewrite andb_true_r].
      apply forallb_forall. intros n Hn. apply bool_decide_eq_true_2.
      rewrite Forall_forall in Htags. by apply Htags, list_elem_of_In.
    + cbn [mbind result_bind is_Ok]. rewrite Hc; [by rewrite andb_false_r|].
      eapply Forall_impl; [exact IH|]. intros kv Hkv.
      eapply Forall_impl; [exact Hkv|]. intros child Hchild t.
      split; [apply Hchild|]. intros n. apply mk_descriptor_node_tag.
  - rewrite mk_descriptor_node_unfold. cbn [mbind result_bind].
    by rewrite is_Ok_sort_child_nodes.
Qed.

Lemma dict_get_update_ne {V} key (f : list V → list V) (d : list (option QName * list V)) k :
  k ≠ key → dict_get k (dict_update key f d) = dict_get k d.
Proof.
  intros Hne. induction d as [|[k0 v] d IH]; simpl.
  - by rewrite decide_False by done.
  - destruct (decide (k0 = key)) as [->|Hk0]; simpl.
    + by rewrite !decide_False by done.
    + destruct (decide (k0 = k)); [done|apply IH].
Qed.

Lemma rmChild_loop_absent handle skip l :
  handle ∉ map Handle l → rmChild_loop handle skip l = l.
Proof.
  revert skip. induction l as [|c l IH]; intros skip Hnot; [done|]. simpl in *.
  apply not_elem_of_cons in Hnot as [Hc Hl].
  destruct skip; [by rewrite IH|].
  rewrite decide_False by done. by rewrite IH.
Qed.

Lemma filter_absent handle l :
  handle ∉ map Handle l → filter (fun c => Handle c ≠ handle) l = l.
Proof.
  induction l as [|c l IH]; intros Hnot; [done|]. simpl in *.
  apply not_elem_of_cons in Hnot as [Hc Hl].
  rewrite filter_cons, decide_True by done. by rewrite IH.
Qed.

Lemma rmChild_loop_distinct handle l :
  NoDup (map Handle l) →
  rmChild_loop handle false l = filter (fun c => Handle c ≠ handle) l.
Proof.
  induction l as [|c l IH]; intros Hnd; [done|]. simpl in *.
  apply NoDup_cons in Hnd as [Hc Hnd]. rewrite filter_cons.
  destruct (decide (Handle c = handle)) as [<-|Hne].
  - rewrite decide_False by (intros H; done).
    rewrite rmChild_loop_absent by done. by rewrite filter_absent.
  - rewrite decide_True by done. by rewrite IH.
Qed.

Lemma rmChild_loop_same handle l :
  Forall (fun c => Handle c = handle) l →
  length (rmChild_loop handle false l) = Nat.div2 (length l)
  ∧ length (rmChild_loop handle true l) = Nat.div2 (S (length l)).
Proof.
  induction 1 as [|c l Hc _ [IH1 IH2]]; [done|]. simpl rmChild_loop.
  rewrite decide_True by done. split; [exact IH2|].
  cbn [length]. rewrite IH1. done.
Qed.

(** X5. When the children of the child's type have pairwise distinct
    handles, [rmChild] removes exactly the child with the given handle from
    that list, and leaves the other lists, the class, the handle and the
    properties of the parent as they were. *)
Theorem rmChild_removes_the_child (self child : DescriptorContainer) :
  isMetricDescriptor (cls self) = false →
  NoDup (map Handle (default [] (dict_get (NODETYPE (cls child))
                                          (_child_containers_by_type self)))) →
  ∃ self',
    rmChild self child = Ok self'
    ∧ dict_get (NODETYPE (cls child)) (_child_containers_by_type self')
      = Some (filter (fun c => Handle c ≠ Handle child)
                (default [] (dict_get (NODETYPE (cls child))
                               (_child_containers_by_type self))))
    ∧ (∀ k, k ≠ NODETYPE (cls child) →
         dict_get k (_child_containers_by_type self')
         = dict_get k (_child_containers_by_type self))
    ∧ cls self' = cls self ∧ Handle self' = Handle self
    ∧ properties self' = properties self.
Proof.
  intros Hm Hnd. unfold rmChild. rewrite Hm. eexists. split; [done|].
  destruct self as [c h p a k]. cbn. split; [|split; [|done]].
  - rewrite (dict_get_update _ (rmChild_loop (Handle child) false)).
    by rewrite rmChild_loop_distinct.
  - intros k0 Hk0. by apply dict_get_update_ne.
Qed.

(** X6. [rmChild] removes from the list it iterates over: when all children
    of the type carry the handle of the child, the element after each removed
    one is skipped, and half of them (rounded down) remain. *)
Theorem rmChild_removes_every_other (self child : DescriptorContainer) :
  isMetricDescriptor (cls self) = false →
  Forall (fun c => Handle c = Handle child)
         (default [] (dict_get (NODETYPE (cls child)) (_child_containers_by_type self))) →
  ∃ self' remaining,
    rmChild self child = Ok self'
    ∧ dict_get (NODETYPE (cls child)) (_child_containers_by_type self') = Some remaining
    ∧ length remaining
      = Nat.div2 (length (default [] (dict_get (NODETYPE (cls child))
                                                (_child_containers_by_type self)))).
Proof.
  intros Hm Hall. unfold rmChild. rewrite Hm.
  destruct self as [c h p a k]. cbn in *. eexists _, _. split; [done|]. split.
  - apply (dict_get_update _ (rmChild_loop (Handle child) false)).
  - by apply rmChild_loop_same.
Qed.

Lemma flatten_dict_update_same {A} key (f : list A → list A)
    (d : list (option QName * list A)) :
  f (default [] (dict_get key d)) = default [] (dict_get key d) →
  flatten (dict_update key f d) = flatten d.
Proof.
  induction d as [|[k v] d IH]; simpl; intros Hf.
  - unfold flatten. simpl. by rewrite Hf.
  - destruct (decide (k = key)) as [->|Hne]; unfold flatten in *; simpl in *.
    + by rewrite Hf.
    + by rewrite IH.
Qed.

(** X7. [addChild] followed by [rmChild] of a child whose handle was not yet
    there restores the list of the child's type and touches no other list;
    the key of the type stays in [_child_containers_by_type], so for a type
    that the parent does not declare the node can no longer be made. *)
Theorem addChild_then_rmChild (self child : DescriptorContainer) :
  isMetricDescriptor (cls self) = false →
  Handle child
  ∉ map Handle (default [] (dict_get (NODETYPE (cls child))
                                     (_child_containers_by_type self))) →
  ∃ self1 self2,
    addChild self child = Ok self1
    ∧ rmChild self1 child = Ok self2
    ∧ dict_get (NODETYPE (cls child)) (_child_containers_by_type self2)
      = Some (default [] (dict_get (NODETYPE (cls child))
                            (_child_containers_by_type self)))
    ∧ (∀ k, k ≠ NODETYPE (cls child) →
         dict_get k (_child_containers_by_type self2)
         = dict_get k (_child_containers_by_type self))
    ∧ (is_Ok (_tag_name_for_child_descriptor (cls self) (NODETYPE (cls child))) = false →
       ∀ tag setXsiType, is_Ok (mk_descriptor_node self2 tag setXsiType true) = false).
Proof.
  intros Hm Hnot. destruct self as [c h p a k]. cbn [cls _child_containers_by_type] in *.
  set (key := NODETYPE (cls child)) in *.
  exists (mkDescriptorContainer c h p a (dict_update key (fun l => l ++ [child]) k)),
         (mkDescriptorContainer c h p a
            (dict_update key (rmChild_loop (Handle child) false)
               (dict_update key (fun l => l ++ [child]) k))).
  split; [unfold addChild; cbn [cls]; by rewrite Hm|].
  split; [unfold rmChild; cbn [cls]; by rewrite Hm|].
  cbn [cls _child_containers_by_type]. split; [|split].
  - rewrite (dict_get_update _ (rmChild_loop (Handle child) false)).
    rewrite (dict_get_update _ (fun l => l ++ [child])). f_equal.
    set (l := default [] (dict_get key k)) in *.
    change (rmChild_loop (Handle child) false (l ++ [child]) = l).
    clear -Hnot. induction l as [|x l IH]; simpl.
    + by rewrite decide_True.
    + apply not_elem_of_cons in Hnot as [Hx Hl]. rewrite decide_False by done.
      by rewrite IH.
  - intros k0 Hk0. by rewrite !dict_get_update_ne.
  - intros Hunknown tag sx. rewrite mk_descriptor_node_unfold.
    cbn [cls _child_containers_by_type properties].
    pose proof (append_children_by_type_unknown
                  (_tag_name_for_child_descriptor c)
                  (fun child_tag child => mk_descriptor_node child child_tag true true)
                  (dict_update key (rmChild_loop (Handle child) false)
                     (dict_update key (fun l => l ++ [child]) k))
                  (property_nodes a)) as Hu.
    destruct (append_children_by_type _ _ _ _); [|done].
    discriminate Hu. apply Exists_exists.
    pose proof (dict_update_has_key key (rmChild_loop (Handle child) false)
                  (dict_update key (fun l => l ++ [child]) k)) as Hkey.
    apply list_elem_of_fmap in Hkey as (kv & Hkv & Hin).
    exists kv. split; [done|]. by rewrite <- Hkv.
Qed.

Lemma rmChild_removes_the_child_witness :
  ∃ self', rmChild examples.mds_vmd_clock examples.vmd = Ok self'
           ∧ dict_get (Some (domTag "VmdDescriptor")) (_child_containers_by_type self')
             = Some []
           ∧ dict_get (Some (domTag "ClockDescriptor")) (_child_containers_by_type self')
             = Some [examples.clock].
Proof.
  destruct (rmChild_removes_the_child examples.mds_vmd_clock examples.vmd)
    as (self' & Hrm & Hsame & Hother & _).
  - reflexivity.
  - apply (bool_decide_unpack _). vm_compute. exact I.
  - exists self'. split; [exact Hrm|]. split; [exact Hsame|].
    rewrite (Hother (Some (domTag "ClockDescriptor"))); [reflexivity|discriminate].
Defined.

Lemma rmChild_removes_every_other_witness :
  ∃ self' remaining,
    rmChild examples.mds_vmd_vmd examples.vmd = Ok self'
    ∧ dict_get (Some (domTag "VmdDescriptor")) (_child_containers_by_type self')
      = Some remaining
    ∧ length remaining = 1.
Proof.
  destruct (rmChild_removes_every_other examples.mds_vmd_vmd examples.vmd)
    as (self' & remaining & Hrm & Hget & Hlen).
  - reflexivity.
  - repeat constructor.
  - by exists self', remaining.
Defined.

Lemma addChild_then_rmChild_witness :
  ∃ self1 self2,
    addChild examples.mds examples.numeric_metric = Ok self1
    ∧ rmChild self1 examples.numeric_metric = Ok self2
    ∧ dict_get (Some (domTag "NumericMetricDescriptor")) (_child_containers_by_type self2)
      = Some []
    ∧ is_Ok (mk_descriptor_node self2 (domTag "Mds") true true) = false
    ∧ is_Ok (mk_descriptor_node examples.mds (domTag "Mds") true true) = true.
Proof.
  destruct (addChild_then_rmChild examples.mds examples.numeric_metric)
    as (self1 & self2 & Hadd & Hrm & Hget & _ & Hnode).
  - reflexivity.
  - apply (bool_decide_unpack _). vm_compute. exact I.
  - exists self1, self2. split; [exact Hadd|]. split; [exact Hrm|]. split; [exact Hget|].
    split; [by apply Hnode|reflexivity].
Defined.

End descriptor_tree_facts.

(** ** Operations, the queue and the worker *)

Section operation_facts.
Import descriptorcontainers mdib sco.

(** X8. The descriptor tag of every operation class resolves back to that
    class with [get_operation_class], and to a descriptor container class
    with that [NODETYPE], the state tag of the operation class as
    [STATE_QNAME], and [AbstractOperationDescriptorContainer] among its
    bases. *)
Theorem operation_classes_resolve (c : OperationClass) (q : QName) :
  OP_DESCR_QNAME c = Some q →
  get_operation_class q = Some c
  ∧ ∃ dc, getContainerClass q = Some dc
          ∧ descriptorcontainers.NODETYPE dc = Some q
          ∧ STATE_QNAME dc = OP_STATE_QNAME c
          ∧ AbstractOperationDescriptorContainer ∈ getmro dc.
Proof.
  destruct c; simpl; intros [= <-]; (split; [reflexivity|]);
    eexists; (split; [reflexivity|]); (split; [reflexivity|]); (split; [reflexivity|]);
    apply (bool_decide_unpack _); vm_compute; exact I.
Qed.

Lemma operation_classes_resolve_witness :
  get_operation_class (domTag "SetValueOperationDescriptor") = Some _SetValueOperation
  ∧ ∃ dc, getContainerClass (domTag "SetValueOperationDescriptor") = Some dc
          ∧ descriptorcontainers.NODETYPE dc = Some (domTag "SetValueOperationDescriptor")
          ∧ STATE_QNAME dc = Some (domTag "SetValueOperationState")
          ∧ AbstractOperationDescriptorContainer ∈ getmro dc.
Proof.
  apply (operation_classes_resolve _SetValueOperation). reflexivity.
Defined.

Lemma fire_keeps_calls {A} (handlers : list (Handler A)) value op e :
  Forall keeps_calls handlers → calls (fire handlers value op e).1.1 = calls op.
Proof.
  intros Hall. revert op e. induction Hall as [|h handlers Hh _ IH]; intros op e; [done|].
  simpl. specialize (Hh op value e).
  destruct (h op value e) as [[op' e'] [[]|ex]]; simpl in *; [|done].
  by rewrite IH.
Qed.

(** X9. With handlers that leave the record of calls alone,
    [execute_operation] appends exactly one entry to [calls], the time and
    the request, whether or not it then raises; and it raises when
    [operation_request] has no attribute [argument]. *)
Theorem execute_operation_records_the_call
    (self : Operation) (request : Request) (operation_request : PyObject) (e : Env) :
  Forall keeps_calls (current_request_handlers self) →
  Forall keeps_calls (current_argument_handlers self) →
  calls (definition (execute_operation self request operation_request e).1.1)
  = calls (definition self) ++ [(clock e (ticks e), request)]
  ∧ (is_Ok (getattr_argument operation_request) = false →
     is_Ok (execute_operation self request operation_request e).2 = false).
Proof.
  intros Hreq Harg. unfold execute_operation. cbn [time_time].
  set (d2 := set_current_request _ _).
  pose proof (fire_keeps_calls (current_request_handlers self) request d2
                (mkEnv (the_mdib e) (clock e) (S (ticks e))) Hreq) as H1.
  destruct (fire (current_request_handlers self) request d2 _) as [[d3 e3] [[]|ex]];
    cbn [fst snd definition] in *; [|by split].
  destruct (getattr_argument operation_request) as [argument|ex]; [|by split].
  pose proof (fire_keeps_calls (current_argument_handlers self) argument
                (set_current_argument d3 (Some argument)) e3 Harg) as H2.
  destruct (fire (current_argument_handlers self) argument _ e3) as [[d5 e5] r].
  cbn in *. split; [by rewrite H2|done].
Qed.

Lemma execute_operation_records_the_call_witness :
  calls (definition (execute_operation examples.failing_op2 examples.set_value_request
                       (PyScalar examples.forty_two) examples.context_env).1.1)
  = [(1000%Z, examples.set_value_request)]
  ∧ is_Ok (execute_operation examples.failing_op2 examples.set_value_request
             (PyScalar examples.forty_two) examples.context_env).2 = false.
Proof.
  destruct (execute_operation_records_the_call examples.failing_op2
              examples.set_value_request (PyScalar examples.forty_two)
              examples.context_env) as [Hcalls Hraises].
  - constructor.
  - constructor; [|constructor]. intros op value e. reflexivity.
  - split; [exact Hcalls|]. apply Hraises. reflexivity.
Defined.

End operation_facts.

Section queue_facts.
Import descriptorcontainers mdib sco.

(** X10. When the queue is full, [enqueue_operation] raises [Full] after it
    has incremented [_transaction_id]: nothing is queued, and the id that
    was taken is never handed to a caller afterwards. *)
Theorem full_queue_uses_up_the_transaction_id
    (d : Device) (w : _OperationsWorker) (operation : OperationRef) (request : Request)
    (operation_request : PyObject) :
  _worker d = Some w →
  (maxsize ≤ length (_operations_queue w))%nat →
  enqueue_operation d operation request operation_request
  = (set_worker d (Some (mkWorker (_operations_queue w) (_transaction_id w + 1)
                           (terminated w))),
     Err Full)
  ∧ ∀ events,
      _transaction_id w
      ∉ snd (play events
               (set_worker d (Some (mkWorker (_operations_queue w) (_transaction_id w + 1)
                                      (terminated w))))).
Proof.
  intros Hw Hfull. split.
  - unfold enqueue_operation, worker_enqueue_operation. rewrite Hw.
    cbn [_operations_queue _transaction_id terminated].
    by rewrite bool_decide_true by done.
  - intros events Hin.
    destruct (play_ids events
                (set_worker d (Some (mkWorker (_operations_queue w) (_transaction_id w + 1)
                                       (terminated w))))
                (mkWorker (_operations_queue w) (_transaction_id w + 1) (terminated w))
                eq_refl) as [Hall _].
    rewrite Forall_forall in Hall. specialize (Hall _ Hin). simpl in Hall. lia.
Qed.

Lemma worker_step_terminated d w :
  _worker d = Some w → terminated w = true → worker_step d = None.
Proof. intros Hw Ht. unfold worker_step. by rewrite Hw, Ht. Qed.

Lemma play_terminated events : ∀ d w,
  _worker d = Some w → terminated w = true →
  ∃ w', _worker (play events d).1 = Some w'
        ∧ terminated w' = true
        ∧ (∃ more, _operations_queue w' = _operations_queue w ++ more)
        ∧ notifications (play events d).1 = notifications d
        ∧ objects (play events d).1 = objects d
        ∧ env (play events d).1 = env d.
Proof.
  induction events as [|ev events IH]; intros d w Hw Ht.
  - exists w. repeat split; try done. exists []. by rewrite app_nil_r.
  - destruct ev as [operation request operation_request|]; simpl.
    + destruct (enqueue_operation d operation request operation_request) as [d1 r] eqn:He.
      assert (∃ w1, _worker d1 = Some w1 ∧ terminated w1 = true
                    ∧ (∃ more, _operations_queue w1 = _operations_queue w ++ more)
                    ∧ notifications d1 = notifications d ∧ objects d1 = objects d
                    ∧ env d1 = env d) as (w1 & Hw1 & Ht1 & [more1 Hq1] & Hn1 & Ho1 & He1).
      { unfold enqueue_operation, worker_enqueue_operation in He. rewrite Hw in He.
        cbn [_operations_queue _transaction_id terminated] in He.
        case_bool_decide; injection He as <- <-; eexists; (split; [reflexivity|]);
          cbn; (split; [done|]); (split; [|done]).
        - exists []. by rewrite app_nil_r.
        - by eexists. }
      destruct (IH d1 w1 Hw1 Ht1) as (w' & Hw' & Ht' & [more Hq'] & Hn' & Ho' & He').
      assert (∃ w', _worker (play events d1).1 = Some w' ∧ terminated w' = true
                    ∧ (∃ more, _operations_queue w' = _operations_queue w ++ more)
                    ∧ notifications (play events d1).1 = notifications d
                    ∧ objects (play events d1).1 = objects d
                    ∧ env (play events d1).1 = env d) as Hgoal.
      { exists w'. repeat split; try congruence.
        exists (more1 ++ more). by rewrite Hq', Hq1, app_assoc. }
      destruct r as [tid|ex]; [|exact Hgoal].
      by destruct (play events d1) as [d2 ids].
    + rewrite (worker_step_terminated d w Hw Ht). simpl. by apply IH.
Qed.

(** X11. When the worker takes the stop marker it ends: whatever is queued
    behind the marker, or enqueued later, stays in the queue, and no
    notification is sent and no operation or mdib changes any more. *)
Theorem items_behind_the_stop_marker_never_run
    (d : Device) (w : _OperationsWorker) (rest : list QueueItem) :
  _worker d = Some w → terminated w = false →
  _operations_queue w = stop_sco :: rest →
  (∀ fuel, run (S fuel) d
           = set_worker d (Some (mkWorker rest (_transaction_id w) true)))
  ∧ ∀ events,
      let d' := (play events
                   (set_worker d (Some (mkWorker rest (_transaction_id w) true)))).1 in
      notifications d' = notifications d
      ∧ objects d' = objects d
      ∧ env d' = env d
      ∧ ∃ w' more, _worker d' = Some w' ∧ terminated w' = true
                   ∧ _operations_queue w' = rest ++ more.
Proof.
  intros Hw Ht Hq. split.
  - intros fuel. cbn [run]. rewrite (worker_step_stop d w rest Hw Ht Hq).
    destruct fuel as [|fuel]; [done|]. cbn [run].
    by rewrite (worker_step_terminated _ (mkWorker rest (_transaction_id w) true)).
  - intros events.
    destruct (play_terminated events
                (set_worker d (Some (mkWorker rest (_transaction_id w) true)))
                (mkWorker rest (_transaction_id w) true) eq_refl eq_refl)
      as (w' & Hw' & Ht' & [more Hq'] & Hn & Ho & He).
    cbn zeta. repeat split; try done. by exists w', more.
Qed.

Lemma full_queue_uses_up_the_transaction_id_witness :
  (enqueue_operation examples.device_full 0 examples.set_value_request
     (OperationRequest (PyScalar examples.forty_two))).2 = Err Full
  ∧ 11%Z ∉ snd (play examples.three_calls
                  (enqueue_operation examples.device_full 0 examples.set_value_request
                     (OperationRequest (PyScalar examples.forty_two))).1).
Proof.
  destruct (full_queue_uses_up_the_transaction_id examples.device_full
              examples.full_worker 0 examples.set_value_request
              (OperationRequest (PyScalar examples.forty_two))) as [Hfull Hnever].
  - reflexivity.
  - vm_compute. lia.
  - rewrite Hfull. split; [reflexivity|]. exact (Hnever examples.three_calls).
Defined.

Lemma items_behind_the_stop_marker_never_run_witness :
  run 3 examples.device_stopping
  = set_worker examples.device_stopping
      (Some (mkWorker [invocation 5 0 examples.set_value_request
                         (OperationRequest (PyScalar examples.forty_two))] 6 true))
  ∧ notifications (play examples.three_calls (run 3 examples.device_stopping)).1 = [].
Proof.
  destruct (items_behind_the_stop_marker_never_run examples.device_stopping
              examples.worker_stopping
              [invocation 5 0 examples.set_value_request
                 (OperationRequest (PyScalar examples.forty_two))])
    as [Hrun Hlater]; [reflexivity|reflexivity|reflexivity|].
  split; [exact (Hrun 2)|]. rewrite (Hrun 2).
  destruct (Hlater examples.three_calls) as [Hn _]. exact Hn.
Defined.

End queue_facts.

Section fifo_facts.
Import descriptorcontainers mdib sco.

Lemma startable_insert d d' item :
  (∀ operation, is_Some (objects d !! operation) → is_Some (objects d' !! operation)) →
  startable d item → startable d' item.
Proof. destruct item; [done|]. intros H [Ho Ha]. split; [by apply H|done]. Qed.

(** X12. A worker that is given one turn per queued item empties a queue of
    startable invocations in the order of the queue: each invocation is
    reported three times under its own transaction id, as [Wait], [Start]
    and then [Fin] or [Fail], before the next one is touched, and the
    counter of transaction ids is not moved. *)
Theorem queued_invocations_are_reported_in_order (d : Device) (w : _OperationsWorker) :
  _worker d = Some w → terminated w = false →
  Forall (startable d) (_operations_queue w) →
  ∃ reports,
    notifications (run (length (_operations_queue w)) d) = notifications d ++ reports
    ∧ map n_transaction_id reports
      = flat_map (fun item => [tr_id_of item; tr_id_of item; tr_id_of item])
                 (_operations_queue w)
    ∧ (∃ outcomes,
         length outcomes = length (_operations_queue w)
         ∧ map n_invocation_state reports
           = flat_map (fun finished : bool =>
                         [pmtypes.WAIT; pmtypes.START;
                          if finished then pmtypes.FINISHED else pmtypes.FAILED])
                       outcomes)
    ∧ _worker (run (length (_operations_queue w)) d)
      = Some (mkWorker [] (_transaction_id w) false).
Proof.
  destruct w as [queue tid term]. cbn [_operations_queue _transaction_id terminated].
  intros Hw -> Hall. revert d Hw Hall.
  induction queue as [|item queue IH]; intros d Hw Hall.
  - exists []. cbn. rewrite app_nil_r. repeat split; try done. by exists [].
  - apply Forall_cons in Hall as [Hitem Hall].
    destruct item as [|tr_id operation request operation_request]; [done|].
    destruct Hitem as [[o Ho] Ha].
    destruct (getattr_argument operation_request) as [argument|] eqn:Harg; [|done].
    destruct (worker_step_invocation d (mkWorker (invocation tr_id operation request
                                                    operation_request :: queue) tid false)
                tr_id operation request operation_request queue o argument
                Hw eq_refl eq_refl Ho Harg)
      as (d1 & o' & e' & r & Hstep & _ & _ & Hobj & _ & Hw1 & Hn1).
    cbn [_transaction_id] in Hw1.
    destruct (IH d1 Hw1) as (reports & Hn & Hids & (outcomes & Hlen & Hstates) & Hw').
    { eapply Forall_impl; [exact Hall|]. intros it. apply startable_insert.
      intros op' [x Hx]. rewrite Hobj.
      destruct (decide (operation = op')) as [->|Hne].
      - rewrite lookup_insert_eq. by eexists.
      - rewrite lookup_insert_ne by done. by eexists. }
    cbn [length run]. rewrite Hstep, Hn, Hn1, <- app_assoc.
    eexists. split; [reflexivity|].
    split; [|split; [|done]].
    + rewrite map_app, Hids. by destruct r.
    + exists (is_Ok r :: outcomes). split; [by rewrite <- Hlen|].
      rewrite map_app, Hstates. by destruct r.
Qed.

Lemma queued_invocations_are_reported_in_order_witness :
  ∃ reports,
    notifications (run 2 examples.device_two_queued) = reports
    ∧ map n_transaction_id reports = [1%Z; 1%Z; 1%Z; 2%Z; 2%Z; 2%Z]
    ∧ map n_operation reports = [1; 1; 1; 0; 0; 0]
    ∧ map n_invocation_state reports
      = [pmtypes.WAIT; pmtypes.START; pmtypes.FAILED;
         pmtypes.WAIT; pmtypes.START; pmtypes.FINISHED]
    ∧ _worker (run 2 examples.device_two_queued) = Some (mkWorker [] 3 false).
Proof.
  destruct (queued_invocations_are_reported_in_order
              examples.device_two_queued examples.worker_two_queued)
    as (reports & Hn & Hids & _ & Hw).
  - reflexivity.
  - reflexivity.
  - constructor; [|constructor; [|constructor]];
      (split; [by eexists|reflexivity]).
  - change (length (_operations_queue examples.worker_two_queued)) with 2 in Hn, Hw.
    change (notifications examples.device_two_queued) with (@nil Notification) in Hn.
    cbn [app] in Hn. exists reports.
    split; [exact Hn|]. split; [exact Hids|].
    rewrite <- Hn. split; [reflexivity|]. split; [reflexivity|exact Hw].
Defined.

End fifo_facts.

Section unregister_facts.
Import descriptorcontainers mdib sco.

Lemma _init_operation_target_container_keeps_handle self m self' m' r :
  _init_operation_target_container self m = (self', m', r) → _handle self' = _handle self.
Proof.
  unfold _init_operation_target_container. intros H.
  repeat match type of H with
         | context [match ?x with _ => _ end] => destruct x
         end; by injection H as <- <- <-.
Qed.

Lemma set_mdib_keeps_handle self m parent_handle self' m' r :
  set_mdib self m parent_handle = (self', m', r) → _handle self' = _handle self.
Proof.
  unfold set_mdib. destruct (_mdib self); [by intros [= <- <- <-]|].
  destruct (get_one _ _ _ _) as [found|]; [|by intros [= <- <- <-]].
  match goal with |- context [match ?x with Ok _ => _ | Err _ => _ end = _] =>
    destruct x as [m1|]; [|by intros [= <- <- <-]] end.
  destruct (get_one _ _ _ _) as [found_state|]; [|by intros [= <- <- <-]].
  match goal with |- context [match ?x with Ok _ => _ | Err _ => _ end = _] =>
    destruct x as [m2|]; [|by intros [= <- <- <-]] end.
  intros H. apply _init_operation_target_container_keeps_handle in H. by rewrite H.
Qed.

(** X13. [unregister_operation_by_handle] of the registry raises [KeyError]
    for a handle that is not registered and changes nothing.  For a
    registered operation it removes that handle only and leaves the
    operation and the mdib as they are; as the operation keeps its mdib,
    registering it again raises ['Mdib is already set']. *)
Theorem unregistered_operation_cannot_be_registered_again :
  (∀ d operation_handle,
     get_operation_by_handle d operation_handle = None →
     unregister_operation_by_handle d operation_handle
     = (d, Err (KeyError operation_handle)))
  ∧ (∀ d operation sco_descriptor_container d1 o,
       register_operation d operation sco_descriptor_container = (d1, Ok ()) →
       objects d !! operation = Some o →
       ∃ d2,
         unregister_operation_by_handle d1 (handle (definition o)) = (d2, Ok ())
         ∧ get_operation_by_handle d2 (handle (definition o)) = None
         ∧ (∀ other, other ≠ handle (definition o) →
              get_operation_by_handle d2 other = get_operation_by_handle d other)
         ∧ env d2 = env d1
         ∧ objects d2 = objects d1
         ∧ ∀ sco_descriptor_container',
             register_operation d2 operation sco_descriptor_container'
             = (d2, Err (RuntimeError "Mdib is already set"))).
Proof.
  split.
  - intros d h Hnone. unfold unregister_operation_by_handle.
    unfold get_operation_by_handle in Hnone. by rewrite Hnone.
  - intros d operation sco d1 o Hreg Ho. unfold register_operation in Hreg.
    rewrite Ho in Hreg.
    destruct (set_mdib (definition o) (the_mdib (env d)) _) as [[def' m'] [[]|ex]] eqn:Hs;
      [|discriminate].
    injection Hreg as <-.
    pose proof (set_mdib_keeps_handle _ _ _ _ _ _ Hs) as Hh.
    apply set_mdib_binds in Hs.
    unfold handle. rewrite <- Hh.
    set (o' := mkOperation def' (current_request_handlers o) (current_argument_handlers o)).
    unfold unregister_operation_by_handle. cbn [_registered_operations set_registered].
    unfold handle. rewrite lookup_insert_eq.
    eexists. split; [reflexivity|].
    split; [unfold get_operation_by_handle; cbn; by rewrite lookup_delete_eq|].
    split.
    { intros other Hne. unfold get_operation_by_handle. cbn.
      rewrite lookup_delete_ne by done. by rewrite lookup_insert_ne by done. }
    split; [done|]. split; [done|].
    intros sco'. unfold register_operation. cbn [objects set_registered set_env set_object].
    rewrite lookup_insert_eq. unfold set_mdib. cbn [definition o']. rewrite Hs.
    f_equal. unfold set_env, set_object, set_registered, set_mdib_of. cbn.
    destruct d as [[m c t] objs reg scoh w n]. cbn. f_equal.
    by rewrite insert_insert_eq.
Qed.

Lemma unregistered_operation_cannot_be_registered_again_witness :
  unregister_operation_by_handle examples.empty_device "op1"
  = (examples.empty_device, Err (KeyError "op1"))
  ∧ ∃ d2,
      unregister_operation_by_handle examples.device_registered "op1" = (d2, Ok ())
      ∧ get_operation_by_handle d2 "op1" = None
      ∧ register_operation d2 0 None = (d2, Err (RuntimeError "Mdib is already set")).
Proof.
  split.
  - apply (proj1 unregistered_operation_cannot_be_registered_again). reflexivity.
  - destruct (proj2 unregistered_operation_cannot_be_registered_again
                (set_object examples.empty_device 0 examples.set_value_op1) 0 None
                examples.device_registered examples.set_value_op1)
      as (d2 & Hun & Hget & _ & _ & _ & Hagain); [reflexivity|reflexivity|].
    exists d2. split; [exact Hun|]. split; [exact Hget|apply Hagain].
Defined.

End unregister_facts.

Section set_mdib_facts.
Import descriptorcontainers mdib sco.

Lemma extends_refl m : extends m m [] [] [].
Proof. unfold extends. by rewrite !app_nil_r. Qed.

Lemma _init_operation_target_container_extends self m self' m' r :
  _init_operation_target_container self m = (self', m', r) →
  ∃ new_states new_context_states,
    extends m m' [] new_states new_context_states
    ∧ (length new_states + length new_context_states ≤ 1)%nat
    ∧ (op_class self = _SetContextStateOperation →
       new_states = [] ∧ new_context_states = []).
Proof.
  unfold _init_operation_target_container. intros H.
  assert (∀ (x : OperationDefinition * Mdib * result unit),
            x = (self', m', r) → x.1.2 = m') as Hm by (by intros ? ->).
  destruct (op_class self) eqn:Hc;
    try (injection H as <- <- <-; exists [], []; split; [apply extends_refl|];
         split; [simpl; lia|done]).
  all: destruct (get_the_one _ _ _) as [target|];
    [|injection H as <- <- <-; exists [], []; split; [apply extends_refl|];
      split; [simpl; lia|done]].
  all: destruct (get_one _ _ _ _) as [[found|]|];
    try (injection H as <- <- <-; exists [], []; split; [apply extends_refl|];
         split; [simpl; lia|done]).
  all: destruct (mk_state_container_from_descriptor target) as [st|];
    [|injection H as <- <- <-; exists [], []; split; [apply extends_refl|];
      split; [simpl; lia|done]].
  all: injection H as <- <- <-; destruct (isMultiState st);
    [exists [], [st]|exists [st], []];
    (split; [unfold extends; cbn; by rewrite ?app_nil_r|]); (split; [simpl; lia|done]).
Qed.

(** X14. Whatever [set_mdib] returns or raises, the mdib afterwards is the
    mdib before with containers added at the end of its stores: at most one
    descriptor, which carries the handle of the operation, the given parent
    and the operation target, and at most two states; of a
    [SetContextState] operation no context state.  Nothing is removed or
    replaced, and the versions stay. *)
Theorem set_mdib_only_adds (self : OperationDefinition) (m : Mdib) (parent_handle : string)
    (self' : OperationDefinition) (m' : Mdib) (r : result unit) :
  set_mdib self m parent_handle = (self', m', r) →
  ∃ new_descriptions new_states new_context_states,
    extends m m' new_descriptions new_states new_context_states
    ∧ (length new_descriptions ≤ 1)%nat
    ∧ (length new_states + length new_context_states ≤ 2)%nat
    ∧ Forall (fun d => descriptorcontainers.Handle d = _handle self
                       ∧ parentHandle d = Some parent_handle
                       ∧ OperationTarget (properties d) = Some (_operation_target_handle self))
             new_descriptions
    ∧ (op_class self = _SetContextStateOperation → new_context_states = []).
Proof.
  unfold set_mdib. intros H.
  destruct (_mdib self).
  { injection H as <- <- <-. exists [], [], []. split; [apply extends_refl|].
    repeat split; simpl; try lia; done. }
  destruct (get_one descriptorcontainers.Handle _ _ _) as [found|].
  2:{ injection H as <- <- <-. exists [], [], []. split; [apply extends_refl|].
      repeat split; simpl; try lia; done. }
  set (descr_step := match found with Some _ => _ | None => _ end) in H.
  assert (∃ new_descriptions,
            (length new_descriptions ≤ 1)%nat
            ∧ Forall (fun d => descriptorcontainers.Handle d = _handle self
                       ∧ parentHandle d = Some parent_handle
                       ∧ OperationTarget (properties d)
                         = Some (_operation_target_handle self)) new_descriptions
            ∧ ∀ m1, descr_step = Ok m1 → extends m m1 new_descriptions [] [])
    as (nd & Hnd & Hdall & Hdescr).
  { unfold descr_step. destruct found as [x|].
    - exists []. split; [simpl; lia|]. split; [done|].
      intros m1 [= <-]. apply extends_refl.
    - destruct (get_descriptor_container_class _) as [c|].
      + exists [_init_operation_descriptor_container self
                  (new_descriptor_container c (_handle self) parent_handle)].
        split; [simpl; lia|]. split.
        * constructor; [|done]. repeat split; reflexivity.
        * intros m1 [= <-]. unfold extends. cbn. by rewrite !app_nil_r.
      + exists []. split; [simpl; lia|]. split; [done|]. discriminate. }
  destruct descr_step as [m1|ex].
  2:{ injection H as <- <- <-. exists [], [], []. split; [apply extends_refl|].
      repeat split; simpl; try lia; done. }
  specialize (Hdescr m1 eq_refl).
  destruct (get_one descriptorHandle (states m1) _ _) as [found_state|].
  2:{ injection H as <- <- <-. exists nd, [], []. split; [done|].
      repeat split; simpl; try lia; done. }
  set (state_step := match found_state with Some _ => _ | None => _ end) in H.
  assert (∃ new_states,
            (length new_states ≤ 1)%nat
            ∧ ∀ m2, state_step = Ok m2 → extends m1 m2 [] new_states [])
    as (ns & Hns & Hstate).
  { unfold state_step. destruct found_state as [x|].
    - exists []. split; [simpl; lia|]. intros m2 [= <-]. apply extends_refl.
    - destruct (OP_STATE_QNAME _) as [q|].
      + eexists [_]. split; [simpl; lia|].
        intros m2 [= <-]. unfold extends. cbn. by rewrite !app_nil_r.
      + exists []. split; [simpl; lia|]. discriminate. }
  destruct state_step as [m2|ex].
  2:{ injection H as <- <- <-. exists nd, [], []. split; [done|].
      repeat split; simpl; try lia; done. }
  specialize (Hstate m2 eq_refl).
  apply _init_operation_target_container_extends in H
    as (ns' & nc & Hext & Hlen & Hctx).
  exists nd, (ns ++ ns'), nc.
  destruct Hdescr as (Hd1 & Hs1 & Hc1 & Hv1 & Hq1).
  destruct Hstate as (Hd2 & Hs2 & Hc2 & Hv2 & Hq2).
  destruct Hext as (Hd3 & Hs3 & Hc3 & Hv3 & Hq3).
  split.
  { unfold extends. rewrite Hd3, Hd2, Hd1, Hs3, Hs2, Hs1, Hc3, Hc2, Hc1, Hv3, Hv2, Hv1,
      Hq3, Hq2, Hq1, !app_nil_r. by rewrite <- !app_assoc. }
  split; [done|]. split; [rewrite length_app; lia|]. split; [done|].
  intros Hclass. by apply Hctx.
Qed.

Lemma set_mdib_only_adds_witness :
  ∃ new_descriptions new_states new_context_states,
    extends (the_mdib (env examples.empty_device))
      (set_mdib (definition examples.set_value_op1)
         (the_mdib (env examples.empty_device)) "_sco").1.2
      new_descriptions new_states new_context_states
    ∧ length new_descriptions ≤ 1
    ∧ length new_states + length new_context_states ≤ 2.
Proof.
  destruct (set_mdib_only_adds (definition examples.set_value_op1)
              (the_mdib (env examples.empty_device)) "_sco"
              (set_mdib (definition examples.set_value_op1)
                 (the_mdib (env examples.empty_device)) "_sco").1.1
              (set_mdib (definition examples.set_value_op1)
                 (the_mdib (env examples.empty_device)) "_sco").1.2
              (set_mdib (definition examples.set_value_op1)
                 (the_mdib (env examples.empty_device)) "_sco").2)
    as (nd & ns & nc & Hext & Hd & Hs & _).
  - reflexivity.
  - by exists nd, ns, nc.
Defined.

End set_mdib_facts.

(** ** The handlers of the Set service and of the Context service *)

Section set_service_facts.
Import descriptorcontainers mdib sco sdcservicesimpl.

(** X15. [_handle_operation_request] answers a request that has no, or
    more than one, handle reference with [Fail], [Inv] and the text
    ['no OperationHandleRef found in Request'], and leaves the device as it
    is.  For one reference to a registered operation of the requested kind
    it raises [AttributeError] when no worker was started and [Full] when
    the queue is full (the transaction id is then used up); otherwise it
    queues the invocation under the next transaction id and answers
    [Wait] with that id. *)
Theorem handle_operation_request_cases
    (d : Device) (request : Request) (response_name : string) (argument : PyObject) :
  let m := the_mdib (env d) in
  (length (operation_handle_refs request) ≠ 1 →
   _handle_operation_request d request response_name argument
   = (d, Ok (mkResponse response_name (sequence_id m) (str (mdib_version m)) "0"
               pmtypes.FAILED (Some pmtypes.INVALID_VALUE)
               (Some "no OperationHandleRef found in Request"))))
  ∧ (∀ operation_handle_ref operation o,
       operation_handle_refs request = [operation_handle_ref] →
       get_operation_by_handle d operation_handle_ref = Some operation →
       objects d !! operation = Some o →
       OP_QNAME (op_class (definition o)) = Some (request_tag request) →
       match _worker d with
       | None =>
           _handle_operation_request d request response_name argument
           = (d, Err (AttributeError
                        "'NoneType' object has no attribute 'enqueue_operation'"))
       | Some w =>
           if bool_decide (maxsize ≤ length (_operations_queue w))%nat then
             _handle_operation_request d request response_name argument
             = (set_worker d (Some (mkWorker (_operations_queue w) (_transaction_id w + 1)
                                      (terminated w))),
                Err Full)
           else
             _handle_operation_request d request response_name argument
             = (set_worker d
                  (Some (mkWorker (_operations_queue w
                                     ++ [invocation (_transaction_id w) operation request
                                           argument])
                           (_transaction_id w + 1) (terminated w))),
                Ok (mkResponse response_name (sequence_id m) (str (mdib_version m))
                      (str (_transaction_id w)) pmtypes.WAIT None None))
       end).
Proof.
  cbn zeta. split.
  - intros Hlen. unfold _handle_operation_request, check_request.
    destruct (operation_handle_refs request) as [|h [|h' rest]]; [done| |done].
    by destruct Hlen.
  - intros h operation o Hrefs Hget Ho Hq.
    unfold _handle_operation_request, check_request. rewrite Hrefs.
    unfold device_get_operation_by_handle. rewrite Hget, Ho.
    cbn [fmap option_fmap option_map]. rewrite Hq.
    rewrite bool_decide_false by (intros H; by apply H).
    unfold device_enqueue_operation, enqueue_operation, worker_enqueue_operation.
    destruct (_worker d) as [w|]; [|done].
    cbn [_operations_queue _transaction_id terminated].
    by case_bool_decide.
Qed.

Lemma handle_operation_request_cases_witness :
  ∃ response,
    _handle_operation_request examples.device_running examples.no_handle_request
      "SetValueResponse" (PyScalar examples.forty_two)
    = (examples.device_running, Ok response)
    ∧ InvocationState response = pmtypes.FAILED
    ∧ InvocationErrorMessage response = Some "no OperationHandleRef found in Request".
Proof.
  pose proof (handle_operation_request_cases examples.device_running
                examples.no_handle_request "SetValueResponse"
                (PyScalar examples.forty_two)) as H.
  cbn zeta in H. destruct H as [H _]. rewrite H by (simpl; lia).
  eexists. split; [reflexivity|]. split; reflexivity.
Defined.

Lemma accepted_request_is_queued d request response_name argument d1 response :
  _handle_operation_request d request response_name argument = (d1, Ok response) →
  InvocationState response = pmtypes.WAIT →
  ∃ w operation,
    _worker d = Some w
    ∧ d1 = set_worker d
             (Some (mkWorker (_operations_queue w
                                ++ [invocation (_transaction_id w) operation request
                                      argument])
                      (_transaction_id w + 1) (terminated w))).
Proof.
  unfold _handle_operation_request.
  destruct (check_request d request) as [texts|operation].
  - intros [= <- <-]. discriminate.
  - unfold device_enqueue_operation, enqueue_operation, worker_enqueue_operation.
    destruct (_worker d) as [w|]; [|discriminate].
    cbn [_operations_queue _transaction_id terminated].
    case_bool_decide; [discriminate|].
    intros [= <- <-] _. by exists w, operation.
Qed.

Lemma invocation_without_argument_is_dropped d w tr_id operation request operation_request :
  _worker d = Some w → terminated w = false →
  _operations_queue w = [invocation tr_id operation request operation_request] →
  is_Ok (getattr_argument operation_request) = false →
  ∃ d2, worker_step d = Some d2
        ∧ notifications d2 = notifications d
        ∧ env d2 = env d
        ∧ objects d2 = objects d
        ∧ _worker d2 = Some (mkWorker [] (_transaction_id w) false).
Proof.
  intros Hw Ht Hq Ha. unfold worker_step. rewrite Hw, Ht, Hq.
  eexists. split; [reflexivity|]. unfold handle_item. cbn [objects set_worker].
  destruct (objects d !! operation) as [o|]; [|done].
  by destruct (getattr_argument operation_request).
Qed.

(** X16. Every handler of the Set service passes its argument on as it is,
    and none of these arguments has the attribute [argument] that
    [execute_operation] reads.  So whenever one of the handlers answers
    [Wait] on an idle worker, the worker's next turn takes the invocation
    from the queue and drops it: no notification is sent, and neither an
    operation nor the mdib changes. *)
Theorem set_service_invocations_are_dropped
    (float : option string → result Q) (d : Device) (w : _OperationsWorker)
    (request : Request) :
  _worker d = Some w → terminated w = false → _operations_queue w = [] →
  let dropped (answer : Device * result Response) : Prop :=
    ∀ d1 response,
      answer = (d1, Ok response) → InvocationState response = pmtypes.WAIT →
      TransactionId response = str (_transaction_id w)
      ∧ ∃ d2, worker_step d1 = Some d2
              ∧ notifications d2 = notifications d
              ∧ env d2 = env d
              ∧ objects d2 = objects d
              ∧ _worker d2 = Some (mkWorker [] (_transaction_id w + 1) false) in
  (∀ argument, dropped (_on_activate d request argument))
  ∧ (∀ value_nodes, dropped (_on_set_value float d request value_nodes))
  ∧ (∀ string_node, dropped (_on_set_string d request string_node))
  ∧ (∀ proposed_states, dropped (_on_set_metric_state d request proposed_states))
  ∧ (∀ proposed_states, dropped (_on_set_alert_state d request proposed_states))
  ∧ (∀ proposed_states, dropped (_on_set_component_state d request proposed_states)).
Proof.
  intros Hw Ht Hq dropped.
  assert (∀ response_name argument,
            is_Ok (getattr_argument argument) = false →
            dropped (_handle_operation_request d request response_name argument)) as Hdrop.
  { intros response_name argument Ha d1 response Hanswer Hwait.
    pose proof Hanswer as Hanswer'.
    apply accepted_request_is_queued in Hanswer as (w' & operation & Hw' & ->); [|done].
    rewrite Hw in Hw'. injection Hw' as <-. rewrite Hq, Ht. cbn [app].
    split.
    - unfold _handle_operation_request in Hanswer'.
      destruct (check_request d request) as [texts|operation'];
        [injection Hanswer' as _ <-; discriminate|].
      unfold device_enqueue_operation, enqueue_operation, worker_enqueue_operation
        in Hanswer'.
      rewrite Hw, Hq in Hanswer'. cbn in Hanswer'. by injection Hanswer' as _ <-.
    - destruct (invocation_without_argument_is_dropped
                  (set_worker d (Some (mkWorker [invocation (_transaction_id w) operation
                                                   request argument]
                                         (_transaction_id w + 1) false)))
                  (mkWorker [invocation (_transaction_id w) operation request argument]
                     (_transaction_id w + 1) false)
                  (_transaction_id w) operation request argument
                  eq_refl eq_refl eq_refl Ha)
        as (d2 & Hstep & Hn & He & Ho & Hw2).
      by exists d2. }
  split; [|split; [|split; [|split; [|split]]]].
  - intros arg_values. by apply Hdrop.
  - intros value_nodes. unfold _on_set_value.
    destruct value_nodes as [|text rest]; [by apply Hdrop|].
    destruct (float text) as [x|ex]; [by apply Hdrop|].
    intros d1 response [=].
  - intros string_node. unfold _on_set_string.
    destruct string_node as [|text rest]; by apply Hdrop.
  - intros proposed_states. by apply Hdrop.
  - intros proposed_states. unfold _on_set_alert_state.
    destruct proposed_states as [|st [|st' rest]];
      [intros d1 response [=]|by apply Hdrop|intros d1 response [=]].
  - intros proposed_states. by apply Hdrop.
Qed.

(** X17. [_on_set_alert_state] raises [ValueError] unless the request
    proposes exactly one alert state, with a text that tells none from
    several, and does not touch the device. *)
Theorem on_set_alert_state_wants_one_state
    (d : Device) (request : Request) (proposed_states : list StateContainer) :
  length proposed_states ≠ 1 →
  ∃ msg, _on_set_alert_state d request proposed_states = (d, Err (ValueError msg))
         ∧ msg = if decide (length proposed_states = 0)
                 then "no ProposedAlertState argument found"
                 else "only one ProposedAlertState argument allowed, found "
                      +:+ str (Z.of_nat (length proposed_states)).
Proof.
  intros Hlen. destruct proposed_states as [|st [|st' rest]]; [| |]; simpl in *.
  - by eexists.
  - done.
  - by eexists.
Qed.

(** X18. [_on_set_context_state] answers [Fail] with its own texts when its
    xpath expression finds no handle reference, several, or one that is not
    registered.  One reference to a registered operation is queued with the
    list of proposed states and answered [Wait], whatever the class of that
    operation is: the tag of the request is not compared with [OP_QNAME]. *)
Theorem on_set_context_state_cases
    (d : Device) (request : Request) (operation_handle_refs : list string)
    (proposed_context_states : list StateContainer) :
  let m := the_mdib (env d) in
  let failed text :=
    (d, Ok (mkResponse "SetContextStateResponse" (sequence_id m) (str (mdib_version m)) "0"
              pmtypes.FAILED (Some pmtypes.INVALID_VALUE) (Some text))) in
  (operation_handle_refs = [] →
   _on_set_context_state d request operation_handle_refs proposed_context_states
   = failed "no OperationHandleRef found")
  ∧ ((2 ≤ length operation_handle_refs)%nat →
     _on_set_context_state d request operation_handle_refs proposed_context_states
     = failed ("multiple OperationHandleRefs found: " +:+ double_quote
               +:+ repr_list operation_handle_refs +:+ double_quote))
  ∧ (∀ operation_handle_ref,
       operation_handle_refs = [operation_handle_ref] →
       match get_operation_by_handle d operation_handle_ref with
       | None =>
           _on_set_context_state d request operation_handle_refs proposed_context_states
           = failed ("operation " +:+ double_quote +:+ operation_handle_ref
                     +:+ double_quote +:+ " not known")
       | Some operation =>
           ∀ w, _worker d = Some w →
                (length (_operations_queue w) < maxsize)%nat →
                _on_set_context_state d request operation_handle_refs
                  proposed_context_states
                = (set_worker d
                     (Some (mkWorker (_operations_queue w
                                        ++ [invocation (_transaction_id w) operation request
                                              (PyStates proposed_context_states)])
                              (_transaction_id w + 1) (terminated w))),
                   Ok (mkResponse "SetContextStateResponse" (sequence_id m)
                         (str (mdib_version m)) (str (_transaction_id w)) pmtypes.WAIT
                         None None))
       end).
Proof.
  cbn zeta. unfold _on_set_context_state. split; [|split].
  - by intros ->.
  - intros Hlen.
    destruct operation_handle_refs as [|h [|h' rest]]; simpl in Hlen; [lia|lia|].
    done.
  - intros h ->. unfold device_get_operation_by_handle.
    destruct (get_operation_by_handle d h) as [operation|]; [|done].
    intros w Hw Hlen.
    unfold device_enqueue_operation, enqueue_operation, worker_enqueue_operation.
    rewrite Hw. cbn [_operations_queue _transaction_id terminated].
    by rewrite bool_decide_false by lia.
Qed.

Lemma set_service_invocations_are_dropped_witness :
  ∃ d1 response,
    _on_set_value examples.float_of_text examples.device_running
      examples.set_value_request [Some "42.0"] = (d1, Ok response)
    ∧ InvocationState response = pmtypes.WAIT
    ∧ TransactionId response = "1"
    ∧ ∃ d2, worker_step d1 = Some d2
            ∧ notifications d2 = notifications examples.device_running
            ∧ env d2 = env examples.device_running
            ∧ objects d2 = objects examples.device_running.
Proof.
  pose proof (set_service_invocations_are_dropped examples.float_of_text
                examples.device_running examples.running_worker
                examples.set_value_request eq_refl eq_refl eq_refl) as H.
  cbn zeta in H. destruct H as (_ & Hvalue & _).
  eexists _, _. split; [reflexivity|]. split; [reflexivity|].
  destruct (Hvalue [Some "42.0"] _ _ eq_refl eq_refl)
    as (Hid & d2 & Hstep & Hn & He & Ho & _).
  split; [exact Hid|]. by exists d2.
Defined.

Lemma on_set_alert_state_wants_one_state_witness :
  ∃ msg,
    _on_set_alert_state examples.device_running examples.set_value_request
      [examples.proposed_new; examples.proposed_update]
    = (examples.device_running, Err (ValueError msg))
    ∧ msg = "only one ProposedAlertState argument allowed, found 2".
Proof.
  destruct (on_set_alert_state_wants_one_state examples.device_running
              examples.set_value_request
              [examples.proposed_new; examples.proposed_update])
    as (msg & Hraise & Hmsg); [simpl; lia|].
  exists msg. split; [exact Hraise|exact Hmsg].
Defined.

Lemma on_set_context_state_cases_witness :
  ∃ d1 response,
    _on_set_context_state examples.device_running examples.set_value_request ["op1"]
      [examples.proposed_new] = (d1, Ok response)
    ∧ InvocationState response = pmtypes.WAIT
    ∧ (_operations_queue <$> _worker d1)
      = Some [invocation 1 0 examples.set_value_request
                (PyStates [examples.proposed_new])].
Proof.
  pose proof (on_set_context_state_cases examples.device_running
                examples.set_value_request ["op1"] [examples.proposed_new]) as H.
  cbn zeta in H. destruct H as (_ & _ & H). specialize (H "op1" eq_refl).
  change (get_operation_by_handle examples.device_running "op1") with (Some 0) in H.
  cbv beta iota in H. rewrite (H examples.running_worker eq_refl) by (vm_compute; lia).
  eexists _, _. split; [reflexivity|]. split; reflexivity.
Defined.

End set_service_facts.

Section get_context_states_facts.
Import descriptorcontainers mdib sco sdcservicesimpl.

Lemma ordered_dict_set_keys {K V} `{EqDecision K} (key : K) (value : V) (d : list (K * V)) :
  map fst (ordered_dict_set key value d)
  = if decide (key ∈ map fst d) then map fst d else map fst d ++ [key].
Proof.
  induction d as [|[k v] d IH].
  - cbn [ordered_dict_set map].
    destruct (decide (key ∈ [])) as [Hin|_]; [by apply elem_of_nil in Hin|done].
  - cbn [ordered_dict_set map fst].
    destruct (decide (k = key)) as [->|Hne].
    + cbn [map fst]. by rewrite decide_True by (by left).
    + cbn [map fst]. rewrite IH. destruct (decide (key ∈ map fst d)) as [Hin|Hnot].
      * by rewrite decide_True by (by right).
      * rewrite decide_False; [done|].
        intros [->|Hin]%elem_of_cons; done.
Qed.

Lemma ordered_dict_set_NoDup {K V} `{EqDecision K} (key : K) (value : V) (d : list (K * V)) :
  NoDup (map fst d) → NoDup (map fst (ordered_dict_set key value d)).
Proof.
  intros Hnd. rewrite ordered_dict_set_keys. destruct (decide _) as [|Hnot]; [done|].
  apply NoDup_app. split; [done|]. split; [|apply NoDup_singleton].
  intros x Hx ->%list_elem_of_singleton. done.
Qed.

Lemma ordered_dict_set_elem {K V} `{EqDecision K} (key : K) (value : V) (d : list (K * V)) kv :
  kv ∈ ordered_dict_set key value d → kv = (key, value) ∨ kv ∈ d.
Proof.
  induction d as [|[k v] d IH]; cbn [ordered_dict_set].
  - intros ->%list_elem_of_singleton. by left.
  - destruct (decide (k = key)) as [->|Hne].
    + intros [->|Hin]%elem_of_cons; [by left|right; by right].
    + intros [->|Hin]%elem_of_cons; [right; by left|].
      destruct (IH Hin) as [->|Hd]; [by left|right; by right].
Qed.

Lemma ordered_dict_set_has {K V} `{EqDecision K} (key : K) (value : V) (d : list (K * V)) :
  (key, value) ∈ ordered_dict_set key value d.
Proof.
  induction d as [|[k v] d IH]; cbn [ordered_dict_set]; [by left|].
  destruct (decide (k = key)) as [->|Hne]; [by left|by right].
Qed.

Lemma ordered_dict_set_keeps {K V} `{EqDecision K} (key : K) (value : V) (d : list (K * V)) kv :
  kv ∈ d → kv.1 ≠ key → kv ∈ ordered_dict_set key value d.
Proof.
  induction d as [|[k v] d IH]; cbn [ordered_dict_set];
    [by intros ?%elem_of_nil|].
  intros [->|Hin]%elem_of_cons Hne.
  - cbn in Hne. rewrite decide_False by done. by left.
  - destruct (decide (k = key)); right; [done|by apply IH].
Qed.

Lemma foldl_lookup_ok m tmp : ∀ lookup,
  lookup_ok m lookup → (∀ st, st ∈ tmp → st ∈ context_states m) →
  lookup_ok m (foldl (fun lookup state => ordered_dict_set (Handle state) state lookup)
                     lookup tmp).
Proof.
  induction tmp as [|st tmp IH]; intros lookup Hok Htmp; [done|]. cbn [foldl].
  apply IH; [|intros x Hx; apply Htmp; by right].
  destruct Hok as [Hnd Hall]. split; [by apply ordered_dict_set_NoDup|].
  intros kv [->|Hin]%ordered_dict_set_elem; [|by apply Hall].
  split; [apply Htmp; by left|done].
Qed.

Lemma foldl_lookup_keeps m tmp : ∀ lookup st,
  NoDup (map Handle (context_states m)) →
  lookup_ok m lookup → (∀ x, x ∈ tmp → x ∈ context_states m) →
  (Handle st, st) ∈ lookup ∨ st ∈ tmp →
  st ∈ context_states m →
  (Handle st, st)
  ∈ foldl (fun lookup state => ordered_dict_set (Handle state) state lookup) lookup tmp.
Proof.
  induction tmp as [|x tmp IH]; intros lookup st Hnd Hok Htmp Hin Hst.
  - destruct Hin as [Hin|Hin]; [done|by apply elem_of_nil in Hin].
  - cbn [foldl]. apply IH; try done.
    + destruct Hok as [Hk Hall]. split; [by apply ordered_dict_set_NoDup|].
      intros kv [->|Hkv]%ordered_dict_set_elem; [|by apply Hall].
      split; [apply Htmp; by left|done].
    + intros y Hy. apply Htmp. by right.
    + destruct Hin as [Hin|[->|Hin]%elem_of_cons].
      * left. destruct (decide (Handle st = Handle x)) as [Heq|Hne].
        -- assert (st = x) as ->.
           { eapply (same_key_same_object Handle); try done. apply Htmp. by left. }
           apply ordered_dict_set_has.
        -- by apply ordered_dict_set_keeps.
      * left. apply ordered_dict_set_has.
      * by right.
Qed.

Lemma states_for_handle_elem m handle tmp st :
  states_for_handle m handle = Ok tmp → st ∈ tmp → st ∈ context_states m.
Proof.
  unfold states_for_handle, get_one.
  destruct (get Handle (context_states m) (Some handle)) as [|x [|y l]] eqn:Hg;
    cbn [mbind result_bind]; [| |discriminate].
  - destruct (get descriptorHandle (context_states m) handle) as [|x l] eqn:Hd.
    + destruct (get descriptorcontainers.Handle (descriptions m) handle) as [|x [|y l]];
        cbn [mbind result_bind]; [| |discriminate].
      * intros [= <-] Hin. by apply elem_of_nil in Hin.
      * destruct (decide _); intros [= <-] Hin; [done|by apply elem_of_nil in Hin].
    + intros [= <-] Hin. rewrite <- Hd in Hin. unfold get in Hin.
      by apply list_elem_of_filter in Hin as [_ Hin].
  - intros [= <-] ->%list_elem_of_singleton.
    assert (x ∈ get Handle (context_states m) (Some handle)) as Hin by (rewrite Hg; by left).
    unfold get in Hin. by apply list_elem_of_filter in Hin as [_ Hin].
Qed.

Lemma fill_lookup_ok m requested : ∀ lookup result,
  lookup_ok m lookup → fill_lookup m requested lookup = Ok result → lookup_ok m result.
Proof.
  induction requested as [|handle rest IH]; intros lookup result Hok; cbn [fill_lookup].
  - by intros [= <-].
  - destruct (states_for_handle m handle) as [tmp|] eqn:Htmp; [|discriminate].
    cbn [mbind result_bind]. apply IH. apply foldl_lookup_ok; [done|].
    intros st. by apply (states_for_handle_elem m handle).
Qed.

Lemma fill_lookup_keeps m requested : ∀ lookup result st,
  NoDup (map Handle (context_states m)) →
  lookup_ok m lookup → fill_lookup m requested lookup = Ok result →
  st ∈ context_states m →
  (Handle st, st) ∈ lookup
  ∨ (∃ handle tmp, handle ∈ requested ∧ states_for_handle m handle = Ok tmp ∧ st ∈ tmp) →
  (Handle st, st) ∈ result.
Proof.
  induction requested as [|handle rest IH]; intros lookup result st Hnd Hok;
    cbn [fill_lookup].
  - intros [= <-] Hst [Hin|(h & tmp & Hh & _)]; [done|by apply elem_of_nil in Hh].
  - destruct (states_for_handle m handle) as [tmp|] eqn:Htmp; [|discriminate].
    cbn [mbind result_bind]. intros Hfill Hst Hin.
    apply (IH _ result st Hnd) in Hfill; [done| |done|].
    + apply foldl_lookup_ok; [done|]. intros x. by apply (states_for_handle_elem m handle).
    + destruct Hin as [Hin|(h & tmp' & [->|Hh]%elem_of_cons & Htmp' & Hin)].
      * left. apply (foldl_lookup_keeps m); try done; [|by left].
        intros x. by apply (states_for_handle_elem m handle).
      * left. rewrite Htmp in Htmp'. injection Htmp' as <-.
        apply (foldl_lookup_keeps m); try done; [|by right].
        intros x. by apply (states_for_handle_elem m handle).
      * right. by exists h, tmp'.
Qed.

(** X19. What [_on_get_context_states] returns: for an empty list of
    handles all context states, in the order of the store; otherwise only
    context states of the mdib and none of them twice.  When the handles of
    the context states are pairwise distinct, a state is returned if its
    own handle was requested, and also if the handle of its descriptor was
    requested and is not the handle of a state as well. *)
Theorem on_get_context_states_selects
    (m : Mdib) (requested_handles : list string) (found : list StateContainer) :
  _on_get_context_states m requested_handles = Ok found →
  (requested_handles = [] → found = context_states m)
  ∧ (requested_handles ≠ [] → NoDup (map Handle found))
  ∧ (∀ st, st ∈ found → st ∈ context_states m)
  ∧ (NoDup (map Handle (context_states m)) →
     ∀ handle st,
       handle ∈ requested_handles → st ∈ context_states m →
       (Handle st = Some handle
        ∨ (descriptorHandle st = handle
           ∧ ∀ other, other ∈ context_states m → Handle other ≠ Some handle)) →
       st ∈ found).
Proof.
  unfold _on_get_context_states.
  destruct requested_handles as [|h0 rest].
  { intros [= <-]. split; [done|]. split; [done|]. split; [done|].
    intros _ handle st Hh. by apply elem_of_nil in Hh. }
  set (requested := h0 :: rest).
  destruct (fill_lookup m requested []) as [lookup|] eqn:Hfill; [|discriminate].
  cbn [mbind result_bind]. intros [= <-].
  assert (lookup_ok m []) as Hempty.
  { split; [constructor|]. intros kv Hkv. by apply elem_of_nil in Hkv. }
  pose proof (fill_lookup_ok m requested [] lookup Hempty Hfill) as [Hkeys Hall].
  split; [done|]. split; [|split].
  - intros _. assert (map Handle (map snd lookup) = map fst lookup) as ->; [|done].
    rewrite map_map. apply map_ext_in. intros kv Hkv%list_elem_of_In.
    by destruct (Hall kv Hkv) as [_ <-].
  - intros st (kv & -> & Hkv)%list_elem_of_fmap. by apply Hall.
  - intros Hnd handle st Hh Hst Hcase.
    apply list_elem_of_fmap. exists (Handle st, st). split; [done|].
    apply (fill_lookup_keeps m requested [] lookup st Hnd Hempty Hfill Hst).
    right. exists handle.
    unfold states_for_handle, get_one. destruct Hcase as [Hhandle|[Hdescr Hnone]].
    + rewrite <- Hhandle, (get_unique Handle) by done. cbn [mbind result_bind].
      exists [st]. split; [done|]. split; [done|by left].
    + assert (get Handle (context_states m) (Some handle) = []) as ->.
      { apply get_nil_not_key. intros (other & Ho & Hin)%list_elem_of_fmap.
        by apply (Hnone other). }
      cbn [mbind result_bind].
      assert (st ∈ get descriptorHandle (context_states m) handle) as Hin.
      { unfold get. apply list_elem_of_filter. by split. }
      destruct (get descriptorHandle (context_states m) handle) as [|x l];
        [by apply elem_of_nil in Hin|].
      by exists (x :: l).
Qed.

Lemma on_get_context_states_selects_witness :
  ∃ found,
    _on_get_context_states examples.context_mdib ["pc"; "pc_1"] = Ok found
    ∧ NoDup (map Handle found)
    ∧ map Handle found = [Some "pc_1"; Some "pc_0"].
Proof.
  eexists. split; [reflexivity|]. split; [|reflexivity].
  apply (proj1 (proj2 (on_get_context_states_selects examples.context_mdib
                         ["pc"; "pc_1"] _ eq_refl))).
  discriminate.
Defined.

End get_context_states_facts.

(** ** The WSDL of the port types *)

Section wsdl_facts.
Import descriptorcontainers sdcservicesimpl.

(** X20. For every port type class the three WSDL parts agree: each of
    [add_wsdl_port_type], [add_wsdl_binding] and [add_wsdl_messages] only
    appends to the node it is given; the operations of the port type are
    those of the binding, by name and in the same order, and have an input
    in the one exactly when they have it in the other; the messages are
    those of [WSDLMessageDescriptions]; and every message that an operation
    of the port type refers to is one of them. *)
Theorem wsdl_port_type_matches_binding
    (self : PortType) (port_type_string ActionsNamespace porttype_prefix : string)
    (nsmap : list string) (definitions : Element) :
  ∃ port_type binding messages,
    subelements (add_wsdl_port_type self port_type_string definitions nsmap)
    = subelements definitions ++ [port_type]
    ∧ subelements (add_wsdl_binding self port_type_string ActionsNamespace definitions
                     porttype_prefix)
      = subelements definitions ++ [binding]
    ∧ subelements (add_wsdl_messages self definitions)
      = subelements definitions ++ messages
    ∧ map (get_attrib "name") (findall _wsdl_operation port_type)
      = map (fun wsdl_op => Some (b_name wsdl_op)) (WSDLOperationBindings self)
    ∧ map (get_attrib "name") (findall _wsdl_operation binding)
      = map (fun wsdl_op => Some (b_name wsdl_op)) (WSDLOperationBindings self)
    ∧ map has_input (findall _wsdl_operation port_type)
      = map has_input (findall _wsdl_operation binding)
    ∧ map (get_attrib "name") messages
      = map (fun msg => Some (m_name msg)) (WSDLMessageDescriptions self)
    ∧ Forall (fun operation =>
                Forall (fun message =>
                          message ∈ map (fun msg => "tns:" +:+ m_name msg)
                                        (WSDLMessageDescriptions self))
                       (messages_of operation))
             (findall _wsdl_operation port_type).
Proof.
  destruct self; eexists _, _, _;
    (split; [reflexivity|]); (split; [reflexivity|]);
    (split; [cbn; rewrite <- ?app_assoc; reflexivity|]);
    (split; [reflexivity|]); (split; [reflexivity|]); (split; [reflexivity|]);
    (split; [reflexivity|]).
  all: apply (bool_decide_unpack _); vm_compute; exact I.
Qed.

End wsdl_facts.

(** ** The device *)

Section device_facts.
Import mdib sco.

(** X21. [SdcDevice.unregister_operation_by_handle] unregisters nothing: it
    calls [register_operation] of the registry with the handle, which
    raises [AttributeError], and a registered operation is still found
    under its handle afterwards, whereas the method of that name of the
    registry removes it. *)
Theorem device_unregister_removes_nothing (d : Device) (operation_handle : string) :
  sdcdeviceimpl.unregister_operation_by_handle d operation_handle
  = (d, Err (AttributeError "'str' object has no attribute 'handle'"))
  ∧ (∀ operation,
       sdcdeviceimpl.get_operation_by_handle d operation_handle = Some operation →
       sdcdeviceimpl.get_operation_by_handle
         (sdcdeviceimpl.unregister_operation_by_handle d operation_handle).1
         operation_handle = Some operation
       ∧ ∃ d', sco.unregister_operation_by_handle d operation_handle = (d', Ok ())
               ∧ sdcdeviceimpl.get_operation_by_handle d' operation_handle = None).
Proof.
  split; [reflexivity|]. intros operation Hget. split; [exact Hget|].
  unfold sdcdeviceimpl.get_operation_by_handle, get_operation_by_handle in *.
  unfold unregister_operation_by_handle. rewrite Hget. eexists. split; [reflexivity|].
  cbn. apply lookup_delete_eq.
Qed.

Lemma device_unregister_removes_nothing_witness :
  sdcdeviceimpl.get_operation_by_handle
    (sdcdeviceimpl.unregister_operation_by_handle examples.device_registered "op1").1
    "op1" = Some 0.
Proof.
  apply (proj2 (device_unregister_removes_nothing examples.device_registered "op1") 0).
  reflexivity.
Defined.

End device_facts.

Section location_facts.
Import sdcdeviceimpl.

Context {SdcLocation InstanceIdentifier : Type}.
Variable location_eq : option SdcLocation → option SdcLocation → bool.
Implicit Types d : SdcDevice SdcLocation InstanceIdentifier.

Lemma publish_keeps_location d : _location (publish d).1 = _location d.
Proof. unfold publish. by destruct (get_xaddrs d). Qed.

Lemma set_location_stores d location validators publish_now :
  location_eq location (_location d) = false →
  _location (set_location location_eq d location validators publish_now).1 = location.
Proof.
  intros Hne. unfold set_location. rewrite Hne.
  destruct location as [l|]; [|by destruct (_location d)].
  destruct publish_now; [|by destruct (_location d)].
  rewrite publish_keeps_location. by destruct (_location d).
Qed.

(** X22. [set_location] stores the location before it publishes.  When the
    device has no http server yet, a call with a new location and
    [publish_now] raises after the discovery was cleared of an old location
    and the mdib was given the new one, and the location is stored; a
    further call with that location, if it equals itself, returns at once
    and publishes nothing. *)
Theorem set_location_is_not_retried
    d (location : option SdcLocation) (validators : list InstanceIdentifier)
    (publish_now : bool) :
  (location_eq location location = true →
   ∀ validators' publish_now',
     set_location location_eq
       (set_location location_eq d location validators publish_now).1 location
       validators' publish_now'
     = ((set_location location_eq d location validators publish_now).1, Ok ()))
  ∧ (∀ l, location = Some l → location_eq location (_location d) = false →
          _http_server_thread d = None →
          ∃ d' ex,
            set_location location_eq d location validators true = (d', Err ex)
            ∧ _location d' = Some l
            ∧ trace d'
              = trace d
                ++ match _location d with
                   | Some _ => [clear_service (epr d)]
                   | None => []
                   end
                ++ [mdib_set_location l validators]).
Proof.
  split.
  - intros Hrefl validators' publish_now'.
    destruct (location_eq location (_location d)) eqn:Heq.
    + assert ((set_location location_eq d location validators publish_now).1 = d) as ->
        by (unfold set_location; by rewrite Heq).
      unfold set_location. by rewrite Heq.
    + unfold set_location at 1.
      by rewrite (set_location_stores _ _ _ _ Heq), Hrefl.
  - intros l -> Hne Hthread. unfold set_location. rewrite Hne.
    unfold publish, get_xaddrs.
    destruct (_location d) as [l0|]; cbn; rewrite Hthread; eexists _, _;
      (split; [reflexivity|]); (split; [reflexivity|]); cbn;
      by rewrite <- ?app_assoc.
Qed.

Lemma cleared_between_app (calls1 : list (Call SdcLocation InstanceIdentifier)) :
  ∀ published calls2,
    cleared_between published (calls1 ++ calls2)
    = cleared_between published calls1
      && cleared_between (published_after published calls1) calls2.
Proof.
  induction calls1 as [|c calls1 IH]; intros published calls2; [done|].
  destruct c; cbn; rewrite IH; [done|done|]. by rewrite andb_assoc.
Qed.

Lemma published_after_app (calls1 calls2 : list (Call SdcLocation InstanceIdentifier))
    published :
  published_after published (calls1 ++ calls2)
  = published_after (published_after published calls1) calls2.
Proof. apply foldl_app. Qed.

Lemma set_location_keeps_cleared d location validators publish_now :
  cleared_between false (trace d) = true →
  (published_after false (trace d) = true → is_Some (_location d)) →
  cleared_between false
    (trace (set_location location_eq d location validators publish_now).1) = true
  ∧ (published_after false
       (trace (set_location location_eq d location validators publish_now).1) = true
     → is_Some (_location (set_location location_eq d location validators publish_now).1)).
Proof.
  intros Hc Hp.
  destruct (location_eq location (_location d)) eqn:Heq.
  { unfold set_location. by rewrite Heq. }
  rewrite (set_location_stores _ _ _ _ Heq). unfold set_location. rewrite Heq.
  destruct location as [l|].
  - assert (∀ d3 : SdcDevice SdcLocation InstanceIdentifier,
              (∃ more, trace d3 = trace d ++ more ++ [mdib_set_location l validators]
                       ∧ (more = [] ∧ _location d = None
                          ∨ more = [clear_service (epr d)])) →
              cleared_between false
                (trace (if publish_now then publish d3 else (d3, Ok ())).1) = true)
      as Hgoal.
    { intros d3 (more & Hcalls & Hmore).
      assert (cleared_between false (trace d3) = true
              ∧ published_after false (trace d3) = false) as [Hc3 Hp3].
      { rewrite Hcalls, cleared_between_app, published_after_app, Hc.
        destruct Hmore as [[-> Hnone]| ->]; cbn; [|done].
        destruct (published_after false (trace d)); [|done].
        destruct (Hp eq_refl) as [x Hx]. congruence. }
      destruct publish_now; [|done]. unfold publish.
      destruct (get_xaddrs d3); [|done]. cbn.
      by rewrite cleared_between_app, Hc3, Hp3. }
    split; [|by eexists].
    destruct (_location d) as [l0|] eqn:Hl; apply Hgoal; cbn.
    + exists [clear_service (epr d)]. split; [by rewrite <- app_assoc|by right].
    + exists []. split; [done|by left].
  - destruct (_location d) as [l0|] eqn:Hl; [|done].
    cbn [set__location record trace fst].
    rewrite cleared_between_app, published_after_app, Hc. cbn. split; [done|discriminate].
Qed.

(** X23. Starting without a location, whatever calls of [set_location]
    follow and whichever of them raise, the device never asks the discovery
    to publish it a second time without having asked it to clear the
    service in between. *)
Theorem never_published_twice_without_clearing
    d (requests : list (option SdcLocation * list InstanceIdentifier * bool)) :
  _location d = None → trace d = [] →
  cleared_between false (trace (set_locations location_eq d requests)) = true.
Proof.
  intros Hl Hcalls.
  assert (cleared_between false (trace d) = true
          ∧ (published_after false (trace d) = true → is_Some (_location d))) as Hinv.
  { rewrite Hcalls. split; [done|discriminate]. }
  clear Hl Hcalls. revert d Hinv.
  induction requests as [|[[location validators] publish_now] rest IH]; intros d [Hc Hp];
    [done|].
  cbn [set_locations]. apply IH. by apply set_location_keeps_cleared.
Qed.

End location_facts.

Section location_examples.
Import sdcdeviceimpl.

Lemma set_location_is_not_retried_witness :
  ∃ d' ex,
    set_location examples.same_location examples.sdc_device (Some "bed1") ["v1"] true
    = (d', Err ex)
    ∧ trace d' = [mdib_set_location "bed1" ["v1"]]
    ∧ set_location examples.same_location d' (Some "bed1") ["v1"] true = (d', Ok ()).
Proof.
  destruct (set_location_is_not_retried examples.same_location examples.sdc_device
              (Some "bed1") ["v1"] true) as [Hagain Hraises].
  destruct (Hraises "bed1" eq_refl eq_refl eq_refl) as (d' & ex & Hset & _ & Htrace).
  exists d', ex. split; [exact Hset|]. split; [exact Htrace|].
  specialize (Hagain eq_refl ["v1"] true). rewrite Hset in Hagain. exact Hagain.
Defined.

Lemma never_published_twice_without_clearing_witness :
  cleared_between false
    (trace (set_locations examples.same_location examples.sdc_device_started
              examples.three_locations)) = true
  ∧ length (trace (set_locations examples.same_location examples.sdc_device_started
                     examples.three_locations)) = 7.
Proof.
  split; [|reflexivity].
  apply (never_published_twice_without_clearing examples.same_location
           examples.sdc_device_started examples.three_locations); reflexivity.
Defined.

End location_examples.

(** ** The setters of the role providers *)

Section setter_failure_facts.
Import descriptorcontainers mdib sco providerbase.

(** X24. How [_set_numeric_value] and [_set_string] fail.  When the mdib
    has no descriptor with the handle of the operation they raise before
    anything is assigned.  When the operation target has no state, or its
    descriptor is not a metric descriptor, they raise after
    [current_value] was assigned, and the mdib is as before: nothing is
    committed. *)
Theorem setters_fail_without_commit
    (operation_instance : OperationDefinition) (value : PyValue) (e : Env)
    (setter : Handler PyValue) :
  setter = _set_numeric_value ∨ setter = _set_string →
  (get descriptorcontainers.Handle (descriptions (the_mdib e)) (handle operation_instance)
   = [] →
   ∃ ex, setter operation_instance value e = (operation_instance, e, Err ex))
  ∧ (∀ operation_descriptor target,
       get descriptorcontainers.Handle (descriptions (the_mdib e))
         (handle operation_instance) = [operation_descriptor] →
       OperationTarget (properties operation_descriptor) = Some target →
       (get descriptorHandle (states (the_mdib e)) target = [] →
        ∃ ex, setter operation_instance value e
              = (set_current_value operation_instance (Some (PyScalar value)), e, Err ex))
       ∧ (∀ state target_descriptor,
            get descriptorHandle (states (the_mdib e)) target = [state] →
            get descriptorcontainers.Handle (descriptions (the_mdib e)) target
            = [target_descriptor] →
            isMetricDescriptor (cls target_descriptor) = false →
            ∃ msg, setter operation_instance value e
                   = (set_current_value operation_instance (Some (PyScalar value)), e,
                      Err (AttributeError msg)))).
Proof.
  intros Hsetter.
  assert (setter = _set_numeric_value) as -> by (by destruct Hsetter as [->| ->]).
  unfold _set_numeric_value, _get_operation_target_handle. split.
  - intros Hnone. unfold get_the_one, get_one. rewrite Hnone. cbn. by eexists.
  - intros operation_descriptor target Hop Htarget.
    rewrite (get_the_one_singleton _ _ _ _ Hop). cbn [mbind result_bind]. rewrite Htarget.
    unfold set_value_in_transaction, get_state.
    cbn [state_updates begin_transaction].
    split.
    + intros Hnone. unfold get at 1. rewrite filter_nil.
      unfold get_the_one, get_one. rewrite Hnone. cbn. by eexists.
    + intros state target_descriptor Hs Hd Hm. unfold get at 1. rewrite filter_nil.
      rewrite (get_the_one_singleton _ _ _ _ Hs). cbn [mbind result_bind].
      assert (∃ before,
                metricValue (match metricValue state with
                             | None => mk_metric_value state
                             | Some _ => state
                             end) = Some before) as [before ->].
      { destruct (metricValue state) as [mv|] eqn:Hmv; [by exists mv|by eexists]. }
      rewrite (get_the_one_singleton _ _ _ _ Hd). cbn [mbind result_bind].
      unfold MetricCategory. rewrite Hm. cbn. by eexists.
Qed.

Lemma setters_fail_without_commit_witness :
  ∃ ex,
    _set_numeric_value examples.unknown_op examples.forty_two
      (env examples.empty_device)
    = (examples.unknown_op, env examples.empty_device, Err ex).
Proof.
  apply (proj1 (setters_fail_without_commit examples.unknown_op examples.forty_two
                  (env examples.empty_device) _set_numeric_value (or_introl eq_refl))).
  reflexivity.
Defined.

End setter_failure_facts.

(** ** Codes *)

Section coding_facts.
Import pmtypes.

Lemma nonempty_iff_elem {A} (l : list A) : (0 < length l)%nat ↔ ∃ x, x ∈ l.
Proof.
  destruct l as [|a l]; simpl.
  - split; [lia|]. intros [x Hx]. by apply elem_of_nil in Hx.
  - split; [|lia]. intros _. exists a. by left.
Qed.

Lemma have_matching_codes_Ok code_a code_b codes_a codes_b :
  codes_of code_a = Ok codes_a → codes_of code_b = Ok codes_b →
  ∃ b, have_matching_codes code_a code_b = Ok b
       ∧ (b = true ↔ ∃ x, x ∈ codes_a ∧ x ∈ codes_b).
Proof.
  intros Ha Hb. unfold have_matching_codes. rewrite Ha, Hb. cbn [mbind result_bind].
  eexists. split; [reflexivity|]. rewrite bool_decide_eq_true, nonempty_iff_elem.
  split; intros [x Hx]; exists x.
  - apply list_elem_of_filter in Hx as [? ?]. by split.
  - destruct Hx as [? ?]. by apply list_elem_of_filter.
Qed.

Lemma codes_of_CodedValue v codes :
  codes_of (a_CodedValue v) = Ok codes → ∀ x, x ∈ codes → ∃ c, x = elem_Coding c.
Proof.
  cbn [codes_of]. destruct (all_codings v) as [l|]; [|discriminate].
  cbn [mbind result_bind]. intros [= <-] x Hx.
  apply elem_of_remove_dups, list_elem_of_fmap in Hx as (c & -> & _). by exists c.
Qed.

(** X25. [have_matching_codes] is symmetric and says whether the two sets of
    codings have an element in common.  For two [Coding]s that is equality
    of the three fields.  A [CodedValue] never matches a string or an
    integer, although the docstring of [equals] offers that comparison; and
    comparing a [CodedValue] whose [Code] is not a string raises
    [TypeError]. *)
Theorem have_matching_codes_spec :
  (∀ code_a code_b codes_a codes_b,
     codes_of code_a = Ok codes_a → codes_of code_b = Ok codes_b →
     have_matching_codes code_a code_b = have_matching_codes code_b code_a
     ∧ (have_matching_codes code_a code_b = Ok true
        ↔ ∃ x, x ∈ codes_a ∧ x ∈ codes_b))
  ∧ (∀ c1 c2, Coding_equals c1 (a_Coding c2) = Ok (bool_decide (c1 = c2)))
  ∧ (∀ v other,
       is_Ok (all_codings v) = true →
       (∃ s, other = a_str s) ∨ (∃ n, other = an_int n) →
       equals v other = Ok false)
  ∧ (∀ v other,
       (∀ s, Code v ≠ code_str s) → ∃ msg, equals v other = Err (TypeError msg)).
Proof.
  split; [|split; [|split]].
  - intros code_a code_b codes_a codes_b Ha Hb.
    destruct (have_matching_codes_Ok _ _ _ _ Ha Hb) as (b & Hab & Hb_iff).
    destruct (have_matching_codes_Ok _ _ _ _ Hb Ha) as (b' & Hba & Hb'_iff).
    rewrite Hab, Hba. split.
    + f_equal. apply eq_true_iff_eq. rewrite Hb_iff, Hb'_iff.
      split; intros (x & ? & ?); by exists x.
    + rewrite <- Hb_iff. split; [by intros [= ->]|by intros ->].
  - intros c1 c2. unfold Coding_equals.
    destruct (have_matching_codes_Ok (a_Coding c1) (a_Coding c2) _ _ eq_refl eq_refl)
      as (b & -> & Hb_iff).
    f_equal. apply eq_true_iff_eq. rewrite Hb_iff, bool_decide_eq_true. split.
    + intros (x & ->%list_elem_of_singleton & [= ->]%list_elem_of_singleton). done.
    + intros ->. exists (elem_Coding c2). split; by left.
  - intros v other Hv Hother. unfold equals.
    destruct (codes_of (a_CodedValue v)) as [codes_a|] eqn:Ha.
    2:{ cbn [codes_of] in Ha. destruct (all_codings v); [discriminate Ha|discriminate Hv]. }
    assert (∃ codes_b, codes_of other = Ok codes_b
                       ∧ ∀ x c, x ∈ codes_b → x ≠ elem_Coding c) as (codes_b & Hb & Hnot).
    { destruct Hother as [[s ->]|[n ->]]; eexists; (split; [reflexivity|]);
        intros x c ->%list_elem_of_singleton; discriminate. }
    destruct (have_matching_codes_Ok _ _ _ _ Ha Hb) as (b & Hab & Hb_iff).
    rewrite Hab. f_equal. destruct b; [|done].
    destruct (proj1 Hb_iff eq_refl) as (x & Hxa & Hxb).
    destruct (codes_of_CodedValue v codes_a Ha x Hxa) as [c ->].
    by destruct (Hnot _ c Hxb).
  - intros v other Hcode. unfold equals, have_matching_codes.
    cbn [codes_of]. unfold all_codings, coding, new_Coding.
    destruct (Code v) as [s| |] eqn:Hc; [by destruct (Hcode s)| |]; cbn; by eexists.
Qed.

Lemma have_matching_codes_spec_witness :
  have_matching_codes (a_CodedValue examples.heart_rate)
    (a_Coding (mkCoding "8867-4" (Some "urn:oid:2.16.840.1.113883.6.1") None))
  = Ok true
  ∧ equals examples.heart_rate (a_str "147842") = Ok false.
Proof.
  destruct have_matching_codes_spec as (Hmatch & _ & Hstr & _). split.
  - apply (Hmatch (a_CodedValue examples.heart_rate)
             (a_Coding (mkCoding "8867-4" (Some "urn:oid:2.16.840.1.113883.6.1") None))
             _ _ eq_refl eq_refl).
    exists (elem_Coding (mkCoding "8867-4" (Some "urn:oid:2.16.840.1.113883.6.1") None)).
    split; apply (bool_decide_unpack _); vm_compute; exact I.
  - apply Hstr; [reflexivity|]. left. by eexists.
Defined.

(** X26. [T_Translation.from_node] raises [TypeError] for every node: it
    makes the object with [cls(None)], and the constructor takes a string
    only.  [CodedValue.from_node] does not stop there, as its constructor
    accepts [None]; a [Coding] is made of a string only. *)
Theorem T_Translation_from_node_raises :
  (∀ Node assigned (update_from_node : T_Translation → Node → result T_Translation)
     (node : Node),
     T_Translation_from_node assigned update_from_node node
     = Err (TypeError "code must be a string!"))
  ∧ (∀ Node assigned (update_from_node : CodedValue → Node → result CodedValue)
       (node : Node),
       CodedValue_from_node assigned update_from_node node
       = update_from_node (assigned code_None None None) node)
  ∧ (∀ code coding_system coding_system_version,
       is_Ok (new_Coding code coding_system coding_system_version) = true
       ↔ ∃ s, code = code_str s).
Proof.
  split; [done|]. split; [done|].
  intros code cs csv. destruct code; simpl; split; try done.
  - by eexists.
  - intros [s [=]].
  - intros [s [=]].
Qed.

Lemma T_Translation_from_node_raises_witness :
  T_Translation_from_node mkTranslation (fun obj (node : string) => Ok obj) "<Translation/>"
  = Err (TypeError "code must be a string!")
  ∧ is_Ok (new_Coding (code_str "147842") None None) = true.
Proof.
  destruct T_Translation_from_node_raises as (Hraises & _ & Hcoding). split.
  - apply Hraises.
  - apply Hcoding. by eexists.
Defined.

End coding_facts.
